(** * Verification of the ANS expense pipeline (scripts 02 to 05)

    Shallow embedding of the pandas scripts under [src/utils]:
    - [02_processar_arquivos.py]: period extraction, table reader, walker;
    - [03_validar_dados.py]: identifier check and the positive-value filter;
    - [04_enriquecer_dados.py]: left join against the registry snapshot;
    - [05_agregar_despesas.py]: chunked two-pass aggregation and statistics.

    Text is [string], the UTF-8 bytes of a Python [str]; character classes
    and case mapping are those of the ASCII range.  Numbers read from CSV
    cells are exact rationals [Q], so sums are exact: the rounding of
    binary floating point is outside this model.  Console output is left
    out; a raised exception is a [None]. *)

From Stdlib Require Import List String Ascii Bool Arith ZArith QArith Lia.
From Stdlib Require Import Permutation Sorted.
From Stdlib Require Import DecimalString.
Import ListNotations.

Open Scope string_scope.
Open Scope list_scope.

(* ===================================================================== *)
(** * Text helpers (Python [str] methods used by the scripts)            *)
(* ===================================================================== *)

Module Text.

Definition chars (s : string) : list ascii := list_ascii_of_string s.
Definition text (l : list ascii) : string := string_of_list_ascii l.

Definition code (c : ascii) : nat := nat_of_ascii c.

Definition in_range (lo hi : ascii) (c : ascii) : bool :=
  (code lo <=? code c)%nat && (code c <=? code hi)%nat.

(** ASCII decimal digit, the class [0-9]. *)
Definition is_digit (c : ascii) : bool := in_range "0" "9" c.

Definition is_upper (c : ascii) : bool := in_range "A" "Z" c.
Definition is_lower (c : ascii) : bool := in_range "a" "z" c.

Definition upper_char (c : ascii) : ascii :=
  if is_lower c then ascii_of_nat (code c - 32) else c.
Definition lower_char (c : ascii) : ascii :=
  if is_upper c then ascii_of_nat (code c + 32) else c.

(** [s.upper()] and [s.lower()] on the ASCII letters. *)
Definition upper (s : string) : string := text (map upper_char (chars s)).
Definition lower (s : string) : string := text (map lower_char (chars s)).

(** Characters removed by [str.strip()]: space, tab, LF, VT, FF, CR and
    the separators FS, GS, RS, US. *)
Definition is_space (c : ascii) : bool :=
  (code c =? 32)%nat || ((9 <=? code c)%nat && (code c <=? 13)%nat)
  || ((28 <=? code c)%nat && (code c <=? 31)%nat).

Fixpoint lstrip (l : list ascii) : list ascii :=
  match l with
  | c :: l' => if is_space c then lstrip l' else l
  | [] => []
  end.

Definition strip (s : string) : string :=
  text (rev (lstrip (rev (lstrip (chars s))))).

(** [s.replace(c, "")] for a one-character [c]. *)
Definition remove_char (c : ascii) (s : string) : string :=
  text (filter (fun x => negb (Ascii.eqb x c)) (chars s)).

(** [s.replace(a, b)] for one-character [a] and [b]. *)
Definition replace_char (a b : ascii) (s : string) : string :=
  text (map (fun x => if Ascii.eqb x a then b else x) (chars s)).

Fixpoint prefixb (p l : list ascii) : bool :=
  match p, l with
  | [], _ => true
  | a :: p', b :: l' => Ascii.eqb a b && prefixb p' l'
  | _ :: _, [] => false
  end.

Fixpoint containsl (p l : list ascii) : bool :=
  prefixb p l || match l with [] => false | _ :: l' => containsl p l' end.

(** [p in s] on strings. *)
Definition contains (p s : string) : bool := containsl (chars p) (chars s).

(** [int(s)] on a string of ASCII digits. *)
Definition digit_val (c : ascii) : Z := Z.of_nat (code c - 48).
Definition int_of_digits (l : list ascii) : Z :=
  fold_left (fun acc c => 10 * acc + digit_val c)%Z l 0%Z.

(** [str(n)] on an integer. *)
Definition str_of_int (z : Z) : string := NilEmpty.string_of_int (Z.to_int z).

Definition mem (s : string) (l : list string) : bool :=
  existsb (String.eqb s) l.

End Text.

(* ===================================================================== *)
(** * Regular expressions: the fragment of Python's [re] the scripts use  *)
(* ===================================================================== *)

Module Re.

(** Backtracking regular expressions with numbered capturing groups.
    [Upto n r] is the greedy [r{0,n}], [Times n r] is [r{n}], [Eos] is
    [$] (end of text, or just before a final newline). *)
Inductive regex : Type :=
| Cls (p : ascii -> bool)
| Cat (r1 r2 : regex)
| Alt (r1 r2 : regex)
| Times (n : nat) (r : regex)
| Upto (n : nat) (r : regex)
| Grp (i : nat) (r : regex)
| Eos.

Definition captures := list (nat * list ascii).

Definition newline : ascii := ascii_of_nat 10.

(** The matcher tries alternatives in Python's priority order and calls
    the continuation [k] on the rest of the text; a [None] from [k]
    makes it backtrack. *)
Fixpoint rmatch {R : Type} (r : regex) (s : list ascii) (caps : captures)
         (k : list ascii -> captures -> option R) : option R :=
  match r with
  | Cls p =>
      match s with
      | c :: s' => if p c then k s' caps else None
      | [] => None
      end
  | Cat a b => rmatch a s caps (fun s' c' => rmatch b s' c' k)
  | Alt a b =>
      match rmatch a s caps k with
      | Some x => Some x
      | None => rmatch b s caps k
      end
  | Times n a =>
      (fix times (n : nat) (s : list ascii) (caps : captures) : option R :=
         match n with
         | O => k s caps
         | S n' => rmatch a s caps (fun s' c' => times n' s' c')
         end) n s caps
  | Upto n a =>
      (fix upto (n : nat) (s : list ascii) (caps : captures) : option R :=
         match n with
         | O => k s caps
         | S n' =>
             match rmatch a s caps (fun s' c' => upto n' s' c') with
             | Some x => Some x
             | None => k s caps
             end
         end) n s caps
  | Grp i a =>
      rmatch a s caps
        (fun s' c' => k s' ((i, firstn (List.length s - List.length s') s) :: c'))
  | Eos =>
      match s with
      | [] => k s caps
      | [c] => if Ascii.eqb c newline then k s caps else None
      | _ => None
      end
  end.

(** [re.search]: the leftmost start position at which the pattern matches. *)
Fixpoint searchl (r : regex) (s : list ascii) : option captures :=
  match rmatch r s [] (fun _ c => Some c) with
  | Some c => Some c
  | None =>
      match s with
      | [] => None
      | _ :: s' => searchl r s'
      end
  end.

Definition search (r : regex) (s : string) : option captures :=
  searchl r (Text.chars s).

(** [m.group(i)] *)
Fixpoint group (i : nat) (c : captures) : list ascii :=
  match c with
  | [] => []
  | (j, v) :: c' => if Nat.eqb i j then v else group i c'
  end.

(** A literal character; [lit_i] is the same under [re.IGNORECASE]. *)
Definition lit (a : ascii) : regex := Cls (Ascii.eqb a).
Definition lit_i (a : ascii) : regex :=
  Cls (fun c => Ascii.eqb (Text.upper_char c) (Text.upper_char a)).

Fixpoint word (l : list ascii) : regex :=
  match l with
  | [] => Times 0 Eos
  | [a] => lit a
  | a :: l' => Cat (lit a) (word l')
  end.

End Re.

(* ===================================================================== *)
(** * 02_processar_arquivos.py: period extraction from an archive name    *)
(* ===================================================================== *)

Module Periodo.
Import Re.

(** [\d] (over ASCII text) and [[1-4]]. *)
Definition d : regex := Cls Text.is_digit.
Definition q14 : regex := Cls (Text.in_range "1" "4").

(** r"([1-4])T(\d{4})" with IGNORECASE *)
Definition pat_qTyyyy : regex :=
  Cat (Grp 1 q14) (Cat (lit_i "T") (Grp 2 (Times 4 d))).

(** r"(\d{4})[^0-9]{0,3}([1-4])(?:[_\- ]|$)" with IGNORECASE *)
Definition pat_yyyy_q : regex :=
  Cat (Grp 1 (Times 4 d))
    (Cat (Upto 3 (Cls (fun c => negb (Text.is_digit c))))
       (Cat (Grp 2 q14)
          (Alt (Cls (fun c => Ascii.eqb c "_" || Ascii.eqb c "-" || Ascii.eqb c " "))
               Eos))).

(** r"(\d{6})" *)
Definition pat_yyyymm : regex := Grp 1 (Times 6 d).

Definition _extract_year_quarter_from_name (name : string) : option (Z * Z) :=
  match search pat_qTyyyy name with
  | Some m => Some (Text.int_of_digits (group 2 m), Text.int_of_digits (group 1 m))
  | None =>
      match search pat_yyyy_q name with
      | Some m => Some (Text.int_of_digits (group 1 m), Text.int_of_digits (group 2 m))
      | None =>
          match search pat_yyyymm name with
          | Some m =>
              let y := Text.int_of_digits (firstn 4 (group 1 m)) in
              let mon := Text.int_of_digits (firstn 2 (skipn 4 (group 1 m))) in
              if ((1 <=? mon) && (mon <=? 12))%Z
              then Some (y, ((mon - 1) / 3 + 1)%Z)
              else None
          | None => None
          end
      end
  end.

(** The two context strings [processar_arquivos] derives from the name:
    [ano = str(yq[0]) if yq else "N/A"], and likewise [trimestre]. *)
Definition ano_trimestre (name : string) : string * string :=
  match _extract_year_quarter_from_name name with
  | Some (y, q) => (Text.str_of_int y, Text.str_of_int q)
  | None => ("N/A", "N/A")
  end.

End Periodo.

(* ===================================================================== *)
(** * Frames read with [dtype=str], files, and the pandas entry points     *)
(* ===================================================================== *)

(** A cell of a frame read with [dtype=str]: text, or [None] for NaN. *)
Definition cell := option string.

Record DataFrame : Type := mkDF {
  columns : list string;
  rows : list (list cell)
}.

(** [df.shape[1]] *)
Definition shape1 (df : DataFrame) : nat := List.length (columns df).

Fixpoint index_of (c : string) (l : list string) : option nat :=
  match l with
  | [] => None
  | x :: l' => if String.eqb c x then Some O else option_map S (index_of c l')
  end.

(** [row[c]] for a column label that is present. *)
Definition cell_at (df : DataFrame) (c : string) (r : list cell) : cell :=
  match index_of c (columns df) with
  | Some i => nth i r None
  | None => None
  end.

(** An extracted file: its path below the extraction directory and, for
    each codec that can decode its bytes, the decoded text. *)
Record File : Type := mkFile {
  relpath : string;
  decodings : list (string * string)
}.

Fixpoint assoc {V : Type} (k : string) (l : list (string * V)) : option V :=
  match l with
  | [] => None
  | (k', v) :: l' => if String.eqb k k' then Some v else assoc k l'
  end.

(** [bytes.decode(enc)]; [None] is a decoding error. *)
Definition decode (f : File) (enc : string) : option string :=
  assoc enc (decodings f).

Module PathName.

Fixpoint after_last (sep : ascii) (l acc : list ascii) : list ascii :=
  match l with
  | [] => acc
  | c :: l' => if Ascii.eqb c sep then after_last sep l' l' else after_last sep l' acc
  end.

(** [Path.name]: the last component. *)
Definition name (p : string) : string :=
  Text.text (after_last "/" (Text.chars p) (Text.chars p)).

Fixpoint last_dot (l : list ascii) (i : nat) (found : option nat) : option nat :=
  match l with
  | [] => found
  | c :: l' => last_dot l' (S i) (if Ascii.eqb c "." then Some i else found)
  end.

(** [Path.suffix]: from the last dot of the name, when that dot is
    neither its first nor its last character. *)
Definition suffix (p : string) : string :=
  let n := Text.chars (name p) in
  match last_dot n 0 None with
  | Some i =>
      if ((0 <? i) && (S i <? List.length n))%nat
      then Text.text (skipn i n) else ""
  | None => ""
  end.

End PathName.

(** The pandas functions the scripts call, which live outside the
    repository.  [None] stands for a raised exception. *)
Class Pandas : Type := {
  (** [pd.read_excel(path, dtype=str)] *)
  read_excel : File -> option DataFrame;
  (** [pd.read_csv(path, sep=sep, encoding=enc, dtype=str, engine="python")] *)
  read_csv : File -> string -> string -> option DataFrame;
  (** [pd.to_numeric(text, errors="coerce")] on one cell; [None] is NaN *)
  to_numeric : string -> option Q;
  (** [str(x)] on a float *)
  str_float : Q -> string;
  (** the text [df.to_csv(index=False, header=h, encoding='utf-8-sig')]
      writes for canonical rows (registry id, quarter, year, value) *)
  to_csv : bool -> list (cell * string * string * Q) -> string
}.

(* ===================================================================== *)
(** * 02_processar_arquivos.py: reader, classifier, mapper, walker         *)
(* ===================================================================== *)

Module Processar.
Section WithPandas.
Context {pd : Pandas}.

Definition encodings : list string := ["utf-8"; "latin-1"; "cp1252"].
Definition tab : string := String (ascii_of_nat 9) "".
Definition seps : list string := [";"; ","; tab; "|"].

(** The inner [for sep in seps] loop for one encoding. *)
Fixpoint try_seps (path : File) (enc : string) (ss : list string) : option DataFrame :=
  match ss with
  | [] => None
  | sep :: ss' =>
      match read_csv path sep enc with
      | Some df => if (1 <? shape1 df)%nat then Some df else try_seps path enc ss'
      | None => try_seps path enc ss'
      end
  end.

(** The outer [for enc in encodings] loop. *)
Fixpoint try_encodings (path : File) (es : list string) : option DataFrame :=
  match es with
  | [] => None
  | enc :: es' =>
      match try_seps path enc seps with
      | Some df => Some df
      | None => try_encodings path es'
      end
  end.

Definition is_spreadsheet (path : File) : bool :=
  Text.mem (Text.lower (PathName.suffix (relpath path))) [".xls"; ".xlsx"].

Definition _try_read_table (path : File) : option DataFrame :=
  if is_spreadsheet path then read_excel path
  else try_encodings path encodings.

(** ** Classifier *)

Definition keywords_cols : list string :=
  ["CD_CONTA_CONTABIL"; "VL_SALDO_FINAL"; "VALOR"; "REG_ANS"; "DESPESA"; "SINISTRO"].

Definition norm_col (c : string) : string := Text.upper (Text.strip c).

(** r"VAL|VLR|VL_" *)
Definition pat_val : Re.regex :=
  Re.Alt (Re.word (Text.chars "VAL"))
    (Re.Alt (Re.word (Text.chars "VLR")) (Re.word (Text.chars "VL_"))).

Definition _is_expense_table (df : DataFrame) : bool :=
  let cols := map norm_col (columns df) in
  if existsb (fun c => Text.mem c keywords_cols) cols then true
  else existsb (fun c => match Re.search pat_val c with Some _ => true | None => false end) cols.

(** ** Field mapper *)

(** [d[k] = v] on a dict kept in insertion order. *)
Fixpoint dict_set (k v : string) (d : list (string * string)) : list (string * string) :=
  match d with
  | [] => [(k, v)]
  | (k', v') :: d' =>
      if String.eqb k k' then (k', v) :: d' else (k', v') :: dict_set k v d'
  end.

(** [{c.strip().upper(): c for c in df.columns}] *)
Definition upper_cols_of (df : DataFrame) : list (string * string) :=
  fold_left (fun d c => dict_set (norm_col c) c d) (columns df) [].

Definition reg_candidates : list string := ["REG_ANS"; "REGANS"; "REGISTROANS"; "ANS"].
Definition val_candidates : list string :=
  ["VL_SALDO_FINAL"; "VALOR"; "VALOR_DESPESA"; "VALOR_FINAL"; "VLR"].

(** [for c in candidates: if c in upper_cols: col = upper_cols[c]; break] *)
Fixpoint first_candidate (cands : list string) (d : list (string * string)) : option string :=
  match cands with
  | [] => None
  | c :: cands' =>
      match assoc c d with
      | Some col => Some col
      | None => first_candidate cands' d
      end
  end.

(** [astype(str)] on a [dtype=str] cell. *)
Definition astype_str (c : cell) : string :=
  match c with Some s => s | None => "nan" end.

(** [.str.replace(r"[^0-9,\.\-]", "", regex=True).str.replace(",", ".")] *)
Definition keep_numeric_chars (s : string) : string :=
  Text.text (filter (fun c => Text.is_digit c || Ascii.eqb c "," || Ascii.eqb c "."
                               || Ascii.eqb c "-") (Text.chars s)).

Definition clean_value (c : cell) : string :=
  Text.replace_char "," "." (keep_numeric_chars (astype_str c)).

Definition canonical : Type := cell * string * string * Q.

(** One row of [df_sub] after cleaning; [None] when [dropna] removes it.
    With [errors="coerce"] the conversion does not raise, so the
    [except] branch of the source is never taken. *)
Definition extract_row (df : DataFrame) (reg_col val_col ano trimestre : string)
           (r : list cell) : option canonical :=
  match to_numeric (clean_value (cell_at df val_col r)) with
  | Some v => Some (cell_at df reg_col r, trimestre, ano, v)
  | None => None
  end.

Fixpoint keep_some {A : Type} (l : list (option A)) : list A :=
  match l with
  | [] => []
  | Some x :: l' => x :: keep_some l'
  | None :: l' => keep_some l'
  end.

Definition _normalize_and_extract (df : DataFrame) (ano trimestre : string)
  : option (list canonical) :=
  let upper_cols := upper_cols_of df in
  match first_candidate reg_candidates upper_cols,
        first_candidate val_candidates upper_cols with
  | Some reg_col, Some val_col =>
      match keep_some (map (extract_row df reg_col val_col ano trimestre) (rows df)) with
      | [] => None
      | df_sub => Some df_sub
      end
  | _, _ => None
  end.

(** ** Walker *)

(** An archive of [data/raw]: its file name and what [extractall] leaves
    in the scratch directory, in [os.walk] order; [None] when opening or
    extracting it raises. *)
Record Zip : Type := mkZip {
  zip_name : string;
  extracted : option (list File)
}.

(** The part of the file system the walker reads and writes:
    [RAW_DIR.glob("*.zip")] and the content of [CSV_FINAL], if it exists. *)
Record FS : Type := mkFS {
  raw_zips : list Zip;
  csv_final : option string
}.

(** [sorted(...)] on the archive paths: insertion into a list ordered by
    name. *)
Fixpoint insert_zip (z : Zip) (l : list Zip) : list Zip :=
  match l with
  | [] => [z]
  | y :: l' =>
      if String.leb (zip_name z) (zip_name y) then z :: l else y :: insert_zip z l'
  end.

Definition sorted_zips (l : list Zip) : list Zip := fold_right insert_zip [] l.

(** The walker's mutable state: the consolidated file and the
    [primeira_escrita] flag. *)
Record Walk : Type := mkWalk {
  out : option string;
  primeira_escrita : bool
}.

(** [dfn.to_csv(CSV_FINAL, mode='a', header=primeira_escrita, ...)]
    followed by [primeira_escrita = False]; the write is taken to
    succeed. *)
Definition append_csv (w : Walk) (dfn : list canonical) : Walk :=
  let old := match out w with Some s => s | None => "" end in
  mkWalk (Some (old ++ to_csv (primeira_escrita w) dfn)%string) false.

(** The body of [for fname in files].  The test for "__MACOSX" is made
    on the path below the scratch directory, whose own generated name
    holds no capital letter. *)
Definition process_file (ano trimestre : string) (w : Walk) (f : File) : Walk :=
  if Text.contains "__MACOSX" (relpath f) then w
  else match _try_read_table f with
       | None => w
       | Some df =>
           if negb (_is_expense_table df) then w
           else match _normalize_and_extract df ano trimestre with
                | None => w
                | Some dfn => append_csv w dfn
                end
       end.

(** The body of [for caminho_zip in arquivos_zip]. *)
Definition process_zip (w : Walk) (z : Zip) : Walk :=
  let (ano, trimestre) := Periodo.ano_trimestre (zip_name z) in
  match extracted z with
  | None => w
  | Some files => fold_left (process_file ano trimestre) files w
  end.

Definition processar_arquivos (fs : FS) : FS :=
  let arquivos_zip := sorted_zips (raw_zips fs) in
  match arquivos_zip with
  | [] => fs
  | _ =>
      (* CSV_FINAL.unlink() when it exists, then primeira_escrita = True *)
      let w0 := mkWalk None true in
      mkFS (raw_zips fs) (out (fold_left process_zip arquivos_zip w0))
  end.

End WithPandas.
End Processar.

(* ===================================================================== *)
(** * Values of a frame read with inferred column types                    *)
(* ===================================================================== *)

(** A cell of a frame read by [pd.read_csv] with its default type
    inference: missing, an integer, a float, or text. *)
Inductive value : Type :=
| NaN
| Int (z : Z)
| Flt (q : Q)
| Txt (s : string).

Definition value_of_cell (c : cell) : value :=
  match c with Some s => Txt s | None => NaN end.

(** [str(v)], which is also [astype(str)] on one cell. *)
Definition str_value {pd : Pandas} (v : value) : string :=
  match v with
  | NaN => "nan"
  | Int z => Text.str_of_int z
  | Flt q => str_float q
  | Txt s => s
  end.

(** [pd.to_numeric(column, errors='coerce')] on one cell. *)
Definition to_numeric_value {pd : Pandas} (v : value) : option Q :=
  match v with
  | NaN => None
  | Int z => Some (inject_Z z)
  | Flt q => Some q
  | Txt s => to_numeric s
  end.

(** [x > 0] on a float; a NaN compares false. *)
Definition positive (o : option Q) : bool :=
  match o with
  | Some q => negb (Qle_bool q 0)
  | None => false
  end.

(** A row of the consolidated file [consolidado_despesas.csv], whose
    header is RegistroANS,Trimestre,Ano,ValorDespesas. *)
Record Despesa : Type := mkDespesa {
  RegistroANS : value;
  Trimestre : value;
  Ano : value;
  ValorDespesas : value
}.

(* ===================================================================== *)
(** * 03_validar_dados.py                                                  *)
(* ===================================================================== *)

Module Validar.
Section WithPandas.
Context {pd : Pandas}.

(** [str(cnpj).replace(".", "").replace("/", "").replace("-", "")] and
    the length test. *)
Definition normalizar_cnpj (s : string) : string :=
  Text.remove_char "-" (Text.remove_char "/" (Text.remove_char "." s)).

Definition validar_cnpj (cnpj : value) : bool :=
  (String.length (normalizar_cnpj (str_value cnpj)) =? 14)%nat.

(** A row of [data/raw/registro_ans_info.csv], read with [dtype=str]. *)
Record Mapeamento : Type := mkMapeamento {
  m_RegistroANS : cell;
  m_CNPJ : cell;
  m_RazaoSocial : cell
}.

(** The optional mapping file: missing; present but unusable (it cannot
    be read, or lacks one of the columns RegistroANS, CNPJ, RazaoSocial,
    so that the [try] block ends in its [except] or [else] branch);
    or present with its rows. *)
Inductive MappingFile : Type :=
| Ausente
| Inutilizavel
| Mapeado (m : list Mapeamento).

(** A row of [df] after the optional merge.  [CNPJ] and [RazaoSocial] are
    [None] while the frame has no such column. *)
Record Linha : Type := mkLinha {
  base : Despesa;
  CNPJ : option value;
  RazaoSocial : option value;
  CNPJ_Valido : bool;
  Valor : option Q
}.

Definition eq_key (r : Despesa) (m : Mapeamento) : bool :=
  String.eqb (str_value (RegistroANS r)) (str_value (value_of_cell (m_RegistroANS m))).

(** [df.merge(mapping[[...]], on='RegistroANS', how='left')] for one left
    row: one output row per matching mapping row, or one row with NaN
    on the right when nothing matches. *)
Definition merge_row (m : list Mapeamento) (r : Despesa) : list Linha :=
  match filter (eq_key r) m with
  | [] => [mkLinha r (Some NaN) (Some NaN) false None]
  | ms => map (fun x => mkLinha r (Some (value_of_cell (m_CNPJ x)))
                          (Some (value_of_cell (m_RazaoSocial x))) false None) ms
  end.

Definition carregar (mf : MappingFile) (df : list Despesa) : list Linha :=
  match mf with
  | Mapeado m => flat_map (merge_row m) df
  | Inutilizavel => map (fun r => mkLinha r None None false None) df
  | Ausente => map (fun r => mkLinha r (Some (Txt "")) (Some (Txt "")) false None) df
  end.

(** [df['RazaoSocial'].isna() | (df['RazaoSocial'].astype(str).str.strip() == "")] *)
Definition missing_rs (l : Linha) : bool :=
  match RazaoSocial l with
  | Some NaN => true
  | Some v => String.eqb (Text.strip (str_value v)) ""
  | None => false
  end.

(** [df['CNPJ_Valido'] = df['CNPJ'].apply(validar_cnpj)], or [False] for
    every row when the column is absent. *)
Definition marcar_cnpj (l : Linha) : Linha :=
  mkLinha (base l) (CNPJ l) (RazaoSocial l)
    (match CNPJ l with Some c => validar_cnpj c | None => false end) (Valor l).

(** [df['ValorDespesas'] = pd.to_numeric(df['ValorDespesas'], errors='coerce')] *)
Definition converter_valor (l : Linha) : Linha :=
  mkLinha (base l) (CNPJ l) (RazaoSocial l) (CNPJ_Valido l)
    (to_numeric_value (ValorDespesas (base l))).

(** A row of [output_df]: CNPJ, RazaoSocial, Trimestre, Ano, ValorDespesas. *)
Definition Saida : Type := (value * value * value * value * option Q)%type.

Definition projetar (l : Linha) : Saida :=
  (match CNPJ l with Some c => c | None => Txt "" end,
   match RazaoSocial l with Some c => c | None => Txt "" end,
   Trimestre (base l), Ano (base l), Valor l).

Record Resultado : Type := mkResultado {
  avisos_sem_razao : nat;       (* the count printed in the warning *)
  df_limpo : list Linha;        (* rows left by the positive-value filter *)
  output_df : list Saida        (* what is written to dados_validados.csv *)
}.

Definition executar_validacao (mf : MappingFile) (df : list Despesa) : Resultado :=
  let df1 := carregar mf df in
  let avisos := List.length (filter missing_rs df1) in
  let df2 := map marcar_cnpj df1 in
  let df3 := map converter_valor df2 in
  let limpo := filter (fun l => positive (Valor l)) df3 in
  mkResultado avisos limpo (map projetar limpo).

End WithPandas.
End Validar.

(* ===================================================================== *)
(** * 04_enriquecer_dados.py                                               *)
(* ===================================================================== *)

Module Enriquecer.

(** ** Mojibake repair.  Text is held as UTF-8 bytes. *)

Definition cont (n : nat) : bool := (128 <=? n)%nat && (n <=? 191)%nat.

(** [s.encode('latin-1')]: defined when every character is below U+0100,
    that is, when every non-ASCII character is a two-byte sequence led by
    0xC2 or 0xC3. *)
Fixpoint encode_latin1 (l : list ascii) : option (list ascii) :=
  match l with
  | [] => Some []
  | c :: l' =>
      if (Text.code c <? 128)%nat then option_map (cons c) (encode_latin1 l')
      else
        match l' with
        | x :: l'' =>
            if (Text.code c =? 194)%nat && cont (Text.code x)
            then option_map (cons x) (encode_latin1 l'')
            else if (Text.code c =? 195)%nat && cont (Text.code x)
            then option_map (cons (ascii_of_nat (Text.code x + 64))) (encode_latin1 l'')
            else None
        | [] => None
        end
  end.

(** Whether [bytes.decode('utf-8')] succeeds: the well-formed byte
    sequences of UTF-8. *)
Fixpoint valid_utf8 (l : list ascii) : bool :=
  match l with
  | [] => true
  | b0 :: l1 =>
      let n0 := Text.code b0 in
      if (n0 <? 128)%nat then valid_utf8 l1
      else
        match l1 with
        | [] => false
        | b1 :: l2 =>
            let n1 := Text.code b1 in
            if (194 <=? n0)%nat && (n0 <=? 223)%nat then cont n1 && valid_utf8 l2
            else
              match l2 with
              | [] => false
              | b2 :: l3 =>
                  let n2 := Text.code b2 in
                  if (n0 =? 224)%nat
                  then (160 <=? n1)%nat && (n1 <=? 191)%nat && cont n2 && valid_utf8 l3
                  else if (n0 =? 237)%nat
                  then (128 <=? n1)%nat && (n1 <=? 159)%nat && cont n2 && valid_utf8 l3
                  else if (225 <=? n0)%nat && (n0 <=? 239)%nat
                  then cont n1 && cont n2 && valid_utf8 l3
                  else
                    match l3 with
                    | [] => false
                    | b3 :: l4 =>
                        let n3 := Text.code b3 in
                        if (n0 =? 240)%nat
                        then (144 <=? n1)%nat && (n1 <=? 191)%nat && cont n2 && cont n3
                             && valid_utf8 l4
                        else if (241 <=? n0)%nat && (n0 <=? 243)%nat
                        then cont n1 && cont n2 && cont n3 && valid_utf8 l4
                        else if (n0 =? 244)%nat
                        then (128 <=? n1)%nat && (n1 <=? 143)%nat && cont n2 && cont n3
                             && valid_utf8 l4
                        else false
                    end
              end
        end
  end.

(** The characters U+00C3 and U+00C2 as UTF-8. *)
Definition A_tilde : list ascii := [ascii_of_nat 195; ascii_of_nat 131].
Definition A_circ : list ascii := [ascii_of_nat 195; ascii_of_nat 130].

Definition _fix_mojibake_text (c : cell) : cell :=
  match c with
  | None => None
  | Some s =>
      let l := Text.chars s in
      if Text.containsl A_tilde l || Text.containsl A_circ l then
        match encode_latin1 l with
        | Some b => if valid_utf8 b then Some (Text.text b) else Some s
        | None => Some s
        end
      else Some s
  end.

Section WithPandas.
Context {pd : Pandas}.

(** [.str.replace(r'\D', '', regex=True)] *)
Definition only_digits (s : string) : string :=
  Text.text (filter Text.is_digit (Text.chars s)).

(** The loop that looks for the registry-number column. *)
Fixpoint find_registro (cols : list string) : option string :=
  match cols with
  | [] => None
  | c :: cols' =>
      let uc := Text.upper c in
      if Text.contains "REGIAO" uc then find_registro cols'
      else if Text.contains "REGIST" uc
              || (Text.contains "REG" uc && negb (Text.contains "CNPJ" uc))
      then Some c
      else find_registro cols'
  end.

(** The loop that looks for the name column. *)
Fixpoint find_razao (cols : list string) : option string :=
  match cols with
  | [] => None
  | c :: cols' =>
      if Text.contains "RAZAO" c || Text.contains "NOME" c then Some c
      else find_razao cols'
  end.

(** A row of [df_cadastro[['RegistroANS','CNPJ','RazaoSocial','MODALIDADE','UF']]]. *)
Record Cadastro : Type := mkCadastro {
  c_RegistroANS : string;
  c_CNPJ : cell;
  c_RazaoSocial : cell;
  c_MODALIDADE : cell;
  c_UF : cell
}.

(** A row of the enriched output, in the order of [colunas_finais]. *)
Record Enriquecida : Type := mkEnriquecida {
  e_CNPJ : cell;
  e_RazaoSocial : cell;
  e_Trimestre : value;
  e_Ano : value;
  e_ValorDespesas : value;
  e_RegistroANS : string;
  e_Modalidade : cell;
  e_UF : cell
}.

(** The registry frame after the column names are upper-cased and
    trimmed and every text cell has gone through the mojibake repair. *)
Definition limpar_cadastro (df : DataFrame) : DataFrame :=
  mkDF (map (fun c => Text.upper (Text.strip c)) (columns df))
       (map (map _fix_mojibake_text) (rows df)).

(** The five columns handed to the merge, or [None] when selecting them
    raises (no column at all, or one of CNPJ, MODALIDADE, UF absent).
    The name column is looked for among the columns of the frame, to
    which 'RegistroANS' has just been added. *)
Definition preparar_cadastro (df_raw : DataFrame) : option (list Cadastro) :=
  let df := limpar_cadastro df_raw in
  let registro_col :=
    match find_registro (columns df) with
    | Some c => Some c
    | None => hd_error (columns df)
    end in
  match registro_col with
  | None => None
  | Some rc =>
      let razao_col := find_razao (columns df ++ ["RegistroANS"]) in
      if Text.mem "CNPJ" (columns df) && Text.mem "MODALIDADE" (columns df)
         && Text.mem "UF" (columns df)
      then Some (map (fun r =>
             mkCadastro
               (only_digits (Processar.astype_str (cell_at df rc r)))
               (cell_at df "CNPJ" r)
               (match razao_col with
                | Some c =>
                    if String.eqb c "RegistroANS"
                    then Some (only_digits (Processar.astype_str (cell_at df rc r)))
                    else cell_at df c r
                | None => Some ""
                end)
               (cell_at df "MODALIDADE" r)
               (cell_at df "UF" r)) (rows df))
      else None
  end.

(** [df_despesas['RegistroANS'].astype(str).str.replace(r'\D', '', regex=True)] *)
Definition chave (r : Despesa) : string := only_digits (str_value (RegistroANS r)).

(** [pd.merge(left, right, on='RegistroANS', how='left')] for one left row. *)
Definition merge_row (cad : list Cadastro) (r : Despesa) : list Enriquecida :=
  match filter (fun c => String.eqb (chave r) (c_RegistroANS c)) cad with
  | [] => [mkEnriquecida None None (Trimestre r) (Ano r) (ValorDespesas r) (chave r) None None]
  | ms => map (fun c => mkEnriquecida (c_CNPJ c) (c_RazaoSocial c) (Trimestre r) (Ano r)
                          (ValorDespesas r) (chave r) (c_MODALIDADE c) (c_UF c)) ms
  end.

Definition executar_enriquecimento_total (df_despesas : list Despesa)
           (cadastro : DataFrame) : option (list Enriquecida) :=
  match preparar_cadastro cadastro with
  | None => None
  | Some cad => Some (flat_map (merge_row cad) df_despesas)
  end.

End WithPandas.
End Enriquecer.

(* ===================================================================== *)
(** * 05_agregar_despesas.py                                               *)
(* ===================================================================== *)

Module Agregar.

(** A cell of a grouping column: a number, text, or null.  A number is
    a year or a quarter, an integer also when pandas holds it as the
    float 2025.0.  The constructors are listed in the order in which a
    sorted group-by places them; with [dropna=False] the null group comes
    last. *)
Inductive chave : Type :=
| KNum (z : Z)
| KStr (s : string)
| KNaN.

Definition cmp_chave (a b : chave) : comparison :=
  match a, b with
  | KNum x, KNum y => Z.compare x y
  | KNum _, _ => Lt
  | KStr _, KNum _ => Gt
  | KStr x, KStr y => String.compare x y
  | KStr _, KNaN => Lt
  | KNaN, KNaN => Eq
  | KNaN, _ => Gt
  end.

Definition isna (a : chave) : bool :=
  match a with KNaN => true | _ => false end.

(** Lexicographic comparison of pairs, the order of a multi-column sort. *)
Definition cmp_pair {A B : Type} (ca : A -> A -> comparison) (cb : B -> B -> comparison)
           (x y : A * B) : comparison :=
  match ca (fst x) (fst y) with
  | Eq => cb (snd x) (snd y)
  | c => c
  end.

(** (RazaoSocial, UF) and ((RazaoSocial, UF), (Ano, Trimestre)). *)
Definition Key2 : Type := (chave * chave)%type.
Definition Key4 : Type := (Key2 * Key2)%type.

Definition cmp2 : Key2 -> Key2 -> comparison := cmp_pair cmp_chave cmp_chave.
Definition cmp4 : Key4 -> Key4 -> comparison := cmp_pair cmp2 cmp2.

Definition isna2 (k : Key2) : bool := isna (fst k) || isna (snd k).
Definition isna4 (k : Key4) : bool := isna2 (fst k) || isna2 (snd k).

(** ** Group-by *)

Section GroupBy.
Context {K V : Type}.
Variable cmp : K -> K -> comparison.
Variable na : K -> bool.
Variable op : V -> V -> V.

(** Add one row to the groups seen so far, kept ordered by key. *)
Fixpoint upsert (k : K) (v : V) (acc : list (K * V)) : list (K * V) :=
  match acc with
  | [] => [(k, v)]
  | (k', v') :: rest =>
      match cmp k k' with
      | Lt => (k, v) :: acc
      | Eq => (k', op v' v) :: rest
      | Gt => (k', v') :: upsert k v rest
      end
  end.

(** [df.groupby(keys, dropna=dropna)[col].agg(op).reset_index()]: one
    row per key, keys ascending, each value combined in row order. *)
Definition groupby (dropna : bool) (l : list (K * V)) : list (K * V) :=
  fold_left (fun acc kv => upsert (fst kv) (snd kv) acc)
            (if dropna then filter (fun kv => negb (na (fst kv))) l else l) [].

Fixpoint lookup (k : K) (l : list (K * V)) : option V :=
  match l with
  | [] => None
  | (k', v) :: l' =>
      match cmp k k' with
      | Eq => Some v
      | _ => lookup k l'
      end
  end.
End GroupBy.

(** ** Rows and chunks *)

(** A row of a chunk as the reader hands it to the script, every cell
    typed. *)
Record Linha : Type := mkLinha {
  RazaoSocial : chave;
  UF : chave;
  Ano : chave;
  Trimestre : chave;
  ValorDespesas : value
}.

(** A data line of the input file before it is typed: the text of its
    five cells, [None] for a cell that is empty or holds one of the
    strings the reader takes for a missing value. *)
Record Bruta : Type := mkBruta {
  b_RazaoSocial : cell;
  b_UF : cell;
  b_Ano : cell;
  b_Trimestre : cell;
  b_ValorDespesas : cell
}.

(** The input file, malformed lines already skipped: its header and
    its data lines. *)
Record Dataset : Type := mkDataset {
  colunas : list string;
  linhas : list Bruta
}.

Fixpoint take_chunks {A : Type} (fuel n : nat) (l : list A) : list (list A) :=
  match fuel with
  | O => []
  | S fuel' =>
      match l with
      | [] => []
      | _ => firstn n l :: take_chunks fuel' n (skipn n l)
      end
  end.

(** The chunks a reader opened with [chunksize=n] yields: consecutive
    blocks of [n] rows, and a single empty chunk for a file that has a
    header and no row. *)
Definition read_chunks {A : Type} (n : nat) (l : list A) : list (list A) :=
  match l with
  | [] => [[]]
  | _ => take_chunks (List.length l) n l
  end.

Inductive desvio : Type :=
| DesvioNaN
| DesvioRaiz (variancia : Q).   (* the square root of the sample variance *)

Record AggRow : Type := mkAggRow {
  a_RazaoSocial : chave;
  a_UF : chave;
  TotalDespesas : Q;
  MediaPorTrimestre : Q;
  DesvioPadraoPorTrimestre : desvio;
  NumTrimestres : nat
}.

Definition soma (l : list Q) : Q := fold_left Qplus l 0.

Definition media (l : list Q) : Q := soma l / inject_Z (Z.of_nat (List.length l)).

(** Sample standard deviation ([ddof=1]): NaN below two observations. *)
Definition desvio_padrao (l : list Q) : desvio :=
  match l with
  | [] | [_] => DesvioNaN
  | _ =>
      let m := media l in
      DesvioRaiz (soma (map (fun x => (x - m) * (x - m)) l)
                  / inject_Z (Z.of_nat (List.length l - 1)))
  end.

Definition agg_row (g : Key2 * list Q) : AggRow :=
  mkAggRow (fst (fst g)) (snd (fst g)) (soma (snd g)) (media (snd g))
           (desvio_padrao (snd g)) (List.length (snd g)).

(** [stats[by]] for the numeric columns of the result table. *)
Definition campo (by_ : string) (r : AggRow) : option Q :=
  if String.eqb by_ "TotalDespesas" then Some (TotalDespesas r)
  else if String.eqb by_ "MediaPorTrimestre" then Some (MediaPorTrimestre r)
  else if String.eqb by_ "NumTrimestres" then Some (inject_Z (Z.of_nat (NumTrimestres r)))
  else None.

Section WithPandas.
Context {pd : Pandas}.

(** [DataFrame.sort_values(by, ascending=...)], with the column and the
    direction the caller passes.  The script passes no [kind], so pandas
    uses its default algorithm, which it documents as not stable; the
    method is a parameter here. *)
Variable sort_values : string -> bool -> list AggRow -> list AggRow.

(** [pd.read_csv(INPUT, sep=sep, chunksize=chunksize, ...)] is called
    without [dtype]: pandas infers the type of every column of a chunk
    from the cells of that chunk alone, so the same cell can be typed
    differently in chunks of different content.  [tipar chunk r] is the
    line [r] as it is typed when it is read as part of [chunk]; the
    inference is pandas' and is a parameter here. *)
Variable tipar : list Bruta -> Bruta -> Linha.

(** One chunk as the loop receives it. *)
Definition ler_chunk (chunk : list Bruta) : list Linha := map (tipar chunk) chunk.

(** [if c not in chunk.columns: chunk[c] = None] for the five columns. *)
Definition garantir_colunas (cols : list string) (r : Linha) : Linha :=
  mkLinha (if Text.mem "RazaoSocial" cols then RazaoSocial r else KNaN)
          (if Text.mem "UF" cols then UF r else KNaN)
          (if Text.mem "Ano" cols then Ano r else KNaN)
          (if Text.mem "Trimestre" cols then Trimestre r else KNaN)
          (if Text.mem "ValorDespesas" cols then ValorDespesas r else NaN).

(** [pd.to_numeric(..., errors='coerce').fillna(0)] on one cell. *)
Definition valor (r : Linha) : Q :=
  match to_numeric_value (ValorDespesas r) with
  | Some q => q
  | None => 0
  end.

Definition key2 (r : Linha) : Key2 := (RazaoSocial r, UF r).
Definition key4 (r : Linha) : Key4 := (key2 r, (Ano r, Trimestre r)).

Definition preparar (cols : list string) (r : Linha) : Key4 * Q :=
  let r' := garantir_colunas cols r in (key4 r', valor r').

(** The body of the loop over chunks: the per-quarter sums of one chunk. *)
Definition parcial (cols : list string) (chunk : list Linha) : list (Key4 * Q) :=
  groupby cmp4 isna4 Qplus false (map (preparar cols) chunk).

(** [pd.concat(quarter_parts)] grouped and summed again. *)
Definition reagregar (quarter_parts : list (list (Key4 * Q))) : list (Key4 * Q) :=
  groupby cmp4 isna4 Qplus false (List.concat quarter_parts).

(** The group-by on (RazaoSocial, UF) with sum, mean, std and count. *)
Definition estatisticas (quarters : list (Key4 * Q)) : list AggRow :=
  map agg_row
      (groupby cmp2 isna2 (@app Q) false
               (map (fun kv => (fst (fst kv), [snd kv])) quarters)).

(** The function from the chunks on. *)
Definition agregar_chunks (cols : list string) (chunks : list (list Linha))
  : option (list AggRow) :=
  let quarter_parts := map (parcial cols) chunks in
  match quarter_parts with
  | [] => None
  | _ => Some (sort_values "TotalDespesas" false (estatisticas (reagregar quarter_parts)))
  end.

(** [None] when no output is written: the input file is missing, or the
    reader rejects the chunk size. *)
Definition executar_agregacao (chunksize : nat) (input : option Dataset)
  : option (list AggRow) :=
  match input with
  | None => None
  | Some ds =>
      if (chunksize <? 1)%nat then None
      else agregar_chunks (colunas ds) (map ler_chunk (read_chunks chunksize (linhas ds)))
  end.

(** ** The aggregation as the specification words it *)

(** The sum of the expense values of the rows of one group. *)
Definition soma_do_grupo (cols : list string) (k : Key4) (rows : list Linha) : Q :=
  soma (map snd (filter (fun kv => match cmp4 k (fst kv) with Eq => true | _ => false end)
                        (map (preparar cols) rows))).

(** Whole-dataset aggregation: the file read at once and one group-by
    over all its rows. *)
Definition agregacao_ingenua (ds : Dataset) : list AggRow :=
  sort_values "TotalDespesas" false
              (estatisticas (parcial (colunas ds) (ler_chunk (linhas ds)))).

End WithPandas.
End Agregar.

(* ===================================================================== *)
(** * 01_download_ans.py                                                   *)
(* ===================================================================== *)

Module Download.

Definition BASE_URL : string :=
  "https://dadosabertos.ans.gov.br/FTP/PDA/demonstracoes_contabeis/".

(** What the streaming GET of [baixar_arquivo] can do: raise before
    the destination is opened (connection error, HTTP error status);
    raise while the body is being written, leaving what was received;
    or deliver the whole body. *)
Inductive Resposta : Type :=
| Falha
| Interrompida (parcial : string)
| Completa (conteudo : string).

(** The server as the script sees it.  [listar_links_v2 url] is the
    list the function of that name returns: the [href]s of the page
    that do not start with "?", joined to [url], in page order, and
    the empty list when the request fails. *)
Record Rede : Type := mkRede {
  listar_links_v2 : string -> list string;
  get : string -> Resposta
}.

(** [data/raw]: file names and contents. *)
Definition Raw : Type := list (string * string).

Fixpoint lstrip_slash (l : list ascii) : list ascii :=
  match l with
  | c :: l' => if Ascii.eqb c "/" then lstrip_slash l' else l
  | [] => []
  end.

(** [l.rstrip("/")] *)
Definition rstrip_slash (l : list ascii) : list ascii :=
  rev (lstrip_slash (rev l)).

(** [l.rstrip("/").split("/")[-1]] *)
Definition seg (l : string) : list ascii :=
  let s := rstrip_slash (Text.chars l) in PathName.after_last "/" s s.

(** [seg.isdigit() and len(seg) == 4], on ASCII digits. *)
Definition is_year (s : list ascii) : bool :=
  forallb Text.is_digit s && (List.length s =? 4)%nat.

(** The list [years] built by the first loop of [main]. *)
Definition years (top_links : list string) : list Z :=
  map Text.int_of_digits (filter is_year (map seg top_links)).

(** [max(years)], for a non-empty list. *)
Definition max_year (y : Z) (ys : list Z) : Z := fold_left Z.max ys y.

(** [urljoin(BASE_URL, f"{max_year}/")]: the base ends with a slash, so
    the reference is appended to it. *)
Definition url_year (y : Z) : string :=
  (BASE_URL ++ Text.str_of_int y ++ "/")%string.

(** [l.split('/')[-1]] *)
Definition nome (l : string) : string := PathName.name l.

(** [".zip" in nome.lower()] *)
Definition is_zip (l : string) : bool := Text.contains ".zip" (Text.lower (nome l)).

(** [sorted(encontrados, reverse=True)]: insertion into a list in
    descending order, equal strings being identical. *)
Fixpoint insert_desc (x : string) (l : list string) : list string :=
  match l with
  | [] => [x]
  | y :: l' => if String.leb y x then x :: l else y :: insert_desc x l'
  end.

Definition sorted_desc (l : list string) : list string := fold_right insert_desc [] l.

(** [arquivos_finais = sorted(encontrados, reverse=True)[:3]] *)
Definition arquivos_finais (links : list string) : list string :=
  firstn 3 (sorted_desc (filter is_zip links)).

Definition baixar_arquivo (net : Rede) (url destino : string) (raw : Raw) : Raw :=
  match assoc destino raw with
  | Some _ => raw
  | None =>
      match get net url with
      | Falha => raw
      | Interrompida parcial => (destino, parcial) :: raw
      | Completa conteudo => (destino, conteudo) :: raw
      end
  end.

(** The links [main] downloads, when a year directory is found. *)
Definition selecionados (net : Rede) : option (list string) :=
  match years (listar_links_v2 net BASE_URL) with
  | [] => None
  | y :: ys => Some (arquivos_finais (listar_links_v2 net (url_year (max_year y ys))))
  end.

Definition main (net : Rede) (raw : Raw) : Raw :=
  match selecionados net with
  | None => raw
  | Some finais =>
      fold_left (fun raw url => baixar_arquivo net url (nome url) raw) finais raw
  end.

End Download.

(* ===================================================================== *)
(** * scripts/run_1_to_4.py                                                *)
(* ===================================================================== *)

Module Pipeline.
Section WithPandas.
Context {pd : Pandas}.

(** [DataFrame.sort_values] and the type inference of [pd.read_csv] in
    script 05, parameters as there. *)
Variable sort_values : string -> bool -> list Agregar.AggRow -> list Agregar.AggRow.
Variable tipar : list Agregar.Bruta -> Agregar.Bruta -> Agregar.Linha.

(** What the scripts take from outside the data directory and from the
    libraries: the server of script 01; [zipfile] extraction; the
    optional mapping file of script 03 and the registry script 04
    downloads ([None] when the request or the parse raises);
    [pd.read_csv] on the consolidated and on the validated file
    ([None] when it raises) and the [to_csv] of scripts 03, 04 and 05;
    and the archive written at the end. *)
Record Mundo : Type := mkMundo {
  rede : Download.Rede;
  extractall : string -> string -> option (list File);
  mapeamento : Validar.MappingFile;
  cadastro : option DataFrame;
  ler_consolidado : string -> option (list Despesa);
  csv_validados : list Validar.Saida -> string;
  csv_enriquecidos : list Enriquecer.Enriquecida -> string;
  ler_validados : string -> option Agregar.Dataset;
  csv_agregadas : list Agregar.AggRow -> string;
  zipar : string -> string
}.

(** The files the scripts read and write: [data/raw],
    [data/output/consolidado_despesas.csv],
    [data/processed/dados_validados.csv],
    [data/output/despesas_agregadas.csv] and the final archive. *)
Record Disco : Type := mkDisco {
  raw : Download.Raw;
  consolidado : option string;
  validados : option string;
  agregadas : option string;
  pacote : option string
}.

(** How [main] ends: after the last script, or with the exception of a
    script, raised again. *)
Inductive Fim : Type :=
| Terminou (d : Disco)
| Levantou (d : Disco).

(** [RAW_DIR.glob("*.zip")], names compared with their case. *)
Definition glob_zip (f : string * string) : bool :=
  let n := Text.chars (fst f) in
  Text.prefixb (rev (Text.chars ".zip")) (rev n).

Definition script_01 (w : Mundo) (d : Disco) : Disco :=
  mkDisco (Download.main (rede w) (raw d)) (consolidado d) (validados d)
          (agregadas d) (pacote d).

Definition script_02 (w : Mundo) (d : Disco) : Disco :=
  let zips := map (fun f => Processar.mkZip (fst f) (extractall w (fst f) (snd f)))
                  (filter glob_zip (raw d)) in
  let fs := Processar.processar_arquivos (Processar.mkFS zips (consolidado d)) in
  mkDisco (raw d) (Processar.csv_final fs) (validados d) (agregadas d) (pacote d).

(** [executar_validacao]: returns without writing when the
    consolidated file is missing or cannot be read. *)
Definition script_03 (w : Mundo) (d : Disco) : Disco :=
  match consolidado d with
  | None => d
  | Some txt =>
      match ler_consolidado w txt with
      | None => d
      | Some df =>
          let res := Validar.executar_validacao (mapeamento w) df in
          mkDisco (raw d) (consolidado d)
                  (Some (csv_validados w (Validar.output_df res)))
                  (agregadas d) (pacote d)
      end
  end.

(** [executar_enriquecimento_total]: nothing is caught, and the file is
    written by the last statement; [None] is an exception. *)
Definition script_04 (w : Mundo) (d : Disco) : option Disco :=
  match consolidado d with
  | None => None
  | Some txt =>
      match ler_consolidado w txt, cadastro w with
      | Some df, Some cad =>
          match Enriquecer.executar_enriquecimento_total df cad with
          | Some out =>
              Some (mkDisco (raw d) (consolidado d)
                            (Some (csv_enriquecidos w out))
                            (agregadas d) (pacote d))
          | None => None
          end
      | _, _ => None
      end
  end.

(** The default [chunksize=200_000]. *)
Definition chunksize_padrao : nat := 200 * 1000.

(** [executar_agregacao()] with its default chunk size; every
    exception is caught. *)
Definition script_05 (w : Mundo) (d : Disco) : Disco :=
  match validados d with
  | None => d
  | Some txt =>
      match Agregar.executar_agregacao sort_values tipar chunksize_padrao (ler_validados w txt) with
      | None => d
      | Some stats =>
          mkDisco (raw d) (consolidado d) (validados d)
                  (Some (csv_agregadas w stats)) (pacote d)
      end
  end.

(** The archive made after the loop, when the aggregated file exists. *)
Definition empacotar (w : Mundo) (d : Disco) : Disco :=
  match agregadas d with
  | Some out => mkDisco (raw d) (consolidado d) (validados d) (agregadas d)
                        (Some (zipar w out))
  | None => d
  end.

Definition main (w : Mundo) (d : Disco) : Fim :=
  let d3 := script_03 w (script_02 w (script_01 w d)) in
  match script_04 w d3 with
  | None => Levantou d3
  | Some d4 => Terminou (empacotar w (script_05 w d4))
  end.

End WithPandas.
End Pipeline.

(* ===================================================================== *)
(** * A plain instance of the pandas entry points                          *)
(* ===================================================================== *)

(** What the pandas functions do on the simplest inputs: delimited text
    without quoting whose rows are no longer than the header, decimal
    literals made of an optional sign, digits and at most one point,
    columns of a chunk that hold integer literals or other text, and a
    sort on one numeric column.  It makes the model runnable on examples;
    the general theorems hold for any instance of [Pandas], any type
    inference and any sort that keeps the promise of pandas. *)
Module Plain.

Definition lf : ascii := ascii_of_nat 10.
Definition cr : ascii := ascii_of_nat 13.
Definition nl : string := String lf "".

Fixpoint split_on (sep : ascii) (l cur : list ascii) : list (list ascii) :=
  match l with
  | [] => [rev cur]
  | c :: l' =>
      if Ascii.eqb c sep then rev cur :: split_on sep l' []
      else split_on sep l' (c :: cur)
  end.

Definition drop_cr (l : list ascii) : list ascii :=
  match rev l with
  | c :: r => if Ascii.eqb c cr then rev r else l
  | [] => l
  end.

Definition is_empty (l : list ascii) : bool :=
  match l with [] => true | _ => false end.

(** Non-blank lines of a text. *)
Definition lines (t : string) : list (list ascii) :=
  filter (fun l => negb (is_empty l)) (map drop_cr (split_on lf (Text.chars t) [])).

(** The strings [read_csv] turns into NaN by default. *)
Definition na_values : list string :=
  [""; "#N/A"; "#N/A N/A"; "#NA"; "-1.#IND"; "-1.#QNAN"; "-NaN"; "-nan"; "1.#IND";
   "1.#QNAN"; "<NA>"; "N/A"; "NA"; "NULL"; "NaN"; "None"; "n/a"; "nan"; "null"].

Definition field (l : list ascii) : cell :=
  let s := Text.text l in
  if Text.mem s na_values then None else Some s.

Definition pad (n : nat) (r : list cell) : list cell :=
  r ++ repeat None (n - List.length r).

Definition parse (sep : ascii) (t : string) : option DataFrame :=
  match lines t with
  | [] => None
  | h :: data =>
      let cols := map Text.text (split_on sep h []) in
      let rs := map (fun l => map field (split_on sep l [])) data in
      if forallb (fun r => (List.length r <=? List.length cols)%nat) rs
      then Some (mkDF cols (map (pad (List.length cols)) rs))
      else None
  end.

Definition read_csv_plain (f : File) (sep enc : string) : option DataFrame :=
  match decode f enc, Text.chars sep with
  | Some t, [c] => parse c t
  | _, _ => None
  end.

Definition all_digits (l : list ascii) : bool := forallb Text.is_digit l.

Definition decimal (neg : bool) (ip fp : list ascii) : option Q :=
  if all_digits ip && all_digits fp && negb (is_empty ip && is_empty fp) then
    let scale := (10 ^ Z.of_nat (List.length fp))%Z in
    let n := (Text.int_of_digits ip * scale + Text.int_of_digits fp)%Z in
    Some (Qmake (if neg then - n else n) (Z.to_pos scale))
  else None.

Definition unsigned (neg : bool) (l : list ascii) : option Q :=
  match split_on "." l [] with
  | [ip] => decimal neg ip []
  | [ip; fp] => decimal neg ip fp
  | _ => None
  end.

Definition to_numeric_plain (s : string) : option Q :=
  match Text.chars s with
  | c :: l =>
      if Ascii.eqb c "-" then unsigned true l
      else if Ascii.eqb c "+" then unsigned false l
      else unsigned false (c :: l)
  | [] => None
  end.

Definition str_float_plain (q : Q) : string :=
  (Text.str_of_int (Qnum q) ++ "/" ++ Text.str_of_int (Zpos (Qden q)))%string.

Definition bom : string :=
  String (ascii_of_nat 239) (String (ascii_of_nat 187) (String (ascii_of_nat 191) "")).

Definition csv_line (r : cell * string * string * Q) : string :=
  let '(reg, tri, ano, v) := r in
  ((match reg with Some x => x | None => "" end) ++ "," ++ tri ++ "," ++ ano ++ ","
     ++ str_float_plain v ++ nl)%string.

Definition to_csv_plain (header : bool) (l : list (cell * string * string * Q)) : string :=
  (bom ++ (if header then "RegistroANS,Trimestre,Ano,ValorDespesas" ++ nl else "")
       ++ String.concat "" (map csv_line l))%string.

#[export] Instance plain : Pandas := {
  read_excel := fun _ => None;
  read_csv := read_csv_plain;
  to_numeric := to_numeric_plain;
  str_float := str_float_plain;
  to_csv := to_csv_plain
}.

(** A text file that every codec decodes to the same text. *)
Definition ascii_file (path text : string) : File :=
  mkFile path [("utf-8", text); ("latin-1", text); ("cp1252", text)].

(** ** Type inference of a chunk *)

(** An integer literal: an optional sign and at least one digit. *)
Definition int_literal (s : string) : option Z :=
  let digits (neg : bool) (l : list ascii) :=
    if all_digits l && negb (is_empty l)
    then Some (if neg then (- Text.int_of_digits l)%Z else Text.int_of_digits l)
    else None in
  match Text.chars s with
  | c :: l =>
      if Ascii.eqb c "-" then digits true l
      else if Ascii.eqb c "+" then digits false l
      else digits false (c :: l)
  | [] => None
  end.

Definition is_some {A : Type} (o : option A) : bool :=
  match o with Some _ => true | None => false end.

(** A column is numeric in a chunk when every cell of it that is not
    missing parses; one cell that does not turns the whole column of
    that chunk into text. *)
Definition coluna {A : Type} (parse_cell : string -> option A) (cs : list cell) : bool :=
  forallb (fun c => match c with Some s => is_some (parse_cell s) | None => true end) cs.

Definition tipar_chave (inteira : bool) (c : cell) : Agregar.chave :=
  match c with
  | None => Agregar.KNaN
  | Some s =>
      if inteira
      then match int_literal s with Some z => Agregar.KNum z | None => Agregar.KStr s end
      else Agregar.KStr s
  end.

Definition tipar_valor (inteira numerica : bool) (c : cell) : value :=
  match c with
  | None => NaN
  | Some s =>
      match inteira, int_literal s, numerica, to_numeric_plain s with
      | true, Some z, _, _ => Int z
      | false, _, true, Some q => Flt q
      | _, _, _, _ => Txt s
      end
  end.

(** The line [r] typed as part of [chunk]. *)
Definition tipar (chunk : list Agregar.Bruta) (r : Agregar.Bruta) : Agregar.Linha :=
  let inteira (f : Agregar.Bruta -> cell) := coluna int_literal (map f chunk) in
  Agregar.mkLinha
    (tipar_chave (inteira Agregar.b_RazaoSocial) (Agregar.b_RazaoSocial r))
    (tipar_chave (inteira Agregar.b_UF) (Agregar.b_UF r))
    (tipar_chave (inteira Agregar.b_Ano) (Agregar.b_Ano r))
    (tipar_chave (inteira Agregar.b_Trimestre) (Agregar.b_Trimestre r))
    (tipar_valor (inteira Agregar.b_ValorDespesas)
                 (coluna to_numeric_plain (map Agregar.b_ValorDespesas chunk))
                 (Agregar.b_ValorDespesas r)).

(** ** Sorting the result table *)

(** [x] may stand before [y]. *)
Definition antes_de (ascending : bool) (x y : Q) : bool :=
  if ascending then Qle_bool x y else Qle_bool y x.

Fixpoint inserir (k : Agregar.AggRow -> Q) (ascending : bool) (x : Agregar.AggRow)
         (l : list Agregar.AggRow) : list Agregar.AggRow :=
  match l with
  | [] => [x]
  | y :: l' =>
      if antes_de ascending (k x) (k y) then x :: l else y :: inserir k ascending x l'
  end.

(** A stable sort on one numeric column: rows of equal value keep the
    order they had.  A column that is not numeric leaves the table as it
    is. *)
Definition ordenar (by_ : string) (ascending : bool) (l : list Agregar.AggRow)
  : list Agregar.AggRow :=
  match l with
  | [] => []
  | r :: _ =>
      if is_some (Agregar.campo by_ r)
      then fold_right
             (inserir (fun x => match Agregar.campo by_ x with Some q => q | None => 0 end)
                      ascending)
             [] l
      else l
  end.

End Plain.

(* ===================================================================== *)
(** * Definitions used to state the properties                             *)
(* ===================================================================== *)

Module OrderSpec.

(** A comparison function that decides equality and is a strict total
    order. *)
Definition cmp_laws {K : Type} (cmp : K -> K -> comparison) : Prop :=
  (forall a b, cmp a b = Eq <-> a = b) /\
  (forall a b, cmp a b = CompOpp (cmp b a)) /\
  (forall a b c, cmp a b = Lt -> cmp b c = Lt -> cmp a c = Lt).

End OrderSpec.

Module ReaderSpec.
Section WithPandas.
Context {pd : Pandas}.
Import Processar.

(** The (encoding, delimiter) pairs in the order the loops visit them. *)
Definition pairs : list (string * string) := list_prod encodings seps.

(** A pair is accepted when the parse succeeds with more than one column. *)
Definition accepted (path : File) (p : string * string) : bool :=
  match read_csv path (snd p) (fst p) with
  | Some df => (1 <? shape1 df)%nat
  | None => false
  end.

Definition parse_of (path : File) (p : string * string) : option DataFrame :=
  read_csv path (snd p) (fst p).

End WithPandas.

(** The file of the specification's example: the bytes of "A;B\n1;2\n". *)
Definition exemplo : File :=
  Plain.ascii_file "extraido/dados.csv" ("A;B" ++ Plain.nl ++ "1;2" ++ Plain.nl)%string.

End ReaderSpec.

Module ValidarSpec.
Import Validar.

(** Exactly 14 digits once the separators are removed. *)
Definition quatorze_digitos (s : string) : bool :=
  let n := Text.chars (normalizar_cnpj s) in
  (List.length n =? 14)%nat && forallb Text.is_digit n.

(** Three consolidated rows with values -5, 0 and 0.01, and a mapping
    that gives the third one the identifier "123" and no name. *)
Definition tres_linhas : list Despesa :=
  [mkDespesa (Int 1) (Int 1) (Int 2025) (Int (-5));
   mkDespesa (Int 2) (Int 1) (Int 2025) (Int 0);
   mkDespesa (Int 3) (Int 1) (Int 2025) (Flt (1 # 100))].

Definition mapa_123 : MappingFile :=
  Mapeado [mkMapeamento (Some "3") (Some "123") None].

End ValidarSpec.

Module EnriquecerSpec.
Section WithPandas.
Context {pd : Pandas}.
Import Enriquecer.

(** The canonical part of a record, before and after enrichment. *)
Definition canonico (r : Despesa) : string * value * value * value :=
  (chave r, Trimestre r, Ano r, ValorDespesas r).

Definition canonico_e (e : Enriquecida) : string * value * value * value :=
  (e_RegistroANS e, e_Trimestre e, e_Ano e, e_ValorDespesas e).

(** The output row of a record that matches nothing in the registry. *)
Definition sem_cadastro (r : Despesa) : Enriquecida :=
  mkEnriquecida None None (Trimestre r) (Ano r) (ValorDespesas r) (chave r) None None.

(** The registry has the three columns the merge selects by name. *)
Definition colunas_presentes (cadastro : DataFrame) : bool :=
  let cols := columns (limpar_cadastro cadastro) in
  Text.mem "CNPJ" cols && Text.mem "MODALIDADE" cols && Text.mem "UF" cols.

(** ** The left join, in the words of the specification *)

(** A normalized registry number: the decimal digits of the text, in
    order, and nothing else. *)
Fixpoint digitos (l : list ascii) : list ascii :=
  match l with
  | [] => []
  | c :: l' =>
      if (48 <=? nat_of_ascii c)%nat && (nat_of_ascii c <=? 57)%nat
      then c :: digitos l'
      else digitos l'
  end.

Definition normalizado (s : string) : string :=
  string_of_list_ascii (digitos (list_ascii_of_string s)).

(** The identifier column of the registry: the one the detection loop
    settles on, or else the first column. *)
Definition coluna_registro (reg : DataFrame) : option string :=
  match find_registro (columns reg) with
  | Some c => Some c
  | None => hd_error (columns reg)
  end.

(** The normalized RegistryId of a canonical record and of a registry
    row. *)
Definition id_despesa (r : Despesa) : string := normalizado (str_value (RegistroANS r)).

Definition id_cadastro (reg : DataFrame) (rc : string) (row : list cell) : string :=
  normalizado (Processar.astype_str (cell_at reg rc row)).

(** The entity name of a registry row: the cell of the first column whose
    name has RAZAO or NOME in it, the identifier itself when that column
    is the one the script has just added, empty text without one. *)
Definition nome_cadastro (reg : DataFrame) (rc : string) (row : list cell) : cell :=
  match find_razao (columns reg ++ ["RegistroANS"]) with
  | Some c => if String.eqb c "RegistroANS" then Some (id_cadastro reg rc row)
              else cell_at reg c row
  | None => Some ""
  end.

(** The fields of a canonical record that the join carries over. *)
Definition registro (r : Despesa) : string * value * value * value :=
  (id_despesa r, Trimestre r, Ano r, ValorDespesas r).

(** A record joined to a registry row, and a record kept without one. *)
Definition juntar (reg : DataFrame) (rc : string) (r : Despesa) (row : list cell)
  : Enriquecida :=
  mkEnriquecida (cell_at reg "CNPJ" row) (nome_cadastro reg rc row)
                (Trimestre r) (Ano r) (ValorDespesas r) (id_despesa r)
                (cell_at reg "MODALIDADE" row) (cell_at reg "UF" row).

Definition sem_enriquecimento (r : Despesa) : Enriquecida :=
  mkEnriquecida None None (Trimestre r) (Ano r) (ValorDespesas r) (id_despesa r) None None.

Definition casa (reg : DataFrame) (rc : string) (r : Despesa) (row : list cell) : bool :=
  String.eqb (id_cadastro reg rc row) (id_despesa r).

(** The left join of the records with the registry rows on the
    normalized RegistryId: for every record in turn, one row for each
    registry row with the same identifier, in registry order, or the
    record alone when there is none. *)
Definition juncao_esquerda (reg : DataFrame) (rc : string) (df : list Despesa)
  : list Enriquecida :=
  flat_map (fun r =>
              match filter (casa reg rc r) (rows reg) with
              | [] => [sem_enriquecimento r]
              | ms => map (juntar reg rc r) ms
              end) df.

(** A registry row as the merge receives it. *)
Definition linha_cadastro (reg : DataFrame) (rc : string) (row : list cell) : Cadastro :=
  mkCadastro (id_cadastro reg rc row) (cell_at reg "CNPJ" row)
             (nome_cadastro reg rc row)
             (cell_at reg "MODALIDADE" row) (cell_at reg "UF" row).

(** The claim without a condition on the registry: the enricher writes
    an output and every canonical record is in it. *)
Definition todo_registro_aparece (df : list Despesa) (cadastro : DataFrame) : Prop :=
  exists out,
    executar_enriquecimento_total df cadastro = Some out /\
    forall r, In r df -> exists e, In e out /\ canonico_e e = registro r.

End WithPandas.

(** A registry without the column UF. *)
Definition cadastro_sem_uf : DataFrame :=
  mkDF ["REGISTRO_ANS"; "CNPJ"; "RAZAO_SOCIAL"; "MODALIDADE"]
       [[Some "123456"; Some "11222333000181"; Some "OPERADORA A";
         Some "Medicina de Grupo"]].

(** A registry with two rows for one identifier, written with and
    without punctuation. *)
Definition cadastro_duplo : DataFrame :=
  mkDF ["REGISTRO_ANS"; "CNPJ"; "RAZAO_SOCIAL"; "MODALIDADE"; "UF"]
       [[Some "123456"; Some "11222333000181"; Some "OPERADORA A";
         Some "Medicina de Grupo"; Some "SP"];
        [Some "555"; Some "99888777000166"; Some "OPERADORA C";
         Some "Cooperativa"; Some "MG"];
        [Some "12.34-56"; Some "44555666000199"; Some "OPERADORA B";
         Some "Autogestao"; Some "RJ"]].

Definition cadastro_exemplo : DataFrame :=
  mkDF [" Registro_ANS "; "cnpj"; "Razao_Social"; "Modalidade"; "UF"]
       [[Some "123456"; Some "11222333000181"; Some "OPERADORA A";
         Some "Medicina de Grupo"; Some "SP"]].

Definition despesas_exemplo : list Despesa :=
  [mkDespesa (Int 123456) (Int 1) (Int 2025) (Flt (150 # 1));
   mkDespesa (Int 999) (Int 1) (Int 2025) (Flt (7 # 2))].

End EnriquecerSpec.

Module WalkerSpec.
Section WithPandas.
Context {pd : Pandas}.
Import Processar.

(** The rows one extracted file contributes, if any. *)
Definition frame_of (ano trimestre : string) (f : File) : option (list canonical) :=
  if Text.contains "__MACOSX" (relpath f) then None
  else match _try_read_table f with
       | None => None
       | Some df =>
           if negb (_is_expense_table df) then None
           else _normalize_and_extract df ano trimestre
       end.

Definition blocos_zip (z : Zip) : list (list canonical) :=
  let (ano, trimestre) := Periodo.ano_trimestre (zip_name z) in
  match extracted z with
  | None => []
  | Some files => keep_some (map (frame_of ano trimestre) files)
  end.

(** Every frame a run appends, in order. *)
Definition blocos (zs : list Zip) : list (list canonical) := flat_map blocos_zip zs.

(** The consolidated file a run leaves: nothing when no frame was
    appended; otherwise the first frame written with the header and the
    others without. *)
Definition escrever (bs : list (list canonical)) : option string :=
  match bs with
  | [] => None
  | b :: bs' => Some (to_csv true b ++ String.concat "" (map (to_csv false) bs'))%string
  end.

End WithPandas.

Definition le_zip (a b : Processar.Zip) : Prop :=
  String.leb (Processar.zip_name a) (Processar.zip_name b) = true.

Definition zip_a : Processar.Zip :=
  Processar.mkZip "1T2025.zip"
    (Some [Plain.ascii_file "a.csv"
             ("REG_ANS;VL_SALDO_FINAL" ++ Plain.nl ++ "123;10,5" ++ Plain.nl)%string]).

Definition zip_b : Processar.Zip :=
  Processar.mkZip "2T2025.zip"
    (Some [Plain.ascii_file "b.csv"
             ("REG_ANS;VALOR" ++ Plain.nl ++ "456;7" ++ Plain.nl)%string]).

End WalkerSpec.

Module AgregarSpec.
Import Agregar.

Definition eqk {K : Type} (cmp : K -> K -> comparison) (a b : K) : bool :=
  match cmp a b with Eq => true | _ => false end.

(** The values of the rows of one key, in row order. *)
Definition vals {K V : Type} (cmp : K -> K -> comparison) (k : K) (l : list (K * V))
  : list V :=
  map snd (filter (fun kv => eqk cmp k (fst kv)) l).

(** Combining values from left to right, starting from nothing. *)
Definition fold1 {V : Type} (op : V -> V -> V) (o : option V) (vs : list V) : option V :=
  fold_left (fun o v => Some (match o with Some a => op a v | None => v end)) vs o.

Definition option_list {V : Type} (o : option V) : list V :=
  match o with Some v => [v] | None => [] end.

Definition sorted_keys {K V : Type} (cmp : K -> K -> comparison) (l : list (K * V)) : Prop :=
  StronglySorted (fun a b => cmp (fst a) (fst b) = Lt) l.

(** [a] occurs before [b] in [l]. *)
Definition antes {A : Type} (a b : A) (l : list A) : Prop :=
  exists l1 l2 l3, l = l1 ++ a :: l2 ++ b :: l3.

(** Descending by total. *)
Definition desc (a b : AggRow) : Prop := (TotalDespesas b <= TotalDespesas a)%Q.

(** What pandas promises of [sort_values] with its default algorithm, for
    the call the script makes: the result has the rows of the input and
    is ordered. *)
Definition sort_contract (sort : list AggRow -> list AggRow) : Prop :=
  forall l, Permutation l (sort l) /\ StronglySorted desc (sort l).

(** The order [sort_values(by, ascending=...)] asks for on a numeric
    column. *)
Definition ordem (by_ : string) (ascending : bool) (a b : AggRow) : Prop :=
  match campo by_ a, campo by_ b with
  | Some x, Some y => if ascending then (x <= y)%Q else (y <= x)%Q
  | _, _ => True
  end.

(** The same promise for every column and direction. *)
Definition pandas_sort (sv : string -> bool -> list AggRow -> list AggRow) : Prop :=
  forall by_ ascending l,
    Permutation l (sv by_ ascending l) /\
    StronglySorted (ordem by_ ascending) (sv by_ ascending l).

(** The group of an output row. *)
Definition grupo_de (r : AggRow) : Key2 := (a_RazaoSocial r, a_UF r).

(** The per-quarter totals of one (RazaoSocial, UF), in table order. *)
Definition trimestres_de (g : Key2) (quarters : list (Key4 * Q)) : list Q :=
  map snd (filter (fun kv => eqk cmp2 g (fst (fst kv))) quarters).

(** A short view of an output row: name, total, number of quarters. *)
Definition resumo (r : AggRow) : chave * Q * nat :=
  (a_RazaoSocial r, TotalDespesas r, NumTrimestres r).

Section WithPandas.
Context {pd : Pandas}.
Variable tipar : list Bruta -> Bruta -> Linha.

(** The group and the period of a row, once missing columns are filled. *)
Definition grupo (cols : list string) (r : Linha) : Key2 := fst (fst (preparar cols r)).
Definition periodo (cols : list string) (r : Linha) : Key2 := snd (fst (preparar cols r)).

(** The rows of the file as the loop sees them: every line typed in the
    chunk it is read in. *)
Definition tipadas (chunksize : nat) (ds : Dataset) : list Linha :=
  List.concat (map (ler_chunk tipar) (read_chunks chunksize (linhas ds))).

(** The rows of the file read at once. *)
Definition tipadas_inteiro (ds : Dataset) : list Linha := ler_chunk tipar (linhas ds).

(** Every line is typed in its chunk as it is in the whole file. *)
Definition tipos_uniformes (chunksize : nat) (ds : Dataset) : Prop :=
  tipadas chunksize ds = tipadas_inteiro ds.

(** The table handed to [sort_values]. *)
Definition tabela (chunksize : nat) (ds : Dataset) : list AggRow :=
  estatisticas (reagregar (map (parcial (colunas ds))
                               (map (ler_chunk tipar) (read_chunks chunksize (linhas ds))))).

(** The sum of the expense values of the rows of one (RazaoSocial, UF). *)
Definition soma_da_operadora (cols : list string) (g : Key2) (rows : list Linha) : Q :=
  soma (map snd (filter (fun kv => eqk cmp2 g (fst (fst kv))) (map (preparar cols) rows))).

(** Group [ga] comes before group [gb] in the input: [ga] has a row
    before the first row of [gb]. *)
Definition antes_na_entrada (cols : list string) (ga gb : Key2) (rows : list Linha) : Prop :=
  exists l1 r l2,
    rows = l1 ++ r :: l2 /\ grupo cols r = ga /\
    forall x, In x l1 -> grupo cols x <> gb.

(** The ordering claim with ties, on one run: the output is descending
    and two rows with equal totals stand in the order their groups have
    in the input. *)
Definition ordem_com_empates (sv : string -> bool -> list AggRow -> list AggRow)
           (chunksize : nat) (ds : Dataset) : Prop :=
  forall out,
    executar_agregacao sv tipar chunksize (Some ds) = Some out ->
    StronglySorted desc out /\
    forall a b, antes a b out -> (TotalDespesas a == TotalDespesas b)%Q ->
                antes_na_entrada (colunas ds) (grupo_de a) (grupo_de b)
                                 (tipadas chunksize ds).

(** The claim on chunked reading, on one run: the output of the chunked
    run is the output of the aggregation of the whole file. *)
Definition chunks_nao_importam (sv : string -> bool -> list AggRow -> list AggRow)
           (chunksize : nat) (ds : Dataset) : Prop :=
  executar_agregacao sv tipar chunksize (Some ds) = Some (agregacao_ingenua sv tipar ds).

End WithPandas.

Definition todas : list string := ["RazaoSocial"; "UF"; "Ano"; "Trimestre"; "ValorDespesas"].

Definition linha_texto (nome uf ano tri v : string) : Bruta :=
  mkBruta (Some nome) (Some uf) (Some ano) (Some tri) (Some v).

Definition linha (nome uf : string) (ano tri v : Z) : Bruta :=
  linha_texto nome uf (Text.str_of_int ano) (Text.str_of_int tri) (Text.str_of_int v).

(** Three operators with totals 300, 100 and 200. *)
Definition tres_operadoras : Dataset :=
  mkDataset todas [linha "A" "SP" 2025 1 300; linha "B" "RJ" 2025 1 100;
                   linha "C" "MG" 2025 1 200].

(** Two operators with the same total, and the same file with its two
    lines exchanged. *)
Definition empate : Dataset :=
  mkDataset todas [linha "A" "SP" 2025 1 100; linha "B" "RJ" 2025 1 100].

Definition empate_invertido : Dataset :=
  mkDataset todas [linha "B" "RJ" 2025 1 100; linha "A" "SP" 2025 1 100].

(** One group over two quarters, its rows split between chunks of two,
    and one operator with a single quarter. *)
Definition dividido : Dataset :=
  mkDataset todas [linha "A" "SP" 2025 1 10; linha "A" "SP" 2025 1 20;
                   linha "A" "SP" 2025 1 30; linha "A" "SP" 2025 2 40;
                   linha "B" "RJ" 2025 1 5].

(** One operator with a single quarter, written 1 on two lines, and
    between them a line whose quarter is not a number. *)
Definition misto : Dataset :=
  mkDataset todas [linha_texto "A" "SP" "2025" "1" "10";
                   linha_texto "B" "RJ" "2025" "x" "5";
                   linha_texto "A" "SP" "2025" "1" "20"].

(** A file without the UF column and with a blank name. *)
Definition sem_uf : Dataset :=
  mkDataset ["RazaoSocial"; "Ano"; "Trimestre"; "ValorDespesas"]
            [mkBruta None (Some "ignored") (Some "2025") (Some "1") (Some "10");
             mkBruta (Some "A") (Some "ignored") (Some "2025") None (Some "7")].

End AgregarSpec.

Module ReSpec.
Import Re.

(** What it means for a pattern to match the word [w] when [rest]
    follows it, turning the captures [c] into [c']. *)
Inductive matches : regex -> list ascii -> list ascii -> captures -> captures -> Prop :=
| MCls p a rest c : p a = true -> matches (Cls p) [a] rest c c
| MCat r1 r2 w1 w2 rest c c1 c2 :
    matches r1 w1 (w2 ++ rest) c c1 -> matches r2 w2 rest c1 c2 ->
    matches (Cat r1 r2) (w1 ++ w2) rest c c2
| MAltL r1 r2 w rest c c' : matches r1 w rest c c' -> matches (Alt r1 r2) w rest c c'
| MAltR r1 r2 w rest c c' : matches r2 w rest c c' -> matches (Alt r1 r2) w rest c c'
| MTimes0 r rest c : matches (Times 0 r) [] rest c c
| MTimesS r n w1 w2 rest c c1 c2 :
    matches r w1 (w2 ++ rest) c c1 -> matches (Times n r) w2 rest c1 c2 ->
    matches (Times (S n) r) (w1 ++ w2) rest c c2
| MUpto0 r n rest c : matches (Upto n r) [] rest c c
| MUptoS r n w1 w2 rest c c1 c2 :
    matches r w1 (w2 ++ rest) c c1 -> matches (Upto n r) w2 rest c1 c2 ->
    matches (Upto (S n) r) (w1 ++ w2) rest c c2
| MGrp i r w rest c c' : matches r w rest c c' -> matches (Grp i r) w rest c ((i, w) :: c')
| MEos rest c : rest = [] \/ rest = [newline] -> matches Eos [] rest c c.

(** The name is made of ASCII characters, none of them a digit. *)
Definition no_digit (name : string) : bool :=
  forallb (fun c => (Text.code c <? 128)%nat && negb (Text.is_digit c))
          (Text.chars name).

End ReSpec.

Module MapperSpec.
Import Processar.

(** The column a list of candidate names resolves to: the candidates
    are tried in order, and a candidate stands for the last column
    whose trimmed, upper-cased name it is. *)
Fixpoint resolve (cands : list string) (cols : list string) : option string :=
  match cands with
  | [] => None
  | k :: cands' =>
      match find (fun c => String.eqb k (norm_col c)) (rev cols) with
      | Some c => Some c
      | None => resolve cands' cols
      end
  end.

Definition found (o : option Re.captures) : bool :=
  match o with Some _ => true | None => false end.

(** The test the classifier makes on one normalised column name. *)
Definition is_expense_col (n : string) : bool :=
  Text.mem n keywords_cols || found (Re.search pat_val n).

(** Characters a cleaned value can hold. *)
Definition numeric_char (c : ascii) : bool :=
  Text.is_digit c || Ascii.eqb c "." || Ascii.eqb c "-".

Definition one_if (b : bool) : nat := if b then 1%nat else 0%nat.

Definition count_char (a : ascii) (s : string) : nat :=
  List.length (filter (Ascii.eqb a) (Text.chars s)).

Definition tabela_valor : DataFrame :=
  mkDF ["Reg_ANS"; " valor "] [[Some "123"; Some "R$ 10,5"]; [Some "456"; Some "n/d"]].

End MapperSpec.

Module WalkerMore.
Import Processar.

(** The archive opens and extracts without an error. *)
Definition legivel (z : Zip) : bool :=
  match extracted z with Some _ => true | None => false end.

(** An archive that cannot be opened. *)
Definition zip_corrompido : Zip := mkZip "1T2024.zip" None.

End WalkerMore.

Module DownloadSpec.
Import Download.

(** [b] does not come after [a] in descending order. *)
Definition ge_str (a b : string) : Prop := String.leb b a = true.

(** A download that a later run will not attempt or will see fail
    again: the destination exists, or the server refuses the link. *)
Definition settled (net : Rede) (raw : Raw) (url : string) : Prop :=
  assoc (nome url) raw <> None \/ get net url = Falha.

(** The last segment of the link is four ASCII digits. *)
Definition year_of (l : string) : option Z :=
  if is_year (seg l) then Some (Text.int_of_digits (seg l)) else None.

(** A server with the years 2024 and 2025; the newest year has four
    archives and a document, and the transfer of the first quarter
    breaks after two bytes. *)
Definition rede_exemplo : Rede :=
  mkRede
    (fun url =>
       if String.eqb url BASE_URL
       then [(BASE_URL ++ "2024/")%string; (BASE_URL ++ "2025/")%string;
             (BASE_URL ++ "leia-me.txt")%string]
       else if String.eqb url (BASE_URL ++ "2025/")%string
       then [(BASE_URL ++ "2025/1T2025.zip")%string;
             (BASE_URL ++ "2025/2T2025.ZIP")%string;
             (BASE_URL ++ "2025/3T2025.zip")%string;
             (BASE_URL ++ "2025/4T2025.zip")%string;
             (BASE_URL ++ "2025/dicionario.pdf")%string]
       else [])
    (fun url =>
       if String.eqb url (BASE_URL ++ "2025/2T2025.ZIP")%string
       then Interrompida "PK"
       else Completa "PK-complete").

(** The same server once the transfers no longer break. *)
Definition rede_boa : Rede :=
  mkRede (listar_links_v2 rede_exemplo) (fun _ => Completa "PK-complete").

End DownloadSpec.

Module ValidarMore.
Section WithPandas.
Context {pd : Pandas}.
Import Validar.

(** The key a mapping row is joined on: its RegistroANS as text. *)
Definition chave_mapa (x : Mapeamento) : string :=
  str_value (value_of_cell (m_RegistroANS x)).

Definition positiva (r : Despesa) : bool :=
  positive (to_numeric_value (ValorDespesas r)).

(** The output row of a record when the frame has no mapping. *)
Definition sem_mapa (r : Despesa) : Saida :=
  (Txt "", Txt "", Trimestre r, Ano r, to_numeric_value (ValorDespesas r)).

End WithPandas.

(** A mapping with one row per registry number. *)
Definition mapa_unico : Validar.MappingFile :=
  Validar.Mapeado [Validar.mkMapeamento (Some "3") (Some "12345678000195") (Some "C");
                   Validar.mkMapeamento (Some "2") (Some "123") (Some "B")].

End ValidarMore.

Module EnriquecerMore.
Import Enriquecer.

(** [bytes.decode('latin-1')], the result held as UTF-8: what a text
    becomes when its UTF-8 bytes are read as Latin-1. *)
Definition latin1_char (c : ascii) : list ascii :=
  if (Text.code c <? 128)%nat then [c]
  else if (Text.code c <? 192)%nat then [ascii_of_nat 194; c]
  else [ascii_of_nat 195; ascii_of_nat (Text.code c - 64)].

Definition decode_latin1 (b : list ascii) : list ascii := flat_map latin1_char b.

(** The byte leads a two-byte UTF-8 sequence of the Latin-1 supplement. *)
Definition lead_c2_c3 (c : ascii) : bool :=
  (Text.code c =? 194)%nat || (Text.code c =? 195)%nat.

(** The column qualifies as the registry-number column. *)
Definition is_registro (c : string) : bool :=
  let uc := Text.upper c in
  negb (Text.contains "REGIAO" uc)
  && (Text.contains "REGIST" uc
      || (Text.contains "REG" uc && negb (Text.contains "CNPJ" uc))).

(** "São" in UTF-8. *)
Definition sao_utf8 : list ascii :=
  ["S"%char; ascii_of_nat 195; ascii_of_nat 163; "o"%char].

End EnriquecerMore.

Module AgregarMore.
Import Agregar AgregarSpec.

(** The arithmetic mean and the sample variance of a list of numbers:
    the sum of the squared distances to the mean, divided by the number
    of values less one. *)
Definition soma_de (l : list Q) : Q := fold_right Qplus 0 l.

Definition media_aritmetica (l : list Q) : Q :=
  soma_de l / inject_Z (Z.of_nat (List.length l)).

Definition variancia_amostral (l : list Q) : Q :=
  soma_de (map (fun x => (x - media_aritmetica l) ^ 2) l)
  / (inject_Z (Z.of_nat (List.length l)) - 1).

Section WithPandas.
Context {pd : Pandas}.

(** The expense value of a row as the aggregation counts it: zero when
    the cell is missing or is not a number. *)
Definition valor_contado (cols : list string) (r : Linha) : Q :=
  snd (preparar cols r).

End WithPandas.

(** The rows of [dividido] in another order. *)
Definition dividido_permutado : Dataset :=
  mkDataset todas [linha "B" "RJ" 2025 1 5; linha "A" "SP" 2025 2 40;
                   linha "A" "SP" 2025 1 30; linha "A" "SP" 2025 1 20;
                   linha "A" "SP" 2025 1 10].

End AgregarMore.

Module PipelineSpec.
Import Pipeline.

(** The same world with another mapping file for script 03. *)
Definition com_mapeamento (w : Mundo) (m : Validar.MappingFile) : Mundo :=
  mkMundo (rede w) (extractall w) m (cadastro w) (ler_consolidado w)
          (csv_validados w) (csv_enriquecidos w) (ler_validados w)
          (csv_agregadas w) (zipar w).

(** An empty data directory. *)
Definition disco_vazio : Disco := mkDisco [] None None None None.

(** A data directory holding a consolidated file and leftovers of an
    earlier run. *)
Definition disco_exemplo : Disco :=
  mkDisco [] (Some "consolidado") (Some "antigo") (Some "agregado antigo") None.

(** A server without year directories; readers and writers that stand
    for pandas on the two example files. *)
Definition mundo_exemplo : Mundo :=
  mkMundo (Download.mkRede (fun _ => []) (fun _ => Download.Falha))
          (fun _ _ => None)
          Validar.Ausente
          (Some EnriquecerSpec.cadastro_exemplo)
          (fun _ => Some ValidarSpec.tres_linhas)
          (fun _ => "validados")
          (fun _ => "enriquecidos")
          (fun _ => Some AgregarSpec.dividido)
          (fun _ => "agregadas")
          (fun _ => "zip").

End PipelineSpec.

(* ===================================================================== *)
(** * The model on small inputs                                            *)
(* ===================================================================== *)

Module Exemplos.
Import Plain.

Example suffix_of_names :
  map PathName.suffix ["tmp/a/Dados.CSV"; "tmp/planilha.xlsx"; ".oculto"; "sem_ponto"; "fim."]
  = [".CSV"; ".xlsx"; ""; ""; ""].
Proof. reflexivity. Qed.

Example strip_upper : Processar.norm_col "  vl_Saldo_final " = "VL_SALDO_FINAL".
Proof. reflexivity. Qed.

Example search_is_leftmost :
  option_map (Re.group 1) (Re.search Periodo.pat_yyyymm "a12345b2025012") =
  Some (Text.chars "202501").
Proof. reflexivity. Qed.

Example quarter_of_month :
  map Periodo._extract_year_quarter_from_name
      ["dados_202511.zip"; "2025_2_trimestre.zip"; "3t2024.zip"; "202513x.zip"]
  = [Some (2025, 4)%Z; Some (2025, 2)%Z; Some (2024, 3)%Z; None].
Proof. vm_compute. reflexivity. Qed.

Example classifier :
  map Processar._is_expense_table
      [mkDF ["DATA"; " reg_ans "] []; mkDF ["Conta"; "vlr_total"] []; mkDF ["A"; "B"] []]
  = [true; true; false].
Proof. vm_compute. reflexivity. Qed.

(** "1.234,5" becomes "1.234.5", which is not a number, and the row is
    dropped; "10,5" becomes 10.5. *)
Example mapper :
  Processar._normalize_and_extract
    (mkDF ["REG_ANS"; "DESCRICAO"; "VL_SALDO_FINAL"]
          [[Some "123"; Some "x"; Some "1.234,5"];
           [Some "124"; None; Some "R$ 10,5"];
           [None; Some "y"; None]])
    "2025" "1"
  = Some [(Some "124", "1", "2025", 105 # 10)].
Proof. vm_compute. reflexivity. Qed.

Example mapper_needs_both_columns :
  Processar._normalize_and_extract (mkDF ["REG_ANS"; "DESCRICAO"] [[Some "1"; Some "x"]])
                                   "2025" "1"
  = None.
Proof. vm_compute. reflexivity. Qed.

(** The two characters U+00C3 U+00A3, which are "ã" read as Latin-1, are
    repaired; a lone U+00C3 followed by ASCII is left as it is. *)
Example mojibake_repaired :
  Enriquecer._fix_mojibake_text
    (Some (String (ascii_of_nat 195) (String (ascii_of_nat 131)
          (String (ascii_of_nat 194) (String (ascii_of_nat 163) "o")))))
  = Some (String (ascii_of_nat 195) (String (ascii_of_nat 163) "o")).
Proof. vm_compute. reflexivity. Qed.

Example mojibake_left_alone :
  Enriquecer._fix_mojibake_text
    (Some (String (ascii_of_nat 195) (String (ascii_of_nat 131) "o")))
  = Some (String (ascii_of_nat 195) (String (ascii_of_nat 131) "o")).
Proof. vm_compute. reflexivity. Qed.

Example registry_column_found :
  map Enriquecer.find_registro
      [["REGIAO_DE_COMERCIALIZACAO"; "REGISTRO_OPERADORA"; "CNPJ"];
       ["CNPJ_REG"; "NOME"]; ["UF"]]
  = [Some "REGISTRO_OPERADORA"; None; None].
Proof. vm_compute. reflexivity. Qed.

Example plain_numbers :
  map to_numeric_plain ["-5"; "0"; "0.01"; ""; "1.2.3"; "-"; "5."; ".5"; "abc"]
  = [Some (-5 # 1); Some (0 # 1); Some (1 # 100); None; None; None;
     Some (5 # 1); Some (5 # 10); None].
Proof. vm_compute. reflexivity. Qed.

Example chunks_of_two :
  Agregar.read_chunks 2 [1; 2; 3; 4; 5]%nat = [[1; 2]; [3; 4]; [5]]%nat /\
  Agregar.read_chunks 2 (@nil nat) = [[]].
Proof. split; reflexivity. Qed.

End Exemplos.

(* ===================================================================== *)
(** * Theorems: script 02                                                  *)
(* ===================================================================== *)

(** ** Period extraction *)

Module PeriodoFacts.
Import Periodo.

(** The second pattern finds a year and a quarter inside a run of six
    digits: in "202503_" it reads the year "0250" and the quarter "3". *)
Lemma second_pattern_inside_digits :
  option_map (fun m => (Re.group 1 m, Re.group 2 m))
             (Re.search pat_yyyy_q "202503_relatorio.zip")
  = Some (Text.chars "0250", Text.chars "3").
Proof. vm_compute. reflexivity. Qed.

Lemma first_pattern_misses_yyyymm :
  Re.search pat_qTyyyy "202503_relatorio.zip" = None.
Proof. vm_compute. reflexivity. Qed.

(** The third pattern on its own reads the six digits as year and month. *)
Lemma third_pattern_reads_yyyymm :
  option_map (fun m => Re.group 1 m) (Re.search pat_yyyymm "202503_relatorio.zip")
  = Some (Text.chars "202503").
Proof. vm_compute. reflexivity. Qed.

(** C3. On the archive names of the specification, the extraction
    returns year 2025 and quarter 1 for "1T2025_despesas.zip" and the
    sentinel "N/A" for "relatorio.zip"; for "202503_relatorio.zip" it
    returns year 250 and quarter 3, because the year-separator-quarter
    pattern matches "0250" followed by "3_" before the YYYYMM pattern is
    tried. *)
Theorem extract_year_quarter_examples :
  _extract_year_quarter_from_name "1T2025_despesas.zip" = Some (2025, 1)%Z /\
  ano_trimestre "1T2025_despesas.zip" = ("2025", "1") /\
  _extract_year_quarter_from_name "relatorio.zip" = None /\
  ano_trimestre "relatorio.zip" = ("N/A", "N/A") /\
  _extract_year_quarter_from_name "202503_relatorio.zip" = Some (250, 3)%Z /\
  ano_trimestre "202503_relatorio.zip" = ("250", "3").
Proof. vm_compute. repeat split; reflexivity. Qed.

End PeriodoFacts.

(** ** Table reader *)

Module ReaderFacts.
Section WithPandas.
Context {pd : Pandas}.
Import Processar ReaderSpec.

Lemma pairs_order :
  pairs = [("utf-8", ";"); ("utf-8", ","); ("utf-8", tab); ("utf-8", "|");
           ("latin-1", ";"); ("latin-1", ","); ("latin-1", tab); ("latin-1", "|");
           ("cp1252", ";"); ("cp1252", ","); ("cp1252", tab); ("cp1252", "|")].
Proof. reflexivity. Qed.

Lemma try_seps_find (path : File) (enc : string) (ss : list string) :
  try_seps path enc ss
  = match find (accepted path) (map (fun s => (enc, s)) ss) with
    | Some p => parse_of path p
    | None => None
    end.
Proof.
  induction ss as [|sep ss IH]; simpl; [reflexivity|].
  unfold accepted at 1. cbn [fst snd].
  destruct (read_csv path sep enc) as [df|] eqn:E.
  - destruct (1 <? shape1 df)%nat; [|exact IH].
    unfold parse_of. cbn [fst snd]. now rewrite E.
  - exact IH.
Qed.

Lemma find_app {A : Type} (f : A -> bool) (l1 l2 : list A) :
  find f (l1 ++ l2) = match find f l1 with Some x => Some x | None => find f l2 end.
Proof.
  induction l1 as [|a l1 IH]; simpl; [reflexivity|].
  destruct (f a); [reflexivity | exact IH].
Qed.

Lemma find_accepted_parse (path : File) (l : list (string * string)) (p : string * string) :
  find (accepted path) l = Some p -> exists df, parse_of path p = Some df.
Proof.
  intros H. apply find_some in H. destruct H as [_ H].
  unfold accepted, parse_of in *.
  destruct (read_csv path (snd p) (fst p)) as [df|]; [eauto | discriminate].
Qed.

Lemma try_encodings_find (path : File) (es : list string) :
  try_encodings path es
  = match find (accepted path) (list_prod es seps) with
    | Some p => parse_of path p
    | None => None
    end.
Proof.
  induction es as [|enc es IH]; [reflexivity|].
  cbn [try_encodings list_prod]. rewrite find_app, try_seps_find.
  destruct (find (accepted path) (map (fun s => (enc, s)) seps)) as [p|] eqn:E.
  - destruct (find_accepted_parse _ _ _ E) as [df Hdf]. now rewrite Hdf.
  - exact IH.
Qed.

(** [find] as the first index that satisfies the test. *)
Lemma find_first_index {A : Type} (f : A -> bool) (l : list A) (x : A) :
  find f l = Some x <->
  exists i, nth_error l i = Some x /\ f x = true /\
            forall j y, (j < i)%nat -> nth_error l j = Some y -> f y = false.
Proof.
  induction l as [|a l IH]; simpl.
  - split; [discriminate|]. intros [i [H _]]. destruct i; discriminate.
  - destruct (f a) eqn:Fa.
    + split.
      * intros H; inversion H; subst. exists 0%nat. repeat split; auto.
        intros j y Hj; lia.
      * intros [i [Hi [Hx Hmin]]]. destruct i as [|i].
        -- simpl in Hi. exact Hi.
        -- specialize (Hmin 0%nat a (Nat.lt_0_succ _) eq_refl). congruence.
    + rewrite IH. split.
      * intros [i [Hi [Hx Hmin]]]. exists (S i). repeat split; auto.
        intros [|j] y Hj Hy; simpl in Hy.
        -- inversion Hy; subst; exact Fa.
        -- apply (Hmin j); [lia | exact Hy].
      * intros [i [Hi [Hx Hmin]]]. destruct i as [|i].
        -- simpl in Hi. inversion Hi; subst. congruence.
        -- exists i. repeat split; auto.
           intros j y Hj Hy. apply (Hmin (S j)); [lia | exact Hy].
Qed.

End WithPandas.

Import Processar ReaderSpec Plain.

(** C2. For a file that is not a spreadsheet, the reader returns the
    parse of the first (encoding, delimiter) pair, in the order of
    [pairs], whose parse succeeds with more than one column: pairs that
    fail or give a single column are passed over, and the result is
    "unreadable" exactly when no pair is accepted.  On "A;B\n1;2\n" the
    result is the two-column table split on ";", although the "," parse
    succeeds with one column. *)
Theorem try_read_table_first_accepted :
  (forall (pd : Pandas) (path : File),
      is_spreadsheet path = false ->
      (forall df, _try_read_table path = Some df <->
         exists i p, nth_error pairs i = Some p /\
                     parse_of path p = Some df /\ (1 < shape1 df)%nat /\
                     forall j p', (j < i)%nat -> nth_error pairs j = Some p' ->
                                  accepted path p' = false) /\
      (_try_read_table path = None <->
         forall p, In p pairs -> accepted path p = false)) /\
  @_try_read_table plain exemplo = Some (mkDF ["A"; "B"] [[Some "1"; Some "2"]]) /\
  @read_csv plain exemplo "," "utf-8" = Some (mkDF ["A;B"] [[Some "1;2"]]).
Proof.
  split; [|split; vm_compute; reflexivity].
  intros pd path Hx. unfold _try_read_table. rewrite Hx.
  rewrite try_encodings_find. fold pairs. split.
  - intros df. split.
    + intros H. destruct (find (accepted path) pairs) as [p|] eqn:E; [|discriminate].
      apply find_first_index in E. destruct E as [i [Hi [Hacc Hmin]]].
      exists i, p. repeat split; auto.
      unfold accepted in Hacc. unfold parse_of in H. rewrite H in Hacc.
      now apply Nat.ltb_lt.
    + intros [i [p [Hi [Hp [Hc Hmin]]]]].
      assert (E : find (accepted path) pairs = Some p).
      { apply find_first_index. exists i. repeat split; auto.
        unfold accepted. unfold parse_of in Hp. rewrite Hp. now apply Nat.ltb_lt. }
      now rewrite E.
  - split.
    + intros H p Hin. destruct (find (accepted path) pairs) as [p0|] eqn:E.
      * destruct (find_accepted_parse _ _ _ E) as [df Hdf]. congruence.
      * destruct (accepted path p) eqn:Hp; [|reflexivity].
        pose proof (find_none _ _ E p Hin). congruence.
    + intros H. destruct (find (accepted path) pairs) as [p0|] eqn:E; [|reflexivity].
      apply find_some in E. destruct E as [Hin Hacc]. rewrite (H p0 Hin) in Hacc.
      discriminate.
Qed.

Lemma try_read_table_first_accepted_witness :
  is_spreadsheet exemplo = false /\
  (@_try_read_table plain exemplo = None <->
     forall p, In p pairs -> @accepted plain exemplo p = false).
Proof.
  split; [reflexivity|].
  apply (proj1 try_read_table_first_accepted plain exemplo). reflexivity.
Defined.

End ReaderFacts.

(* ===================================================================== *)
(** * Theorems: script 03                                                  *)
(* ===================================================================== *)

Module ValidarFacts.
Import Validar ValidarSpec.

Lemma positive_spec (o : option Q) :
  positive o = true <-> exists q, o = Some q /\ (0 < q)%Q.
Proof.
  destruct o as [q|]; simpl.
  - rewrite negb_true_iff. split.
    + intros H. exists q. split; [reflexivity|].
      apply Qnot_le_lt. intros Hle. apply Qle_bool_iff in Hle. congruence.
    + intros [q' [Hq Hlt]]. inversion Hq; subst q'.
      destruct (Qle_bool q 0) eqn:E; [|reflexivity].
      apply Qle_bool_iff in E. exfalso. exact (Qlt_not_le _ _ Hlt E).
  - split; [discriminate|]. intros [q [H _]]. discriminate.
Qed.

Section WithPandas.
Context {pd : Pandas}.

(** The length test is all [validar_cnpj] does. *)
Lemma validar_cnpj_length (v : value) :
  validar_cnpj v = true <-> String.length (normalizar_cnpj (str_value v)) = 14%nat.
Proof. unfold validar_cnpj. apply Nat.eqb_eq. Qed.

Lemma length_chars (s : string) : List.length (Text.chars s) = String.length s.
Proof. induction s as [|c s IH]; simpl; [reflexivity | now rewrite IH]. Qed.

(** Fourteen digits pass the test. *)
Lemma quatorze_digitos_valid (s : string) :
  quatorze_digitos s = true -> validar_cnpj (Txt s) = true.
Proof.
  unfold quatorze_digitos. intros H. apply andb_true_iff in H. destruct H as [H _].
  apply validar_cnpj_length. simpl. rewrite <- length_chars. now apply Nat.eqb_eq.
Qed.

Lemma merge_row_base (m : list Mapeamento) (r : Despesa) (l : Linha) :
  In l (merge_row m r) -> base l = r.
Proof.
  unfold merge_row. destruct (filter (eq_key r) m) as [|x xs].
  - intros [H|[]]. now subst l.
  - intros H. apply in_map_iff in H. destruct H as [y [Hy _]]. now subst l.
Qed.

Lemma merge_row_nonempty (m : list Mapeamento) (r : Despesa) :
  exists l, In l (merge_row m r).
Proof.
  unfold merge_row. destruct (filter (eq_key r) m) as [|x xs].
  - eexists. left. reflexivity.
  - eexists. left. reflexivity.
Qed.

(** Loading never loses nor invents a consolidated row. *)
Lemma carregar_sound (mf : MappingFile) (df : list Despesa) (l : Linha) :
  In l (carregar mf df) -> In (base l) df.
Proof.
  destruct mf as [| |m]; simpl; intros H.
  - apply in_map_iff in H. destruct H as [r [Hr Hin]]. now subst l.
  - apply in_map_iff in H. destruct H as [r [Hr Hin]]. now subst l.
  - apply in_flat_map in H. destruct H as [r [Hin Hl]].
    now rewrite (merge_row_base _ _ _ Hl).
Qed.

Lemma carregar_complete (mf : MappingFile) (df : list Despesa) (r : Despesa) :
  In r df -> exists l, In l (carregar mf df) /\ base l = r.
Proof.
  intros Hin. destruct mf as [| |m]; simpl.
  - eexists. split; [apply in_map; exact Hin | reflexivity].
  - eexists. split; [apply in_map; exact Hin | reflexivity].
  - destruct (merge_row_nonempty m r) as [l Hl]. exists l. split.
    + apply in_flat_map. exists r. split; assumption.
    + exact (merge_row_base _ _ _ Hl).
Qed.

(** The rows of [df_limpo], described one by one. *)
Lemma df_limpo_In (mf : MappingFile) (df : list Despesa) (l : Linha) :
  In l (df_limpo (executar_validacao mf df)) <->
  exists l0, In l0 (carregar mf df) /\
             l = converter_valor (marcar_cnpj l0) /\
             positive (to_numeric_value (ValorDespesas (base l0))) = true.
Proof.
  unfold executar_validacao; simpl. rewrite filter_In, map_map, in_map_iff. split.
  - intros [[l0 [Hl Hin]] Hp]. exists l0. subst l. repeat split; auto.
  - intros [l0 [Hin [Hl Hp]]]. subst l. split; [exists l0; auto | exact Hp].
Qed.

End WithPandas.

(** C4. A consolidated row survives validation exactly when its expense
    value converts to a number greater than zero: the test looks at
    nothing else, so a loaded row with a positive value stays whatever
    its identifier and name are, and is only flagged.  Every surviving
    row carries the flag computed by the identifier check and its
    converted value.  Of the rows with values -5, 0 and 0.01 only the
    last survives, and with the identifier "123" it is kept with the flag
    false. *)
Theorem validation_keeps_positive_rows :
  (forall (pd : Pandas) (mf : MappingFile) (df : list Despesa),
      (forall r, In r df ->
         ((exists l, In l (df_limpo (executar_validacao mf df)) /\ base l = r) <->
          (exists q, to_numeric_value (ValorDespesas r) = Some q /\ (0 < q)%Q))) /\
      (forall l0, In l0 (carregar mf df) ->
         positive (to_numeric_value (ValorDespesas (base l0))) = true ->
         In (converter_valor (marcar_cnpj l0)) (df_limpo (executar_validacao mf df))) /\
      (forall l, In l (df_limpo (executar_validacao mf df)) ->
         In (base l) df /\
         Valor l = to_numeric_value (ValorDespesas (base l)) /\
         CNPJ_Valido l = match CNPJ l with Some c => validar_cnpj c | None => false end) /\
      output_df (executar_validacao mf df)
      = map projetar (df_limpo (executar_validacao mf df))) /\
  @executar_validacao Plain.plain mapa_123 tres_linhas
  = mkResultado 3
      [mkLinha (mkDespesa (Int 3) (Int 1) (Int 2025) (Flt (1 # 100)))
               (Some (Txt "123")) (Some NaN) false (Some (1 # 100))]
      [(Txt "123", NaN, Int 1, Int 2025, Some (1 # 100))].
Proof.
  split; [|vm_compute; reflexivity].
  intros pd mf df. split; [|split; [|split; [|reflexivity]]].
  - intros r Hin. rewrite <- positive_spec. split.
    + intros [l [Hl Hb]]. apply df_limpo_In in Hl.
      destruct Hl as [l0 [Hin0 [Hl Hp]]]. subst l. simpl in Hb. now subst r.
    + intros Hp. destruct (carregar_complete mf df r Hin) as [l0 [Hin0 Hb]].
      exists (converter_valor (marcar_cnpj l0)). split; [|exact Hb].
      apply df_limpo_In. exists l0. subst r. auto.
  - intros l0 Hin0 Hp. apply df_limpo_In. exists l0. auto.
  - intros l Hl. apply df_limpo_In in Hl. destruct Hl as [l0 [Hin0 [Hl Hp]]].
    subst l. simpl. split; [|split; reflexivity].
    exact (carregar_sound _ _ _ Hin0).
Qed.

Lemma validation_keeps_positive_rows_witness :
  In (mkDespesa (Int 3) (Int 1) (Int 2025) (Flt (1 # 100))) tres_linhas /\
  ((exists l, In l (df_limpo (@executar_validacao Plain.plain mapa_123 tres_linhas)) /\
              base l = mkDespesa (Int 3) (Int 1) (Int 2025) (Flt (1 # 100))) <->
   (exists q, @to_numeric_value Plain.plain (Flt (1 # 100)) = Some q /\ (0 < q)%Q)).
Proof.
  split; [simpl; auto|].
  apply (proj1 (proj1 validation_keeps_positive_rows Plain.plain mapa_123 tres_linhas)).
  simpl; auto.
Defined.

(** C5. The identifier check removes ".", "/" and "-" and compares the
    length with 14, and looks at nothing else: it accepts a formatted
    14-digit identifier and rejects "123", and it also accepts the
    fourteen letters "ABCDEFGHIJKLMN" and the value "1234567800019X",
    which are not fourteen digits. *)
Theorem validar_cnpj_accepts_non_digits :
  forall pd : Pandas,
    validar_cnpj (Txt "12.345.678/0001-95") = true /\
    validar_cnpj (Txt "123") = false /\
    validar_cnpj NaN = false /\
    validar_cnpj (Txt "ABCDEFGHIJKLMN") = true /\
    quatorze_digitos "ABCDEFGHIJKLMN" = false /\
    validar_cnpj (Txt "1234567800019X") = true /\
    quatorze_digitos "1234567800019X" = false.
Proof. intros pd. vm_compute. repeat split; reflexivity. Qed.

End ValidarFacts.

(* ===================================================================== *)
(** * Orders and sorted lists                                              *)
(* ===================================================================== *)

Module OrderFacts.

Import OrderSpec.

Lemma ascii_compare_refl (a : ascii) : Ascii.compare a a = Eq.
Proof. unfold Ascii.compare. apply N.compare_refl. Qed.

Lemma ascii_compare_trans (a b c : ascii) :
  Ascii.compare a b = Lt -> Ascii.compare b c = Lt -> Ascii.compare a c = Lt.
Proof.
  unfold Ascii.compare. rewrite !N.compare_lt_iff. apply N.lt_trans.
Qed.

Lemma string_compare_refl (s : string) : String.compare s s = Eq.
Proof.
  induction s as [|a s IH]; simpl; [reflexivity|].
  now rewrite ascii_compare_refl.
Qed.

Lemma string_compare_trans (s t u : string) :
  String.compare s t = Lt -> String.compare t u = Lt -> String.compare s u = Lt.
Proof.
  revert t u. induction s as [|a s IH]; intros [|b t] [|c u]; simpl;
    try discriminate; try reflexivity.
  destruct (Ascii.compare a b) eqn:Eab; try discriminate;
    destruct (Ascii.compare b c) eqn:Ebc; try discriminate; intros H1 H2.
  - apply Ascii.compare_eq_iff in Eab, Ebc. subst. rewrite ascii_compare_refl.
    eapply IH; eauto.
  - apply Ascii.compare_eq_iff in Eab. subst. now rewrite Ebc.
  - apply Ascii.compare_eq_iff in Ebc. subst. now rewrite Eab.
  - now rewrite (ascii_compare_trans _ _ _ Eab Ebc).
Qed.

Lemma string_laws : cmp_laws String.compare.
Proof.
  repeat split.
  - apply String.compare_eq_iff.
  - intros ->. apply string_compare_refl.
  - apply String.compare_antisym.
  - apply string_compare_trans.
Qed.

Lemma Z_laws : cmp_laws Z.compare.
Proof.
  repeat split.
  - apply Z.compare_eq.
  - intros ->. apply Z.compare_refl.
  - intros a b. apply Z.compare_antisym.
  - intros a b c. rewrite !Z.compare_lt_iff. apply Z.lt_trans.
Qed.

Section Laws.
Context {K : Type} (cmp : K -> K -> comparison).
Hypothesis laws : cmp_laws cmp.

Lemma cmp_refl (a : K) : cmp a a = Eq.
Proof. now apply laws. Qed.

Lemma cmp_eq (a b : K) : cmp a b = Eq -> a = b.
Proof. apply laws. Qed.

Lemma cmp_antisym (a b : K) : cmp a b = CompOpp (cmp b a).
Proof. apply laws. Qed.

Lemma cmp_trans (a b c : K) : cmp a b = Lt -> cmp b c = Lt -> cmp a c = Lt.
Proof. apply laws. Qed.

Lemma cmp_gt_lt (a b : K) : cmp a b = Gt -> cmp b a = Lt.
Proof. intros H. rewrite cmp_antisym, H. reflexivity. Qed.

Lemma cmp_lt_gt (a b : K) : cmp a b = Lt -> cmp b a = Gt.
Proof. intros H. rewrite cmp_antisym, H. reflexivity. Qed.

Lemma cmp_lt_neq (a b : K) : cmp a b = Lt -> a <> b.
Proof. intros H ->. rewrite cmp_refl in H. discriminate. Qed.

(** "Not greater" is transitive. *)
Lemma cmp_le_trans (a b c : K) : cmp a b <> Gt -> cmp b c <> Gt -> cmp a c <> Gt.
Proof.
  intros H1 H2 H3.
  destruct (cmp a b) eqn:Eab; [| |congruence].
  - apply cmp_eq in Eab. subst. congruence.
  - destruct (cmp b c) eqn:Ebc; [| |congruence].
    + apply cmp_eq in Ebc. subst. congruence.
    + rewrite (cmp_trans _ _ _ Eab Ebc) in H3. discriminate.
Qed.
End Laws.

(** The lexicographic order on pairs inherits the laws. *)
Lemma pair_laws {A B : Type} (ca : A -> A -> comparison) (cb : B -> B -> comparison) :
  cmp_laws ca -> cmp_laws cb -> cmp_laws (Agregar.cmp_pair ca cb).
Proof.
  intros La Lb. unfold Agregar.cmp_pair. repeat split.
  - intros H. destruct a as [a1 a2], b as [b1 b2]; simpl in *.
    destruct (ca a1 b1) eqn:E; try discriminate.
    apply (cmp_eq _ La) in E. apply (cmp_eq _ Lb) in H. now subst.
  - intros ->. rewrite (cmp_refl _ La). apply (cmp_refl _ Lb).
  - intros [a1 a2] [b1 b2]; simpl. rewrite (cmp_antisym _ La a1 b1).
    destruct (ca b1 a1); simpl; [apply (cmp_antisym _ Lb) | reflexivity | reflexivity].
  - intros [a1 a2] [b1 b2] [c1 c2]; simpl.
    destruct (ca a1 b1) eqn:Eab; try discriminate;
      destruct (ca b1 c1) eqn:Ebc; try discriminate; intros H1 H2.
    + apply (cmp_eq _ La) in Eab, Ebc. subst. rewrite (cmp_refl _ La).
      eapply (cmp_trans _ Lb); eauto.
    + apply (cmp_eq _ La) in Eab. subst. now rewrite Ebc.
    + apply (cmp_eq _ La) in Ebc. subst. now rewrite Eab.
    + now rewrite (cmp_trans _ La _ _ _ Eab Ebc).
Qed.

Lemma chave_laws : cmp_laws Agregar.cmp_chave.
Proof.
  repeat split.
  - destruct a, b; simpl; intros H; try discriminate; try reflexivity.
    + f_equal. now apply Z.compare_eq.
    + f_equal. now apply String.compare_eq_iff.
  - intros ->. destruct b; simpl; [apply Z.compare_refl | apply string_compare_refl | reflexivity].
  - intros [x|x|] [y|y|]; simpl; try reflexivity.
    + apply Z.compare_antisym.
    + apply String.compare_antisym.
  - intros [x|x|] [y|y|] [z|z|]; simpl; try discriminate; try reflexivity.
    + rewrite !Z.compare_lt_iff. apply Z.lt_trans.
    + apply string_compare_trans.
Qed.

Lemma cmp2_laws : cmp_laws Agregar.cmp2.
Proof. apply pair_laws; apply chave_laws. Qed.

Lemma cmp4_laws : cmp_laws Agregar.cmp4.
Proof. apply pair_laws; apply cmp2_laws. Qed.

(** Two strongly sorted lists with the same elements are equal, when the
    order is antisymmetric on those elements. *)
Lemma sorted_perm_unique {A : Type} (R : A -> A -> Prop) (l1 l2 : list A) :
  (forall x y, In x l1 -> In y l1 -> R x y -> R y x -> x = y) ->
  StronglySorted R l1 -> StronglySorted R l2 -> Permutation l1 l2 -> l1 = l2.
Proof.
  revert l2. induction l1 as [|a t IH]; intros l2 Hanti S1 S2 P.
  - apply Permutation_nil in P. now subst.
  - destruct l2 as [|b t2].
    + apply Permutation_sym, Permutation_nil in P. discriminate.
    + apply StronglySorted_inv in S1, S2.
      destruct S1 as [S1 F1], S2 as [S2 F2].
      assert (Hab : a = b).
      { assert (Ha : In a (b :: t2)) by (eapply Permutation_in; [exact P | now left]).
        assert (Hb : In b (a :: t))
          by (eapply Permutation_in; [apply Permutation_sym; exact P | now left]).
        destruct Ha as [Ha|Ha]; [now subst|].
        destruct Hb as [Hb|Hb]; [now subst|].
        rewrite Forall_forall in F1, F2.
        apply Hanti; [now left | now right | now apply F1 | now apply F2]. }
      subst b. f_equal. apply IH; auto.
      * intros x y Hx Hy. apply Hanti; now right.
      * eapply Permutation_cons_inv; exact P.
Qed.

Lemma NoDup_map_inj {A B : Type} (f : A -> B) (l : list A) (x y : A) :
  NoDup (map f l) -> In x l -> In y l -> f x = f y -> x = y.
Proof.
  induction l as [|a l IH]; simpl; intros N Hx Hy E; [contradiction|].
  inversion N as [|? ? Hn N']; subst.
  destruct Hx as [Hx|Hx], Hy as [Hy|Hy]; subst.
  - reflexivity.
  - exfalso. apply Hn. rewrite E. now apply in_map.
  - exfalso. apply Hn. rewrite <- E. now apply in_map.
  - now apply IH.
Qed.

Lemma string_leb_trans (a b c : string) :
  String.leb a b = true -> String.leb b c = true -> String.leb a c = true.
Proof.
  unfold String.leb. intros H1 H2.
  assert (N1 : String.compare a b <> Gt) by (destruct (String.compare a b); congruence).
  assert (N2 : String.compare b c <> Gt) by (destruct (String.compare b c); congruence).
  pose proof (cmp_le_trans _ string_laws _ _ _ N1 N2) as N3.
  destruct (String.compare a c); congruence.
Qed.

Lemma append_assoc (a b c : string) : ((a ++ b) ++ c = a ++ (b ++ c))%string.
Proof. induction a as [|x a IH]; simpl; [reflexivity | now rewrite IH]. Qed.

Lemma append_nil_r (a : string) : (a ++ "")%string = a.
Proof. induction a as [|x a IH]; simpl; [reflexivity | now rewrite IH]. Qed.

End OrderFacts.

(* ===================================================================== *)
(** * Theorems: the walker of script 02                                    *)
(* ===================================================================== *)

Module WalkerFacts.
Import Processar WalkerSpec OrderFacts.

Section WithPandas.
Context {pd : Pandas}.

Lemma process_file_frame (ano tri : string) (w : Walk) (f : File) :
  process_file ano tri w f
  = match frame_of ano tri f with
    | Some dfn => append_csv w dfn
    | None => w
    end.
Proof.
  unfold process_file, frame_of.
  destruct (Text.contains "__MACOSX" (relpath f)); [reflexivity|].
  destruct (_try_read_table f) as [df|]; [|reflexivity].
  destruct (negb (_is_expense_table df)); reflexivity.
Qed.

Lemma process_files_blocks (ano tri : string) (files : list File) (w : Walk) :
  fold_left (process_file ano tri) files w
  = fold_left append_csv (keep_some (map (frame_of ano tri) files)) w.
Proof.
  revert w. induction files as [|f files IH]; intros w; simpl; [reflexivity|].
  rewrite process_file_frame.
  destruct (frame_of ano tri f) as [dfn|]; simpl; apply IH.
Qed.

Lemma process_zip_blocks (w : Walk) (z : Zip) :
  process_zip w z = fold_left append_csv (blocos_zip z) w.
Proof.
  unfold process_zip, blocos_zip.
  destruct (Periodo.ano_trimestre (zip_name z)) as [ano tri].
  destruct (extracted z) as [files|]; [apply process_files_blocks | reflexivity].
Qed.

Lemma process_zips_blocks (zs : list Zip) (w : Walk) :
  fold_left process_zip zs w = fold_left append_csv (blocos zs) w.
Proof.
  revert w. induction zs as [|z zs IH]; intros w; simpl; [reflexivity|].
  unfold blocos in *. simpl. rewrite fold_left_app, process_zip_blocks. apply IH.
Qed.

(** After the first append the header flag stays off. *)
Lemma append_rest (bs : list (list canonical)) (s : string) :
  fold_left append_csv bs (mkWalk (Some s) false)
  = mkWalk (Some (s ++ String.concat "" (map (to_csv false) bs))%string) false.
Proof.
  revert s. induction bs as [|b bs IH]; intros s.
  - simpl. now rewrite append_nil_r.
  - cbn [fold_left]. unfold append_csv at 2. cbn [out primeira_escrita].
    rewrite IH. f_equal. f_equal. rewrite append_assoc. f_equal.
    destruct bs as [|b' bs]; simpl; [apply append_nil_r | reflexivity].
Qed.

Lemma run_writes_blocks (bs : list (list canonical)) :
  out (fold_left append_csv bs (mkWalk None true)) = escrever bs.
Proof.
  destruct bs as [|b bs]; simpl; [reflexivity|].
  unfold append_csv at 2. simpl. rewrite append_rest. reflexivity.
Qed.

End WithPandas.

(** ** The sorted list of archives *)

Lemma insert_zip_perm (z : Zip) (l : list Zip) : Permutation (z :: l) (insert_zip z l).
Proof.
  induction l as [|y l IH]; simpl; [apply Permutation_refl|].
  destruct (String.leb (zip_name z) (zip_name y)); [apply Permutation_refl|].
  eapply Permutation_trans; [apply perm_swap|]. now apply perm_skip.
Qed.

Lemma sorted_zips_perm (l : list Zip) : Permutation l (sorted_zips l).
Proof.
  induction l as [|z l IH]; simpl; [apply perm_nil|].
  eapply Permutation_trans; [|apply insert_zip_perm]. now apply perm_skip.
Qed.

Lemma le_zip_trans (a b c : Zip) : le_zip a b -> le_zip b c -> le_zip a c.
Proof. unfold le_zip. apply string_leb_trans. Qed.

Lemma insert_zip_sorted (z : Zip) (l : list Zip) :
  StronglySorted le_zip l -> StronglySorted le_zip (insert_zip z l).
Proof.
  induction l as [|y l IH]; simpl; intros S.
  - constructor; constructor.
  - destruct (String.leb (zip_name z) (zip_name y)) eqn:E.
    + constructor; [exact S|]. constructor; [exact E|].
      apply StronglySorted_inv in S. destruct S as [_ F].
      rewrite Forall_forall in *. intros x Hx. eapply le_zip_trans; [exact E | now apply F].
    + apply StronglySorted_inv in S. destruct S as [S F].
      constructor; [now apply IH|].
      rewrite Forall_forall in *. intros x Hx.
      apply (Permutation_in _ (Permutation_sym (insert_zip_perm z l))) in Hx.
      destruct Hx as [Hx|Hx]; [|now apply F]. subst x.
      unfold le_zip. destruct (String.leb_total (zip_name y) (zip_name z)); congruence.
Qed.

Lemma sorted_zips_sorted (l : list Zip) : StronglySorted le_zip (sorted_zips l).
Proof.
  induction l as [|z l IH]; simpl; [constructor | now apply insert_zip_sorted].
Qed.

(** The processing order does not depend on the order in which the
    directory lists its archives. *)
Lemma sorted_zips_listing (l l' : list Zip) :
  NoDup (map zip_name l) -> Permutation l l' -> sorted_zips l = sorted_zips l'.
Proof.
  intros N P. apply (sorted_perm_unique le_zip).
  - intros x y Hx Hy Hxy Hyx.
    apply (Permutation_in _ (Permutation_sym (sorted_zips_perm l))) in Hx, Hy.
    apply (NoDup_map_inj zip_name l); auto. now apply String.leb_antisym.
  - apply sorted_zips_sorted.
  - apply sorted_zips_sorted.
  - eapply Permutation_trans; [apply Permutation_sym, sorted_zips_perm|].
    eapply Permutation_trans; [exact P | apply sorted_zips_perm].
Qed.

Lemma sorted_zips_nonempty (z : Zip) (l : list Zip) : sorted_zips (z :: l) <> [].
Proof.
  intros H. pose proof (sorted_zips_perm (z :: l)) as P. rewrite H in P.
  apply Permutation_sym, Permutation_nil in P. discriminate.
Qed.

(** C8. A second run of the walker over the same archives leaves the
    file system as the first run left it.  With at least one archive the
    consolidated file is rebuilt from nothing, whatever it held before:
    it is made of the frames of the archives taken in sorted order, the
    first written with the header and the others without, and it is
    absent when no frame was produced.  The sorted order is the same for
    every order in which the directory lists the archives. *)
Theorem walker_rerun_identical :
  forall pd : Pandas,
    (forall fs, processar_arquivos (processar_arquivos fs) = processar_arquivos fs) /\
    (forall z zs prior,
        csv_final (processar_arquivos (mkFS (z :: zs) prior))
        = escrever (blocos (sorted_zips (z :: zs)))) /\
    (forall prior, processar_arquivos (mkFS [] prior) = mkFS [] prior) /\
    (forall zs, StronglySorted le_zip (sorted_zips zs) /\ Permutation zs (sorted_zips zs)) /\
    (forall zs zs', NoDup (map zip_name zs) -> Permutation zs zs' ->
                    sorted_zips zs = sorted_zips zs').
Proof.
  intros pd. split; [|split; [|split; [|split]]].
  - intros fs. unfold processar_arquivos.
    destruct (sorted_zips (raw_zips fs)) as [|z zs] eqn:E; [now rewrite E|].
    simpl. rewrite E. reflexivity.
  - intros z zs prior. unfold processar_arquivos. cbn [raw_zips].
    destruct (sorted_zips (z :: zs)) as [|y ys] eqn:E.
    + exfalso. exact (sorted_zips_nonempty _ _ E).
    + cbn [csv_final]. rewrite process_zips_blocks. apply run_writes_blocks.
  - reflexivity.
  - intros zs. split; [apply sorted_zips_sorted | apply sorted_zips_perm].
  - apply sorted_zips_listing.
Qed.

Lemma walker_rerun_identical_witness :
  sorted_zips [zip_b; zip_a] = sorted_zips [zip_a; zip_b] /\
  csv_final (@processar_arquivos Plain.plain (mkFS [zip_b; zip_a] (Some "old")))
  = @escrever Plain.plain
      [[(Some "123", "1", "2025", 105 # 10)]; [(Some "456", "2", "2025", 7 # 1)]].
Proof.
  split.
  - apply (proj2 (proj2 (proj2 (proj2 (walker_rerun_identical Plain.plain))))).
    + vm_compute. repeat constructor; simpl; intuition discriminate.
    + apply perm_swap.
  - vm_compute. reflexivity.
Defined.

End WalkerFacts.

(* ===================================================================== *)
(** * Theorems: script 04                                                  *)
(* ===================================================================== *)

Module EnriquecerFacts.
Import Enriquecer EnriquecerSpec.

Section WithPandas.
Context {pd : Pandas}.

Lemma merge_row_canonico (cad : list Cadastro) (r : Despesa) (e : Enriquecida) :
  In e (merge_row cad r) -> canonico_e e = canonico r.
Proof.
  unfold merge_row.
  destruct (filter (fun c => String.eqb (chave r) (c_RegistroANS c)) cad) as [|x xs].
  - intros [H|[]]. now subst e.
  - intros H. apply in_map_iff in H. destruct H as [c [Hc _]]. now subst e.
Qed.

Lemma merge_row_length (cad : list Cadastro) (r : Despesa) :
  (1 <= List.length (merge_row cad r))%nat.
Proof.
  unfold merge_row.
  destruct (filter (fun c => String.eqb (chave r) (c_RegistroANS c)) cad) as [|x xs];
    simpl; lia.
Qed.

Lemma merge_row_unmatched (cad : list Cadastro) (r : Despesa) :
  (forall c, In c cad -> c_RegistroANS c <> chave r) ->
  merge_row cad r = [sem_cadastro r].
Proof.
  intros H. unfold merge_row.
  destruct (filter (fun c => String.eqb (chave r) (c_RegistroANS c)) cad) as [|x xs] eqn:E;
    [reflexivity|].
  assert (Hx : In x (filter (fun c => String.eqb (chave r) (c_RegistroANS c)) cad))
    by (rewrite E; now left).
  apply filter_In in Hx. destruct Hx as [Hin Heq].
  apply String.eqb_eq in Heq. exfalso. apply (H x Hin). now symmetry.
Qed.

Lemma flat_map_length_ge {A B : Type} (f : A -> list B) (l : list A) :
  (forall a, 1 <= List.length (f a))%nat ->
  (List.length l <= List.length (flat_map f l))%nat.
Proof.
  intros H. induction l as [|a l IH]; simpl; [lia|].
  rewrite length_app. specialize (H a). lia.
Qed.

Lemma mem_hd (c : string) (l : list string) :
  Text.mem c l = true -> exists x, hd_error l = Some x.
Proof. destruct l as [|x l]; simpl; [discriminate | eauto]. Qed.


(** ** The model against the join of the specification *)

Lemma is_digit_range (c : ascii) :
  Text.is_digit c = (48 <=? nat_of_ascii c)%nat && (nat_of_ascii c <=? 57)%nat.
Proof. reflexivity. Qed.

Lemma only_digits_normalizado (s : string) : only_digits s = normalizado s.
Proof.
  unfold only_digits, normalizado, Text.text, Text.chars.
  apply (f_equal string_of_list_ascii).
  induction (list_ascii_of_string s) as [|c l IH]; [reflexivity|].
  cbn [filter digitos]. rewrite is_digit_range, IH. reflexivity.
Qed.

Lemma chave_id (r : Despesa) : chave r = id_despesa r.
Proof. apply only_digits_normalizado. Qed.

Lemma filter_map {A B : Type} (p : B -> bool) (f : A -> B) (l : list A) :
  filter p (map f l) = map f (filter (fun x => p (f x)) l).
Proof.
  induction l as [|a l IH]; [reflexivity|]. cbn [map filter].
  destruct (p (f a)); cbn [map]; now rewrite IH.
Qed.

Lemma preparar_cadastro_rows (cadastro : DataFrame) :
  colunas_presentes cadastro = true ->
  exists rc,
    coluna_registro (limpar_cadastro cadastro) = Some rc /\
    preparar_cadastro cadastro
    = Some (map (linha_cadastro (limpar_cadastro cadastro) rc)
                (rows (limpar_cadastro cadastro))).
Proof.
  unfold colunas_presentes, preparar_cadastro, coluna_registro. intros H.
  set (df := limpar_cadastro cadastro) in *.
  assert (Hhd : exists x, hd_error (columns df) = Some x).
  { apply andb_true_iff in H. destruct H as [H _].
    apply andb_true_iff in H. destruct H as [H _]. exact (mem_hd _ _ H). }
  destruct Hhd as [x Hx].
  assert (R : exists rc, match find_registro (columns df) with
                         | Some c => Some c
                         | None => hd_error (columns df)
                         end = Some rc).
  { destruct (find_registro (columns df)); [eauto | rewrite Hx; eauto]. }
  destruct R as [rc R]. exists rc. rewrite R, H. split; reflexivity.
Qed.

Lemma merge_row_juncao (reg : DataFrame) (rc : string) (r : Despesa) :
  merge_row (map (linha_cadastro reg rc) (rows reg)) r
  = match filter (casa reg rc r) (rows reg) with
    | [] => [sem_enriquecimento r]
    | ms => map (juntar reg rc r) ms
    end.
Proof.
  unfold merge_row. rewrite filter_map. cbn [linha_cadastro c_RegistroANS].
  rewrite (filter_ext (fun x => String.eqb (chave r) (id_cadastro reg rc x))
                      (casa reg rc r))
    by (intros x; unfold casa; rewrite chave_id; apply String.eqb_sym).
  destruct (filter (casa reg rc r) (rows reg)) as [|m ms]; cbn [map].
  - unfold sem_enriquecimento. now rewrite chave_id.
  - unfold juntar. cbn [linha_cadastro c_CNPJ c_RazaoSocial c_MODALIDADE c_UF].
    rewrite chave_id. f_equal. rewrite map_map. apply map_ext. intros x. reflexivity.
Qed.

Lemma casa_true (reg : DataFrame) (rc : string) (r : Despesa) (row : list cell) :
  casa reg rc r row = true <-> id_cadastro reg rc row = id_despesa r.
Proof. unfold casa. apply String.eqb_eq. Qed.

(** The rows of the join, one by one. *)
Lemma juncao_In (reg : DataFrame) (rc : string) (df : list Despesa) (e : Enriquecida) :
  In e (juncao_esquerda reg rc df) <->
  exists r, In r df /\
            ((exists row, In row (rows reg) /\ id_cadastro reg rc row = id_despesa r /\
                          e = juntar reg rc r row)
             \/ ((forall row, In row (rows reg) -> id_cadastro reg rc row <> id_despesa r) /\
                 e = sem_enriquecimento r)).
Proof.
  unfold juncao_esquerda. rewrite in_flat_map. split.
  - intros [r [Hr He]]. exists r. split; [exact Hr|].
    destruct (filter (casa reg rc r) (rows reg)) as [|m ms] eqn:E.
    + right. destruct He as [<-|[]]. split; [|reflexivity].
      intros row Hrow Hid. apply casa_true in Hid.
      assert (Hin : In row (filter (casa reg rc r) (rows reg)))
        by (apply filter_In; now split).
      rewrite E in Hin. contradiction.
    + left. apply in_map_iff in He. destruct He as [row [<- Hrow]].
      rewrite <- E in Hrow. apply filter_In in Hrow. destruct Hrow as [Hrow Hc].
      exists row. split; [exact Hrow|]. split; [now apply casa_true | reflexivity].
  - intros [r [Hr [[row [Hrow [Hid ->]]] | [Hno ->]]]]; exists r; (split; [exact Hr|]).
    + assert (Hin : In row (filter (casa reg rc r) (rows reg)))
        by (apply filter_In; split; [exact Hrow | now apply casa_true]).
      destruct (filter (casa reg rc r) (rows reg)) as [|m ms]; [contradiction|].
      now apply in_map.
    + destruct (filter (casa reg rc r) (rows reg)) as [|m ms] eqn:E; [now left|].
      exfalso. assert (Hin : In m (filter (casa reg rc r) (rows reg)))
        by (rewrite E; now left).
      apply filter_In in Hin. destruct Hin as [Hm Hc].
      apply casa_true in Hc. exact (Hno m Hm Hc).
Qed.

Lemma juncao_length (reg : DataFrame) (rc : string) (df : list Despesa) :
  List.length (juncao_esquerda reg rc df)
  = list_sum (map (fun r => Nat.max 1 (List.length (filter (casa reg rc r) (rows reg)))) df).
Proof.
  unfold juncao_esquerda. rewrite length_flat_map. f_equal.
  apply map_ext. intros r.
  destruct (filter (casa reg rc r) (rows reg)) as [|m ms]; [reflexivity|].
  rewrite length_map. cbn [List.length]. lia.
Qed.

End WithPandas.

(** C9 as amended. Whenever the registry has the columns CNPJ, MODALIDADE
    and UF the enricher produces an output, and that output is the left
    join of the canonical records with the registry rows on the
    normalized RegistryId, the digits of the identifier on both sides:
    every canonical record appears in it and no other record does; a
    record whose identifier is the identifier of a registry row appears
    once for each such row, with the CNPJ, name, modality and region of
    that row; a record whose identifier matches no registry row is kept,
    with empty CNPJ, name, modality and region and in no other form; and
    the output has as many rows as the records have matches, one being
    counted for a record without a match. *)
Theorem enrichment_is_left_join :
  forall (pd : Pandas) (df_despesas : list Despesa) (cadastro : DataFrame),
    colunas_presentes cadastro = true ->
    exists rc out,
      coluna_registro (limpar_cadastro cadastro) = Some rc /\
      executar_enriquecimento_total df_despesas cadastro = Some out /\
      out = juncao_esquerda (limpar_cadastro cadastro) rc df_despesas /\
      (forall r, In r df_despesas ->
                 exists e, In e out /\ canonico_e e = registro r) /\
      (forall e, In e out ->
         exists r, In r df_despesas /\ canonico_e e = registro r /\
           ((exists row, In row (rows (limpar_cadastro cadastro)) /\
                         id_cadastro (limpar_cadastro cadastro) rc row = id_despesa r /\
                         e = juntar (limpar_cadastro cadastro) rc r row)
            \/ ((forall row, In row (rows (limpar_cadastro cadastro)) ->
                             id_cadastro (limpar_cadastro cadastro) rc row <> id_despesa r) /\
                e = sem_enriquecimento r))) /\
      (forall r row, In r df_despesas -> In row (rows (limpar_cadastro cadastro)) ->
                     id_cadastro (limpar_cadastro cadastro) rc row = id_despesa r ->
                     In (juntar (limpar_cadastro cadastro) rc r row) out) /\
      (forall r, In r df_despesas ->
                 (forall row, In row (rows (limpar_cadastro cadastro)) ->
                              id_cadastro (limpar_cadastro cadastro) rc row <> id_despesa r) ->
                 In (sem_enriquecimento r) out /\
                 forall e, In e out -> canonico_e e = registro r ->
                           e = sem_enriquecimento r) /\
      List.length out
      = list_sum (map (fun r => Nat.max 1 (List.length
                                 (filter (casa (limpar_cadastro cadastro) rc r)
                                         (rows (limpar_cadastro cadastro)))))
                      df_despesas).
Proof.
  intros pd df cadastro H.
  destruct (preparar_cadastro_rows cadastro H) as [rc [Hrc Hcad]].
  set (reg := limpar_cadastro cadastro) in *.
  exists rc, (juncao_esquerda reg rc df).
  assert (Hrun : executar_enriquecimento_total df cadastro
                 = Some (juncao_esquerda reg rc df)).
  { unfold executar_enriquecimento_total. rewrite Hcad. f_equal.
    unfold juncao_esquerda. apply flat_map_ext. intros r. apply merge_row_juncao. }
  assert (Hcan : forall e r,
             (exists row, In row (rows reg) /\ id_cadastro reg rc row = id_despesa r /\
                          e = juntar reg rc r row)
             \/ ((forall row, In row (rows reg) -> id_cadastro reg rc row <> id_despesa r) /\
                 e = sem_enriquecimento r) ->
             canonico_e e = registro r).
  { intros e r [[row [_ [_ ->]]] | [_ ->]]; reflexivity. }
  split; [exact Hrc|]. split; [exact Hrun|]. split; [reflexivity|].
  split; [|split; [|split; [|split]]].
  - intros r Hr.
    destruct (filter (casa reg rc r) (rows reg)) as [|m ms] eqn:E.
    + exists (sem_enriquecimento r). split; [|reflexivity].
      apply juncao_In. exists r. split; [exact Hr|]. right. split; [|reflexivity].
      intros row Hrow Hid. apply casa_true in Hid.
      assert (Hin : In row (filter (casa reg rc r) (rows reg)))
        by (apply filter_In; now split).
      rewrite E in Hin. contradiction.
    + assert (Hin : In m (filter (casa reg rc r) (rows reg))) by (rewrite E; now left).
      apply filter_In in Hin. destruct Hin as [Hm Hc]. apply casa_true in Hc.
      exists (juntar reg rc r m). split; [|reflexivity].
      apply juncao_In. exists r. split; [exact Hr|]. left. eauto.
  - intros e He. apply juncao_In in He. destruct He as [r [Hr Hcase]].
    exists r. split; [exact Hr|]. split; [now apply Hcan | exact Hcase].
  - intros r row Hr Hrow Hid. apply juncao_In. exists r. split; [exact Hr|].
    left. eauto.
  - intros r Hr Hno. split.
    + apply juncao_In. exists r. split; [exact Hr|]. right. now split.
    + intros e He Hc. apply juncao_In in He. destruct He as [r' [Hr' Hcase]].
      pose proof (Hcan e r' Hcase) as Hc'. rewrite Hc in Hc'.
      unfold registro in Hc'. injection Hc' as Hi Ht Ha Hv.
      destruct Hcase as [[row [Hrow [Hid _]]] | [_ ->]].
      * exfalso. apply (Hno row Hrow). congruence.
      * unfold sem_enriquecimento. congruence.
  - apply juncao_length.
Qed.

Lemma enrichment_is_left_join_witness :
  colunas_presentes cadastro_duplo = true /\
  (exists rc out,
      coluna_registro (limpar_cadastro cadastro_duplo) = Some rc /\
      @executar_enriquecimento_total Plain.plain despesas_exemplo cadastro_duplo
      = Some out /\
      List.length out = 3%nat) /\
  @executar_enriquecimento_total Plain.plain despesas_exemplo cadastro_duplo
  = Some [mkEnriquecida (Some "11222333000181") (Some "OPERADORA A") (Int 1) (Int 2025)
            (Flt (150 # 1)) "123456" (Some "Medicina de Grupo") (Some "SP");
          mkEnriquecida (Some "44555666000199") (Some "OPERADORA B") (Int 1) (Int 2025)
            (Flt (150 # 1)) "123456" (Some "Autogestao") (Some "RJ");
          mkEnriquecida None None (Int 1) (Int 2025) (Flt (7 # 2)) "999" None None].
Proof.
  split; [reflexivity|]. split; [|vm_compute; reflexivity].
  destruct (enrichment_is_left_join Plain.plain despesas_exemplo cadastro_duplo eq_refl)
    as [rc [out [Hrc [Hrun [_ [_ [_ [_ [_ Hlen]]]]]]]]].
  exists rc, out. split; [exact Hrc|]. split; [exact Hrun|].
  rewrite Hlen. vm_compute in Hrc. injection Hrc as <-. vm_compute. reflexivity.
Defined.

(** C9 as stated does not hold for every registry.  The enricher selects
    the columns CNPJ, MODALIDADE and UF of the registry by name; for a
    registry without the column UF the selection raises, no output is
    written, and the canonical records appear nowhere. *)
Lemma registry_without_region_loses_every_record :
  ~ @todo_registro_aparece Plain.plain despesas_exemplo cadastro_sem_uf.
Proof.
  intros [out [Hrun _]]. vm_compute in Hrun. discriminate Hrun.
Qed.

End EnriquecerFacts.

(* ===================================================================== *)
(** * Theorems: the group-by                                               *)
(* ===================================================================== *)

Module GroupFacts.
Import Agregar AgregarSpec OrderSpec OrderFacts.

Section Generic.
Context {K V : Type}.
Variable cmp : K -> K -> comparison.
Variable na : K -> bool.
Variable op : V -> V -> V.
Hypothesis laws : cmp_laws cmp.

#[local] Abbreviation upsert := (upsert cmp op).
#[local] Abbreviation lookup := (lookup cmp).
#[local] Abbreviation sorted := (sorted_keys cmp).
#[local] Abbreviation step := (fun acc (kv : K * V) => upsert (fst kv) (snd kv) acc).

Lemma eqk_true (a b : K) : eqk cmp a b = true <-> a = b.
Proof.
  unfold eqk. split.
  - destruct (cmp a b) eqn:E; try discriminate. intros _. exact (cmp_eq _ laws _ _ E).
  - intros ->. now rewrite (cmp_refl _ laws).
Qed.

Lemma upsert_fst (k : K) (v : V) (acc : list (K * V)) (x : K * V) :
  In x (upsert k v acc) -> fst x = k \/ exists y, In y acc /\ fst x = fst y.
Proof.
  induction acc as [|[k0 v0] rest IH]; simpl.
  - intros [H|[]]. left. now subst.
  - destruct (cmp k k0) eqn:E; simpl.
    + intros [H|H].
      * right. exists (k0, v0). split; [now left | now subst].
      * right. exists x. split; [now right | reflexivity].
    + intros [H|[H|H]].
      * left. now subst.
      * right. exists x. split; [now left | reflexivity].
      * right. exists x. split; [now right | reflexivity].
    + intros [H|H].
      * right. exists x. split; [now left | reflexivity].
      * destruct (IH H) as [Hk|[y [Hy Hf]]]; [now left|].
        right. exists y. split; [now right | exact Hf].
Qed.

Lemma upsert_sorted (k : K) (v : V) (acc : list (K * V)) :
  sorted acc -> sorted (upsert k v acc).
Proof.
  unfold sorted_keys.
  induction acc as [|[k0 v0] rest IH]; simpl; intros S.
  - constructor; constructor.
  - apply StronglySorted_inv in S. destruct S as [S F].
    destruct (cmp k k0) eqn:E.
    + constructor; [exact S | exact F].
    + constructor; [constructor; assumption|].
      constructor; [exact E|].
      rewrite Forall_forall in *. intros x Hx. simpl.
      eapply (cmp_trans _ laws); [exact E | exact (F x Hx)].
    + constructor; [now apply IH|].
      rewrite Forall_forall in *. intros x Hx. simpl.
      destruct (upsert_fst _ _ _ _ Hx) as [Hk|[y [Hy Hf]]].
      * rewrite Hk. exact (cmp_gt_lt _ laws _ _ E).
      * rewrite Hf. exact (F y Hy).
Qed.

Lemma fold_sorted (rows acc : list (K * V)) :
  sorted acc -> sorted (fold_left step rows acc).
Proof.
  revert acc. induction rows as [|[k v] rows IH]; intros acc S; simpl; [exact S|].
  apply IH. now apply upsert_sorted.
Qed.

Lemma groupby_sorted (rows : list (K * V)) : sorted (groupby cmp na op false rows).
Proof. apply fold_sorted. constructor. Qed.

Lemma lookup_above (k : K) (l : list (K * V)) :
  Forall (fun y => cmp k (fst y) = Lt) l -> lookup k l = None.
Proof.
  induction l as [|[k0 v0] l IH]; simpl; intros F; [reflexivity|].
  inversion F as [|? ? H F']; subst. simpl in H. rewrite H. now apply IH.
Qed.

Lemma sorted_tail_above (k0 : K) (v0 : V) (l : list (K * V)) :
  sorted ((k0, v0) :: l) -> Forall (fun y => cmp k0 (fst y) = Lt) l.
Proof. intros S. apply StronglySorted_inv in S. exact (proj2 S). Qed.

Lemma lookup_upsert (k k' : K) (v : V) (acc : list (K * V)) :
  sorted acc ->
  lookup k' (upsert k v acc)
  = if eqk cmp k' k
    then Some (match lookup k acc with Some a => op a v | None => v end)
    else lookup k' acc.
Proof.
  induction acc as [|[k0 v0] rest IH]; intros S; simpl.
  - unfold eqk. destruct (cmp k' k); reflexivity.
  - pose proof (sorted_tail_above _ _ _ S) as F.
    assert (S' : sorted rest) by (apply StronglySorted_inv in S; exact (proj1 S)).
    destruct (cmp k k0) eqn:E; simpl.
    + apply (cmp_eq _ laws) in E. subst k0. unfold eqk.
      destruct (cmp k' k); reflexivity.
    + unfold eqk. destruct (cmp k' k) eqn:E'; try reflexivity.
      f_equal. rewrite lookup_above; [reflexivity|].
      rewrite Forall_forall in *. intros y Hy.
      eapply (cmp_trans _ laws); [exact E | exact (F y Hy)].
    + rewrite (IH S'). destruct (eqk cmp k' k) eqn:E'.
      * apply eqk_true in E'. subst k'. rewrite E. reflexivity.
      * destruct (cmp k' k0); reflexivity.
Qed.

Lemma vals_cons (k k1 : K) (v1 : V) (rows : list (K * V)) :
  vals cmp k ((k1, v1) :: rows)
  = if eqk cmp k k1 then v1 :: vals cmp k rows else vals cmp k rows.
Proof. unfold vals. simpl. destruct (eqk cmp k k1); reflexivity. Qed.

(** The value a key ends with: the values of its rows, combined in
    row order. *)
Lemma lookup_fold (k : K) (rows acc : list (K * V)) :
  sorted acc ->
  lookup k (fold_left step rows acc) = fold1 op (lookup k acc) (vals cmp k rows).
Proof.
  revert acc. induction rows as [|[k1 v1] rows IH]; intros acc S; simpl; [reflexivity|].
  rewrite IH by now apply upsert_sorted.
  rewrite lookup_upsert by exact S. rewrite vals_cons.
  destruct (eqk cmp k k1) eqn:E; [|reflexivity].
  apply eqk_true in E. subst k1. reflexivity.
Qed.

Lemma lookup_groupby (k : K) (rows : list (K * V)) :
  lookup k (groupby cmp na op false rows) = fold1 op None (vals cmp k rows).
Proof. unfold groupby. rewrite lookup_fold; [reflexivity | constructor]. Qed.

Lemma lookup_In (k : K) (v : V) (l : list (K * V)) :
  lookup k l = Some v -> In (k, v) l.
Proof.
  induction l as [|[k0 v0] l IH]; simpl; [discriminate|].
  destruct (cmp k k0) eqn:E; intros H.
  - apply (cmp_eq _ laws) in E. inversion H; subst. now left.
  - right. now apply IH.
  - right. now apply IH.
Qed.

Lemma In_lookup (k : K) (v : V) (l : list (K * V)) :
  sorted l -> In (k, v) l -> lookup k l = Some v.
Proof.
  induction l as [|[k0 v0] l IH]; simpl; intros S H; [contradiction|].
  pose proof (sorted_tail_above _ _ _ S) as F.
  apply StronglySorted_inv in S. destruct S as [S _].
  destruct H as [H|H].
  - inversion H; subst. now rewrite (cmp_refl _ laws).
  - rewrite Forall_forall in F. specialize (F _ H). simpl in F.
    rewrite (cmp_antisym _ laws), F. simpl. now apply IH.
Qed.

(** A table ordered by key is determined by its lookups. *)
Lemma sorted_lookup_ext (l1 l2 : list (K * V)) :
  sorted l1 -> sorted l2 -> (forall k, lookup k l1 = lookup k l2) -> l1 = l2.
Proof.
  revert l2. induction l1 as [|[k1 v1] t1 IH]; intros [|[k2 v2] t2] S1 S2 H.
  - reflexivity.
  - specialize (H k2). simpl in H. rewrite (cmp_refl _ laws) in H. discriminate.
  - specialize (H k1). simpl in H. rewrite (cmp_refl _ laws) in H. discriminate.
  - pose proof (sorted_tail_above _ _ _ S1) as F1.
    pose proof (sorted_tail_above _ _ _ S2) as F2.
    assert (S1' : sorted t1) by (apply StronglySorted_inv in S1; exact (proj1 S1)).
    assert (S2' : sorted t2) by (apply StronglySorted_inv in S2; exact (proj1 S2)).
    assert (Hk : k1 = k2 /\ v1 = v2).
    { pose proof (H k1) as H1. pose proof (H k2) as H2. simpl in H1, H2.
      rewrite (cmp_refl _ laws) in H1, H2.
      destruct (cmp k1 k2) eqn:E12.
      - apply (cmp_eq _ laws) in E12. subst. inversion H1. auto.
      - symmetry in H1. apply lookup_In in H1.
        rewrite Forall_forall in F2. specialize (F2 _ H1). simpl in F2.
        rewrite (cmp_lt_gt _ laws _ _ E12) in F2. discriminate.
      - rewrite (cmp_gt_lt _ laws _ _ E12) in H2. apply lookup_In in H2.
        rewrite Forall_forall in F1. specialize (F1 _ H2). simpl in F1.
        congruence. }
    destruct Hk; subst k2 v2. f_equal. apply IH; auto.
    intros k. specialize (H k). simpl in H.
    destruct (cmp k k1) eqn:E; auto.
    apply (cmp_eq _ laws) in E. subst k.
    rewrite !lookup_above; auto.
Qed.

Lemma vals_sorted (k : K) (l : list (K * V)) :
  sorted l -> vals cmp k l = option_list (lookup k l).
Proof.
  induction l as [|[k0 v0] l IH]; intros S; [reflexivity|].
  pose proof (sorted_tail_above _ _ _ S) as F.
  apply StronglySorted_inv in S. destruct S as [S _].
  rewrite vals_cons. simpl. unfold eqk. destruct (cmp k k0) eqn:E; auto.
  apply (cmp_eq _ laws) in E. subst k0.
  rewrite (IH S), lookup_above by exact F. reflexivity.
Qed.

Lemma vals_concat (k : K) (ls : list (list (K * V))) :
  vals cmp k (List.concat ls) = List.concat (map (vals cmp k) ls).
Proof.
  unfold vals. induction ls as [|l ls IH]; simpl; [reflexivity|].
  now rewrite filter_app, map_app, IH.
Qed.

Lemma vals_nonempty (k : K) (rows : list (K * V)) :
  In k (map fst rows) <-> vals cmp k rows <> [].
Proof.
  induction rows as [|[k1 v1] rows IH]; simpl.
  - split; [contradiction | intros H; now apply H].
  - rewrite vals_cons. destruct (eqk cmp k k1) eqn:E.
    + apply eqk_true in E. subst. split; [discriminate | auto].
    + rewrite <- IH. split; [|auto]. intros [H|H]; [|exact H].
      subst k1. assert (T : eqk cmp k k = true) by now apply eqk_true. congruence.
Qed.

Lemma fold1_some (a : V) (vs : list V) :
  fold1 op (Some a) vs = Some (fold_left op vs a).
Proof.
  revert a. induction vs as [|v vs IH]; intros a; [reflexivity|]. apply IH.
Qed.

Lemma fold1_cons (v : V) (vs : list V) :
  fold1 op None (v :: vs) = Some (fold_left op vs v).
Proof. apply fold1_some. Qed.

Lemma fold1_none_iff (vs : list V) : fold1 op None vs = None <-> vs = [].
Proof.
  destruct vs as [|v vs]; [split; reflexivity|].
  rewrite fold1_cons. split; discriminate.
Qed.

Lemma fold1_app (o : option V) (l1 l2 : list V) :
  fold1 op o (l1 ++ l2) = fold1 op (fold1 op o l1) l2.
Proof. unfold fold1. apply fold_left_app. Qed.

(** The keys of the result are the keys of the rows. *)
Lemma groupby_keys (k : K) (rows : list (K * V)) :
  In k (map fst (groupby cmp na op false rows)) <-> In k (map fst rows).
Proof.
  rewrite (vals_nonempty k rows). split.
  - intros H. apply in_map_iff in H. destruct H as [[k' v] [Hk Hin]]. simpl in Hk. subst k'.
    apply In_lookup in Hin; [|apply groupby_sorted].
    rewrite lookup_groupby in Hin. intros E. rewrite E in Hin. discriminate.
  - intros H. destruct (vals cmp k rows) as [|v vs] eqn:E; [congruence|].
    pose proof (lookup_groupby k rows) as L. rewrite E, fold1_cons in L.
    apply lookup_In in L. apply in_map_iff. now exists (k, fold_left op vs v).
Qed.

(** Among rows ordered by key, a set of rows that share one key has at
    most one member. *)
Lemma filter_same_key (P : K * V -> bool) (l : list (K * V)) :
  sorted l ->
  (forall x y, In x l -> In y l -> P x = true -> P y = true -> fst x = fst y) ->
  (List.length (filter P l) <= 1)%nat.
Proof.
  induction l as [|a t IH]; intros S H; simpl; [lia|].
  pose proof S as S0.
  apply StronglySorted_inv in S. destruct S as [S F].
  assert (IH' : (List.length (filter P t) <= 1)%nat).
  { apply IH; [exact S|]. intros x y Hx Hy. apply H; now right. }
  destruct (P a) eqn:Pa; [|exact IH'].
  assert (E : filter P t = []).
  { destruct (filter P t) as [|y ys] eqn:E; [reflexivity|].
    assert (Hy : In y (filter P t)) by (rewrite E; now left).
    apply filter_In in Hy. destruct Hy as [Hy Py].
    rewrite Forall_forall in F. specialize (F y Hy).
    rewrite (H a y (or_introl eq_refl) (or_intror Hy) Pa Py) in F.
    rewrite (cmp_refl _ laws) in F. discriminate. }
  rewrite E. simpl. lia.
Qed.

Section Associative.
Hypothesis op_assoc : forall a b c, op (op a b) c = op a (op b c).

Lemma fold_left_shift (a v : V) (vs : list V) :
  op a (fold_left op vs v) = fold_left op vs (op a v).
Proof.
  revert v. induction vs as [|x vs IH]; intros v; simpl; [reflexivity|].
  now rewrite IH, op_assoc.
Qed.

Lemma fold1_collapse (o : option V) (vs : list V) :
  fold1 op o (option_list (fold1 op None vs)) = fold1 op o vs.
Proof.
  destruct vs as [|v vs]; [reflexivity|].
  rewrite fold1_cons. cbn [option_list]. destruct o as [a|].
  - rewrite !fold1_some. simpl. f_equal. apply fold_left_shift.
  - now rewrite !fold1_cons.
Qed.

Lemma fold1_concat_collapse (o : option V) (vss : list (list V)) :
  fold1 op o (List.concat (map (fun vs => option_list (fold1 op None vs)) vss))
  = fold1 op o (List.concat vss).
Proof.
  revert o. induction vss as [|vs vss IH]; intros o; simpl; [reflexivity|].
  now rewrite !fold1_app, fold1_collapse, IH.
Qed.

(** Grouping the concatenated per-chunk groups again gives the groups
    of the concatenated rows. *)
Lemma two_pass (chunks : list (list (K * V))) :
  groupby cmp na op false (List.concat (map (groupby cmp na op false) chunks))
  = groupby cmp na op false (List.concat chunks).
Proof.
  apply sorted_lookup_ext; try apply groupby_sorted.
  intros k. rewrite !lookup_groupby, !vals_concat, map_map.
  rewrite <- (fold1_concat_collapse None (map (vals cmp k) chunks)), map_map.
  f_equal. f_equal. apply map_ext. intros c.
  rewrite vals_sorted by apply groupby_sorted. now rewrite lookup_groupby.
Qed.
End Associative.

End Generic.
End GroupFacts.

(* ===================================================================== *)
(** * Theorems: exact sums                                                 *)
(* ===================================================================== *)

Module SumFacts.
Import Agregar AgregarSpec OrderSpec OrderFacts GroupFacts.

(** Addition of fractions is associative and commutative, with unit 0,
    on the representations themselves. *)
Lemma Qplus_assoc_eq (a b c : Q) : (a + b + c)%Q = (a + (b + c))%Q.
Proof.
  destruct a as [an ad], b as [bn bd], c as [cn cd]. unfold Qplus. simpl. f_equal.
  - rewrite !Pos2Z.inj_mul. ring.
  - symmetry. apply Pos.mul_assoc.
Qed.

Lemma Qplus_comm_eq (a b : Q) : (a + b)%Q = (b + a)%Q.
Proof.
  destruct a as [an ad], b as [bn bd]. unfold Qplus. simpl. f_equal.
  - ring.
  - apply Pos.mul_comm.
Qed.

Lemma Qplus_0_l_eq (a : Q) : (0 + a)%Q = a.
Proof.
  destruct a as [an ad]. unfold Qplus. simpl. f_equal. apply Z.mul_1_r.
Qed.

Lemma Qplus_0_r_eq (a : Q) : (a + 0)%Q = a.
Proof. rewrite Qplus_comm_eq. apply Qplus_0_l_eq. Qed.

Lemma soma_cons (x : Q) (l : list Q) : soma (x :: l) = (x + soma l)%Q.
Proof.
  unfold soma. simpl. rewrite Qplus_0_l_eq.
  rewrite (fold_left_shift Qplus Qplus_assoc_eq), Qplus_0_r_eq. reflexivity.
Qed.

Lemma soma_app (l1 l2 : list Q) : soma (l1 ++ l2) = (soma l1 + soma l2)%Q.
Proof.
  induction l1 as [|x l1 IH]; simpl.
  - unfold soma at 2. simpl. now rewrite Qplus_0_l_eq.
  - now rewrite !soma_cons, IH, Qplus_assoc_eq.
Qed.

Lemma soma_fold1 (v : Q) (vs : list Q) : fold_left Qplus vs v = soma (v :: vs).
Proof. unfold soma. simpl. now rewrite Qplus_0_l_eq. Qed.

Section Totals.
Context {K : Type}.
Variable cmp : K -> K -> comparison.
Variable na : K -> bool.
Hypothesis laws : cmp_laws cmp.
Variable p : K -> bool.

#[local] Abbreviation tot := (fun l : list (K * Q) =>
                       soma (map snd (filter (fun kv => p (fst kv)) l))).

Lemma tot_upsert (k : K) (v : Q) (acc : list (K * Q)) :
  tot (upsert cmp Qplus k v acc) = (tot acc + (if p k then v else 0))%Q.
Proof.
  induction acc as [|[k0 v0] rest IH]; simpl.
  - destruct (p k); simpl; [|reflexivity].
    rewrite soma_cons. apply Qplus_comm_eq.
  - destruct (cmp k k0) eqn:E; simpl.
    + apply (cmp_eq _ laws) in E. subst k0.
      destruct (p k); simpl.
      * rewrite !soma_cons.
        rewrite (Qplus_assoc_eq v0 v), (Qplus_comm_eq v), <- Qplus_assoc_eq. reflexivity.
      * now rewrite Qplus_0_r_eq.
    + destruct (p k), (p k0); simpl; rewrite ?soma_cons, ?Qplus_0_r_eq; try reflexivity.
      * rewrite (Qplus_comm_eq v). reflexivity.
      * apply Qplus_comm_eq.
    + destruct (p k0); simpl.
      * rewrite !soma_cons, IH. apply eq_sym, Qplus_assoc_eq.
      * exact IH.
Qed.

Lemma tot_fold (rows acc : list (K * Q)) :
  tot (fold_left (fun a kv => upsert cmp Qplus (fst kv) (snd kv) a) rows acc)
  = (tot acc + tot rows)%Q.
Proof.
  revert acc. induction rows as [|[k v] rows IH]; intros acc; simpl.
  - now rewrite Qplus_0_r_eq.
  - rewrite IH, tot_upsert. simpl. destruct (p k); simpl.
    + now rewrite soma_cons, Qplus_assoc_eq.
    + now rewrite Qplus_0_r_eq.
Qed.

(** Grouping moves no amount from one set of keys to another. *)
Lemma tot_groupby (rows : list (K * Q)) :
  tot (groupby cmp na Qplus false rows) = tot rows.
Proof. unfold groupby. rewrite tot_fold. simpl. apply Qplus_0_l_eq. Qed.
End Totals.

End SumFacts.

(* ===================================================================== *)
(** * Theorems: script 05                                                  *)
(* ===================================================================== *)

Module AgregarFacts.
Import Agregar AgregarSpec OrderSpec OrderFacts GroupFacts SumFacts.

(** ** Chunks *)

Lemma take_chunks_concat {A : Type} (fuel n : nat) (l : list A) :
  (1 <= n)%nat -> (List.length l <= fuel)%nat ->
  List.concat (take_chunks fuel n l) = l.
Proof.
  intros Hn. revert l. induction fuel as [|fuel IH]; intros l Hl.
  - destruct l; [reflexivity | simpl in Hl; lia].
  - destruct l as [|a l]; [reflexivity|].
    cbn [take_chunks List.concat]. rewrite IH.
    + apply firstn_skipn.
    + rewrite length_skipn. cbn [List.length] in *. lia.
Qed.

Lemma read_chunks_concat {A : Type} (n : nat) (l : list A) :
  (1 <= n)%nat -> List.concat (read_chunks n l) = l.
Proof.
  intros Hn. unfold read_chunks. destruct l as [|a l]; [reflexivity|].
  apply take_chunks_concat; [exact Hn | lia].
Qed.

Lemma read_chunks_cons {A : Type} (n : nat) (l : list A) :
  exists c cs, read_chunks n l = c :: cs.
Proof.
  unfold read_chunks. destruct l as [|a l]; [eauto|]. simpl. eauto.
Qed.

(** ** The sorts *)

Lemma antes_de_total (asc : bool) (x y : Q) :
  Plain.antes_de asc x y = false -> Plain.antes_de asc y x = true.
Proof.
  unfold Plain.antes_de. destruct asc; intros E; apply Qle_bool_iff;
    apply Qlt_le_weak, Qnot_le_lt; intros C; apply Qle_bool_iff in C; congruence.
Qed.

Lemma antes_de_trans (asc : bool) (x y z : Q) :
  Plain.antes_de asc x y = true -> Plain.antes_de asc y z = true ->
  Plain.antes_de asc x z = true.
Proof.
  unfold Plain.antes_de. destruct asc; rewrite !Qle_bool_iff; intros A B;
    eapply Qle_trans; eauto.
Qed.

Lemma inserir_perm (k : AggRow -> Q) (asc : bool) (x : AggRow) (l : list AggRow) :
  Permutation (x :: l) (Plain.inserir k asc x l).
Proof.
  induction l as [|y l IH]; simpl; [apply Permutation_refl|].
  destruct (Plain.antes_de asc (k x) (k y)); [apply Permutation_refl|].
  eapply Permutation_trans; [apply perm_swap | now apply perm_skip].
Qed.

Lemma inserir_sorted (k : AggRow -> Q) (asc : bool) (x : AggRow) (l : list AggRow) :
  StronglySorted (fun a b => Plain.antes_de asc (k a) (k b) = true) l ->
  StronglySorted (fun a b => Plain.antes_de asc (k a) (k b) = true)
                 (Plain.inserir k asc x l).
Proof.
  induction l as [|y l IH]; simpl; intros S.
  - constructor; constructor.
  - destruct (Plain.antes_de asc (k x) (k y)) eqn:E.
    + constructor; [exact S|]. constructor; [exact E|].
      apply StronglySorted_inv in S. destruct S as [_ F].
      rewrite Forall_forall in *. intros z Hz.
      eapply antes_de_trans; [exact E | apply (F z Hz)].
    + apply StronglySorted_inv in S. destruct S as [S F].
      constructor; [now apply IH|].
      rewrite Forall_forall in *. intros z Hz.
      apply (Permutation_in _ (Permutation_sym (inserir_perm k asc x l))) in Hz.
      destruct Hz as [Hz|Hz]; [|now apply F]. subst z.
      now apply antes_de_total.
Qed.

Lemma fold_inserir (k : AggRow -> Q) (asc : bool) (l : list AggRow) :
  Permutation l (fold_right (Plain.inserir k asc) [] l) /\
  StronglySorted (fun a b => Plain.antes_de asc (k a) (k b) = true)
                 (fold_right (Plain.inserir k asc) [] l).
Proof.
  induction l as [|x l [P S]]; simpl.
  - split; constructor.
  - split; [|now apply inserir_sorted].
    eapply Permutation_trans; [apply perm_skip; exact P | apply inserir_perm].
Qed.

Lemma campo_cases (by_ : string) :
  (forall r, campo by_ r = None) \/ exists k, forall r, campo by_ r = Some (k r).
Proof.
  unfold campo.
  destruct (String.eqb by_ "TotalDespesas");
    [right; exists TotalDespesas; reflexivity|].
  destruct (String.eqb by_ "MediaPorTrimestre");
    [right; exists MediaPorTrimestre; reflexivity|].
  destruct (String.eqb by_ "NumTrimestres");
    [right; exists (fun r => inject_Z (Z.of_nat (NumTrimestres r))); reflexivity|].
  now left.
Qed.

Lemma sorted_trivial {A : Type} (R : A -> A -> Prop) (l : list A) :
  (forall a b, R a b) -> StronglySorted R l.
Proof.
  intros H. induction l; constructor; [assumption|].
  apply Forall_forall. intros; apply H.
Qed.

Lemma sorted_impl {A : Type} (R R' : A -> A -> Prop) (l : list A) :
  (forall a b, R a b -> R' a b) -> StronglySorted R l -> StronglySorted R' l.
Proof.
  intros H. induction 1 as [|a l S IH F]; constructor; [assumption|].
  rewrite Forall_forall in *. intros x Hx. apply H, F, Hx.
Qed.

(** The stand-in sort keeps the promise of pandas. *)
Lemma ordenar_contract : pandas_sort Plain.ordenar.
Proof.
  intros by_ asc l. unfold Plain.ordenar.
  destruct l as [|r l]; [split; constructor|].
  set (rows := r :: l).
  destruct (campo_cases by_) as [N | [k K]].
  - rewrite N. cbn [Plain.is_some]. split; [apply Permutation_refl|].
    apply sorted_trivial. intros a b. unfold ordem. now rewrite N.
  - rewrite K. cbn [Plain.is_some]. generalize rows. clear r l rows. intros l.
    destruct (fold_inserir (fun r => match campo by_ r with Some q => q | None => 0 end)
                           asc l) as [P S].
    split; [exact P|].
    eapply sorted_impl; [|exact S].
    intros a b. cbn beta. unfold ordem. rewrite !K. unfold Plain.antes_de.
    destruct asc; now rewrite Qle_bool_iff.
Qed.

(** The promise of pandas, for the call of the script. *)
Lemma contract_of_pandas (sv : string -> bool -> list AggRow -> list AggRow) :
  pandas_sort sv -> sort_contract (sv "TotalDespesas" false).
Proof. intros H l. exact (H "TotalDespesas" false l). Qed.

Lemma estavel_contract : sort_contract (Plain.ordenar "TotalDespesas" false).
Proof. apply contract_of_pandas, ordenar_contract. Qed.

(** ** The statistics of a table of per-quarter totals *)

Lemma vals_singletons (g : Key2) (quarters : list (Key4 * Q)) :
  vals cmp2 g (map (fun kv => (fst (fst kv), [snd kv])) quarters)
  = map (fun x => [x]) (trimestres_de g quarters).
Proof.
  unfold vals, trimestres_de. induction quarters as [|kv qs IH]; [reflexivity|].
  cbn [map filter fst snd].
  match goal with |- context [if ?c then _ else _] => destruct c end;
    cbn [map fst snd]; now rewrite IH.
Qed.

Lemma fold_left_singletons (l acc : list Q) :
  fold_left (@app Q) (map (fun x => [x]) l) acc = acc ++ l.
Proof.
  revert acc. induction l as [|x l IH]; intros acc; simpl.
  - now rewrite app_nil_r.
  - rewrite IH, <- app_assoc. reflexivity.
Qed.

Lemma fold1_singletons (l : list Q) :
  fold1 (@app Q) None (map (fun x => [x]) l)
  = match l with [] => None | _ => Some l end.
Proof.
  destruct l as [|x l]; [reflexivity|]. simpl map.
  rewrite fold1_cons. now rewrite fold_left_singletons.
Qed.

Lemma grupos_lookup (g : Key2) (quarters : list (Key4 * Q)) :
  lookup cmp2 g (groupby cmp2 isna2 (@app Q) false
                         (map (fun kv => (fst (fst kv), [snd kv])) quarters))
  = match trimestres_de g quarters with
    | [] => None
    | _ => Some (trimestres_de g quarters)
    end.
Proof.
  rewrite (lookup_groupby cmp2 isna2 (@app Q) cmp2_laws), vals_singletons.
  apply fold1_singletons.
Qed.

(** The rows of the statistics table: one per (RazaoSocial, UF) that has
    a per-quarter total, computed from those totals. *)
Lemma estatisticas_In {pd : Pandas} (r : AggRow) (quarters : list (Key4 * Q)) :
  In r (estatisticas quarters) <->
  exists g, trimestres_de g quarters <> [] /\ r = agg_row (g, trimestres_de g quarters).
Proof.
  unfold estatisticas. rewrite in_map_iff. split.
  - intros [[g vs] [Hr Hin]]. exists g.
    apply (In_lookup cmp2 cmp2_laws) in Hin;
      [|apply (groupby_sorted cmp2 isna2 (@app Q) cmp2_laws)].
    rewrite grupos_lookup in Hin.
    destruct (trimestres_de g quarters) as [|v vs'] eqn:E; [discriminate|].
    inversion Hin; subst. split; [discriminate | reflexivity].
  - intros [g [Hne Hr]]. exists (g, trimestres_de g quarters). split; [now symmetry|].
    apply (lookup_In cmp2 cmp2_laws). rewrite grupos_lookup.
    destruct (trimestres_de g quarters); [congruence | reflexivity].
Qed.

Section WithPandas.
Context {pd : Pandas}.
Variable sv : string -> bool -> list AggRow -> list AggRow.
Variable tipar : list Bruta -> Bruta -> Linha.

(** ** Two passes against one *)

Lemma reagregar_parcial (cols : list string) (chunks : list (list Linha)) :
  reagregar (map (parcial cols) chunks) = parcial cols (List.concat chunks).
Proof.
  unfold reagregar, parcial.
  rewrite <- (map_map (map (preparar cols)) (groupby cmp4 isna4 Qplus false)).
  rewrite (two_pass cmp4 isna4 Qplus cmp4_laws Qplus_assoc_eq).
  now rewrite concat_map.
Qed.

Lemma lookup_parcial (cols : list string) (rows : list Linha) (k : Key4) :
  lookup cmp4 k (parcial cols rows)
  = match vals cmp4 k (map (preparar cols) rows) with
    | [] => None
    | _ => Some (soma_do_grupo cols k rows)
    end.
Proof.
  unfold parcial.
  rewrite (lookup_groupby cmp4 isna4 Qplus cmp4_laws).
  change (soma_do_grupo cols k rows) with (soma (vals cmp4 k (map (preparar cols) rows))).
  destruct (vals cmp4 k (map (preparar cols) rows)) as [|v vs]; [reflexivity|].
  now rewrite fold1_cons, soma_fold1.
Qed.

Lemma agregar_chunks_cons (cols : list string) (c : list Linha) (cs : list (list Linha)) :
  agregar_chunks sv cols (c :: cs)
  = Some (sv "TotalDespesas" false (estatisticas (parcial cols (List.concat (c :: cs))))).
Proof.
  unfold agregar_chunks. rewrite <- reagregar_parcial. reflexivity.
Qed.

Lemma executar_tabela (n : nat) (ds : Dataset) :
  executar_agregacao sv tipar (S n) (Some ds)
  = Some (sv "TotalDespesas" false (tabela tipar (S n) ds)).
Proof.
  unfold executar_agregacao, tabela. cbn [Nat.ltb Nat.leb].
  destruct (read_chunks_cons (S n) (linhas ds)) as [c [cs E]]. rewrite E.
  reflexivity.
Qed.

(** The two passes over the chunks are one group-by over the rows of
    all chunks, each typed in its chunk. *)
Lemma tabela_tipadas (n : nat) (ds : Dataset) :
  tabela tipar n ds = estatisticas (parcial (colunas ds) (tipadas tipar n ds)).
Proof. unfold tabela, tipadas. now rewrite reagregar_parcial. Qed.

Lemma tabela_ingenua (n : nat) (ds : Dataset) :
  tipos_uniformes tipar n ds ->
  tabela tipar n ds = estatisticas (parcial (colunas ds) (ler_chunk tipar (linhas ds))).
Proof. intros U. rewrite tabela_tipadas, U. reflexivity. Qed.

(** One typed row per line of the file, in the order of the file. *)
Lemma tipadas_length (n : nat) (ds : Dataset) :
  (1 <= n)%nat -> List.length (tipadas tipar n ds) = List.length (linhas ds).
Proof.
  intros Hn. unfold tipadas.
  rewrite <- (read_chunks_concat n (linhas ds) Hn) at 2.
  induction (read_chunks n (linhas ds)) as [|c cs IH]; [reflexivity|].
  cbn [map List.concat]. rewrite !length_app, IH. unfold ler_chunk.
  now rewrite length_map.
Qed.

Lemma tipadas_In (n : nat) (ds : Dataset) (row : Linha) :
  In row (tipadas tipar n ds) <->
  exists c line, In c (read_chunks n (linhas ds)) /\ In line c /\ row = tipar c line.
Proof.
  unfold tipadas. rewrite in_concat. split.
  - intros [l [Hl Hrow]]. apply in_map_iff in Hl. destruct Hl as [c [<- Hc]].
    apply in_map_iff in Hrow. destruct Hrow as [line [<- Hline]]. eauto.
  - intros [c [line [Hc [Hline ->]]]]. exists (ler_chunk tipar c). split.
    + now apply in_map.
    + unfold ler_chunk. now apply in_map.
Qed.

(** Every line of the file is read in some chunk. *)
Lemma linha_em_chunk {A : Type} (n : nat) (l : list A) (x : A) :
  (1 <= n)%nat -> In x l -> exists c, In c (read_chunks n l) /\ In x c.
Proof.
  intros Hn Hx. rewrite <- (read_chunks_concat n l Hn) in Hx.
  apply in_concat in Hx. destruct Hx as [c [Hc Hx]]. eauto.
Qed.

(** ** Rows of the table *)

Lemma parcial_sorted (cols : list string) (rows : list Linha) :
  sorted_keys cmp4 (parcial cols rows).
Proof. apply (groupby_sorted cmp4 isna4 Qplus cmp4_laws). Qed.

Lemma parcial_key (cols : list string) (rows : list Linha) (x : Key4 * Q) :
  In x (parcial cols rows) -> exists r, In r rows /\ fst (preparar cols r) = fst x.
Proof.
  intros H. assert (Hk : In (fst x) (map fst (parcial cols rows))) by now apply in_map.
  unfold parcial in Hk. apply (proj1 (groupby_keys cmp4 isna4 Qplus cmp4_laws _ _)) in Hk.
  apply in_map_iff in Hk. destruct Hk as [kv [Hr Hin]].
  apply in_map_iff in Hin. destruct Hin as [r [Hkv Hin]]. subst kv. eauto.
Qed.

Lemma parcial_has_key (cols : list string) (rows : list Linha) (r : Linha) :
  In r rows -> exists v, In (fst (preparar cols r), v) (parcial cols rows).
Proof.
  intros H.
  assert (Hk : In (fst (preparar cols r)) (map fst (parcial cols rows))).
  { unfold parcial. apply (proj2 (groupby_keys cmp4 isna4 Qplus cmp4_laws _ _)).
    apply in_map. now apply in_map. }
  apply in_map_iff in Hk. destruct Hk as [[k v] [Hk Hin]]. simpl in Hk. subst k. eauto.
Qed.

Lemma eqk2_true (a b : Key2) : eqk cmp2 a b = true <-> a = b.
Proof. apply eqk_true, cmp2_laws. Qed.

(** The total of an output row is the sum over every row of its group. *)
Lemma total_da_operadora (cols : list string) (rows : list Linha) (g : Key2) :
  soma (trimestres_de g (parcial cols rows)) = soma_da_operadora cols g rows.
Proof.
  unfold trimestres_de, soma_da_operadora, parcial.
  apply (tot_groupby cmp4 isna4 cmp4_laws (fun k => eqk cmp2 g (fst k))).
Qed.

Lemma grupo_tem_trimestre (cols : list string) (rows : list Linha) (r : Linha) :
  In r rows -> trimestres_de (grupo cols r) (parcial cols rows) <> [].
Proof.
  intros H. destruct (parcial_has_key cols rows r H) as [v Hv].
  unfold trimestres_de. intros E. apply map_eq_nil in E.
  assert (Hin : In (fst (preparar cols r), v)
                   (filter (fun kv => eqk cmp2 (grupo cols r) (fst (fst kv)))
                           (parcial cols rows))).
  { apply filter_In. split; [exact Hv|]. simpl. now apply eqk2_true. }
  rewrite E in Hin. contradiction.
Qed.

(** A group whose rows all fall in one period has one per-quarter total. *)
Lemma um_trimestre (cols : list string) (rows : list Linha) (g : Key2) :
  (forall r1 r2, In r1 rows -> In r2 rows ->
                 grupo cols r1 = g -> grupo cols r2 = g ->
                 periodo cols r1 = periodo cols r2) ->
  (List.length (trimestres_de g (parcial cols rows)) <= 1)%nat.
Proof.
  intros H. unfold trimestres_de. rewrite length_map.
  apply (filter_same_key cmp4 cmp4_laws); [apply parcial_sorted|].
  intros x y Hx Hy Px Py. apply eqk2_true in Px, Py.
  destruct (parcial_key _ _ _ Hx) as [r1 [H1 E1]].
  destruct (parcial_key _ _ _ Hy) as [r2 [H2 E2]].
  assert (G1 : grupo cols r1 = g) by (unfold grupo; now rewrite E1).
  assert (G2 : grupo cols r2 = g) by (unfold grupo; now rewrite E2).
  specialize (H r1 r2 H1 H2 G1 G2). unfold periodo in H.
  rewrite E1, E2 in H.
  apply injective_projections; [|exact H].
  transitivity g; [symmetry; exact Px | exact Py].
Qed.

Lemma sorted_map {A B : Type} (R : B -> B -> Prop) (f : A -> B) (l : list A) :
  StronglySorted (fun a b => R (f a) (f b)) l -> StronglySorted R (map f l).
Proof.
  induction 1 as [|a l S IH F]; cbn [map]; constructor; [assumption|].
  rewrite Forall_forall in *. intros y Hy. apply in_map_iff in Hy.
  destruct Hy as [x [<- Hx]]. now apply F.
Qed.

Lemma grupo_de_agg_row (g : Key2 * list Q) : grupo_de (agg_row g) = fst g.
Proof. unfold grupo_de, agg_row. cbn. symmetry. apply surjective_pairing. Qed.

(** The statistics table lists the groups in ascending key order,
    whatever the order of the rows it was made from. *)
Lemma estatisticas_em_ordem (quarters : list (Key4 * Q)) :
  StronglySorted (fun a b => cmp2 (grupo_de a) (grupo_de b) = Lt) (estatisticas quarters).
Proof.
  unfold estatisticas. apply sorted_map.
  eapply sorted_impl;
    [|apply (groupby_sorted cmp2 isna2 (@app Q) cmp2_laws)].
  intros a b H. cbn beta. now rewrite !grupo_de_agg_row.
Qed.

End WithPandas.
End AgregarFacts.
Module AgregarTheorems.
Import Agregar AgregarSpec OrderSpec OrderFacts GroupFacts SumFacts AgregarFacts.

(** C1. Summing per chunk and then summing the concatenated partial
    sums again gives, for every way of cutting rows into chunks, the
    table obtained by grouping all those rows at once: the same keys in
    the same order, each with the sum of the expense values of all the
    rows of its group.  The output of the chunked run is therefore the
    output of the whole-dataset aggregation whenever every line is typed
    in its chunk as it is typed in the whole file, and two chunk sizes
    that type the lines alike give the same output.  With chunks of two
    rows, a group of three rows worth 10, 20 and 30 is split into
    partial sums 30 and 30 and ends with 60.

    The reader is called without column types, so the condition can
    fail, and then the chunked run is not the whole-dataset aggregation.
    In a file whose lines hold the quarters 1, x and 1, read in chunks
    of two, the first chunk has the quarter column as text and the
    second as an integer: the period (A, SP, 2025, 1) gets the two
    entries 20 and 10 where the whole file gives one entry of 30, and no
    sort makes the two outputs equal. *)
Theorem chunked_sums_and_chunk_typing :
  (forall (pd : Pandas) (sv : string -> bool -> list AggRow -> list AggRow)
          (tipar : list Bruta -> Bruta -> Linha),
      (forall cols chunks,
          reagregar (map (parcial cols) chunks) = parcial cols (List.concat chunks)) /\
      (forall cols chunks k,
          lookup cmp4 k (reagregar (map (parcial cols) chunks))
          = match vals cmp4 k (map (preparar cols) (List.concat chunks)) with
            | [] => None
            | _ => Some (soma_do_grupo cols k (List.concat chunks))
            end) /\
      (forall n ds,
          tipos_uniformes tipar (S n) ds -> chunks_nao_importam tipar sv (S n) ds) /\
      (forall n m ds,
          tipadas tipar (S n) ds = tipadas tipar (S m) ds ->
          executar_agregacao sv tipar (S n) (Some ds)
          = executar_agregacao sv tipar (S m) (Some ds))) /\
  map (@parcial Plain.plain todas)
      (map (ler_chunk Plain.tipar) (read_chunks 2 (linhas dividido)))
  = [[((KStr "A", KStr "SP"), (KNum 2025, KNum 1), 30 # 1)];
     [((KStr "A", KStr "SP"), (KNum 2025, KNum 1), 30 # 1);
      ((KStr "A", KStr "SP"), (KNum 2025, KNum 2), 40 # 1)];
     [((KStr "B", KStr "RJ"), (KNum 2025, KNum 1), 5 # 1)]] /\
  reagregar (map (@parcial Plain.plain todas)
                 (map (ler_chunk Plain.tipar) (read_chunks 2 (linhas dividido))))
  = [((KStr "A", KStr "SP"), (KNum 2025, KNum 1), 60 # 1);
     ((KStr "A", KStr "SP"), (KNum 2025, KNum 2), 40 # 1);
     ((KStr "B", KStr "RJ"), (KNum 2025, KNum 1), 5 # 1)] /\
  tipos_uniformes Plain.tipar 2 dividido /\
  map Trimestre (tipadas Plain.tipar 2 misto) = [KStr "1"; KStr "x"; KNum 1] /\
  map Trimestre (tipadas_inteiro Plain.tipar misto) = [KStr "1"; KStr "x"; KStr "1"] /\
  reagregar (map (@parcial Plain.plain todas)
                 (map (ler_chunk Plain.tipar) (read_chunks 2 (linhas misto))))
  = [((KStr "A", KStr "SP"), (KNum 2025, KNum 1), 20 # 1);
     ((KStr "A", KStr "SP"), (KNum 2025, KStr "1"), 10 # 1);
     ((KStr "B", KStr "RJ"), (KNum 2025, KStr "x"), 5 # 1)] /\
  @parcial Plain.plain todas (tipadas_inteiro Plain.tipar misto)
  = [((KStr "A", KStr "SP"), (KNum 2025, KStr "1"), 30 # 1);
     ((KStr "B", KStr "RJ"), (KNum 2025, KStr "x"), 5 # 1)] /\
  (forall sv : string -> bool -> list AggRow -> list AggRow,
      (forall l, Permutation l (sv "TotalDespesas" false l)) ->
      ~ @chunks_nao_importam Plain.plain Plain.tipar sv 2 misto).
Proof.
  split; [|repeat split; try (vm_compute; reflexivity)].
  - intros pd sv tipar. split; [|split; [|split]].
    + apply reagregar_parcial.
    + intros cols chunks k. rewrite reagregar_parcial. apply lookup_parcial.
    + intros n ds U. unfold chunks_nao_importam.
      rewrite executar_tabela, (tabela_ingenua _ _ _ U). reflexivity.
    + intros n m ds E. rewrite !executar_tabela, !tabela_tipadas, E. reflexivity.
  - intros sv P H. unfold chunks_nao_importam in H.
    rewrite executar_tabela in H. unfold agregacao_ingenua in H.
    injection H as H.
    set (A2 := mkAggRow (KStr "A") (KStr "SP") (30 # 1) (30 # 2)
                        (desvio_padrao [20 # 1; 10 # 1]) 2).
    assert (T2 : In A2 (@tabela Plain.plain Plain.tipar 2 misto))
      by (vm_compute; left; reflexivity).
    apply (Permutation_in _ (P _)) in T2. rewrite H in T2.
    apply (Permutation_in _ (Permutation_sym (P _))) in T2.
    vm_compute in T2. destruct T2 as [T2|[T2|[]]]; discriminate T2.
Qed.

(** C7. In the output, a (RazaoSocial, UF) group whose rows, as they are
    read, all fall in one (Ano, Trimestre) period has NumTrimestres equal
    to 1 and a null standard deviation: the sample deviation of a single
    total is NaN, not zero.

    Rows are compared as each chunk types them.  In the file with the
    quarters 1, x and 1, every line of operator A holds the same year and
    the same quarter; read at once, A has one quarter and a null
    deviation, but read in chunks of two its quarter is the text 1 in the
    first chunk and the integer 1 in the second, and A comes out with two
    quarters, mean 15 and the deviation of 20 and 10. *)
Theorem single_period_has_null_deviation :
  (forall (pd : Pandas) (sv : string -> bool -> list AggRow -> list AggRow)
          (tipar : list Bruta -> Bruta -> Linha),
      sort_contract (sv "TotalDespesas" false) ->
      forall n ds out r,
        executar_agregacao sv tipar (S n) (Some ds) = Some out ->
        In r out ->
        (forall r1 r2, In r1 (tipadas tipar (S n) ds) -> In r2 (tipadas tipar (S n) ds) ->
                       grupo (colunas ds) r1 = (a_RazaoSocial r, a_UF r) ->
                       grupo (colunas ds) r2 = (a_RazaoSocial r, a_UF r) ->
                       periodo (colunas ds) r1 = periodo (colunas ds) r2) ->
        NumTrimestres r = 1%nat /\ DesvioPadraoPorTrimestre r = DesvioNaN) /\
  (forall l1 l2, In l1 (linhas misto) -> In l2 (linhas misto) ->
                 b_RazaoSocial l1 = Some "A" -> b_RazaoSocial l2 = Some "A" ->
                 b_UF l1 = b_UF l2 /\ b_Ano l1 = b_Ano l2 /\
                 b_Trimestre l1 = b_Trimestre l2) /\
  @agregacao_ingenua Plain.plain Plain.ordenar Plain.tipar misto
  = [mkAggRow (KStr "A") (KStr "SP") (30 # 1) (30 # 1) DesvioNaN 1;
     mkAggRow (KStr "B") (KStr "RJ") (5 # 1) (5 # 1) DesvioNaN 1] /\
  @executar_agregacao Plain.plain Plain.ordenar Plain.tipar 2 (Some misto)
  = Some [mkAggRow (KStr "A") (KStr "SP") (30 # 1) (30 # 2)
                   (desvio_padrao [20 # 1; 10 # 1]) 2;
          mkAggRow (KStr "B") (KStr "RJ") (5 # 1) (5 # 1) DesvioNaN 1] /\
  (exists v, desvio_padrao [20 # 1; 10 # 1] = DesvioRaiz v /\ (v == 50 # 1)%Q).
Proof.
  split; [|split; [|split; [|split]]].
  - intros pd sv tipar C n ds out r Hrun Hin Hper.
    rewrite executar_tabela, tabela_tipadas in Hrun.
    inversion Hrun; subst out; clear Hrun.
    apply (Permutation_in _ (Permutation_sym (proj1 (C _)))) in Hin.
    apply estatisticas_In in Hin. destruct Hin as [g [Hne Hr]].
    assert (Hg : (a_RazaoSocial r, a_UF r) = g)
      by (subst r; simpl; symmetry; apply surjective_pairing).
    rewrite Hg in Hper.
    pose proof (um_trimestre (colunas ds) (tipadas tipar (S n) ds) g Hper) as L.
    destruct (trimestres_de g (parcial (colunas ds) (tipadas tipar (S n) ds)))
      as [|v [|v' vs]] eqn:E.
    + congruence.
    + subst r. split; reflexivity.
    + simpl in L. lia.
  - intros l1 l2 H1 H2. simpl in H1, H2.
    repeat (destruct H1 as [H1|H1]; [subst l1|]); try contradiction;
      repeat (destruct H2 as [H2|H2]; [subst l2|]); try contradiction;
      cbn; intros; try discriminate; repeat split.
  - vm_compute. reflexivity.
  - vm_compute. reflexivity.
  - eexists. split; [reflexivity|]. vm_compute. reflexivity.
Qed.

Lemma single_period_has_null_deviation_witness :
  sort_contract (Plain.ordenar "TotalDespesas" false) /\
  exists out,
    @executar_agregacao Plain.plain Plain.ordenar Plain.tipar 2 (Some dividido) = Some out /\
    In (mkAggRow (KStr "B") (KStr "RJ") (5 # 1) (5 # 1) DesvioNaN 1) out /\
    NumTrimestres (mkAggRow (KStr "B") (KStr "RJ") (5 # 1) (5 # 1) DesvioNaN 1) = 1%nat /\
    DesvioPadraoPorTrimestre (mkAggRow (KStr "B") (KStr "RJ") (5 # 1) (5 # 1) DesvioNaN 1)
    = DesvioNaN.
Proof.
  split; [exact estavel_contract|].
  eexists. split; [vm_compute; reflexivity|].
  split; [right; left; reflexivity|].
  eapply (proj1 single_period_has_null_deviation Plain.plain Plain.ordenar Plain.tipar
                estavel_contract 1%nat dividido).
  - vm_compute. reflexivity.
  - right. left. reflexivity.
  - intros r1 r2 H1 H2. vm_compute in H1, H2.
    repeat (destruct H1 as [H1|H1]; [subst r1|]); try contradiction;
      repeat (destruct H2 as [H2|H2]; [subst r2|]); try contradiction;
      vm_compute; intros; try reflexivity; discriminate.
Defined.

(** C10. No row is lost to a null key.  Every line of the file is read in
    a chunk, and whatever its grouping cells hold there, its
    (RazaoSocial, UF) group is in the output; the total of every output
    row is the sum of the expense values of all the rows of its group.
    For a file without the UF column and with a blank name the output has
    the groups (null, null) and ("A", null) with totals 10 and 7, where a
    group-by that dropped null keys would have kept no row at all. *)
Theorem null_keys_are_kept :
  (forall (pd : Pandas) (sv : string -> bool -> list AggRow -> list AggRow)
          (tipar : list Bruta -> Bruta -> Linha),
      sort_contract (sv "TotalDespesas" false) ->
      forall n ds out,
        executar_agregacao sv tipar (S n) (Some ds) = Some out ->
        (forall line, In line (linhas ds) ->
           exists c, In c (read_chunks (S n) (linhas ds)) /\ In line c) /\
        (forall c line, In c (read_chunks (S n) (linhas ds)) -> In line c ->
           In (tipar c line) (tipadas tipar (S n) ds)) /\
        (forall row, In row (tipadas tipar (S n) ds) ->
           exists r, In r out /\
                     (a_RazaoSocial r, a_UF r) = grupo (colunas ds) row /\
                     TotalDespesas r
                     = soma_da_operadora (colunas ds) (grupo (colunas ds) row)
                                         (tipadas tipar (S n) ds)) /\
        (forall r, In r out ->
           TotalDespesas r
           = soma_da_operadora (colunas ds) (a_RazaoSocial r, a_UF r)
                               (tipadas tipar (S n) ds))) /\
  @executar_agregacao Plain.plain Plain.ordenar Plain.tipar 1 (Some sem_uf)
  = Some [mkAggRow KNaN KNaN (10 # 1) (10 # 1) DesvioNaN 1;
          mkAggRow (KStr "A") KNaN (7 # 1) (7 # 1) DesvioNaN 1] /\
  groupby cmp4 isna4 Qplus true
          (map (@preparar Plain.plain (colunas sem_uf)) (tipadas Plain.tipar 1 sem_uf))
  = [].
Proof.
  split; [|split; vm_compute; reflexivity].
  intros pd sv tipar C n ds out Hrun.
  rewrite executar_tabela, tabela_tipadas in Hrun.
  inversion Hrun; subst out; clear Hrun.
  split; [|split; [|split]].
  - intros line Hline. apply linha_em_chunk; [lia | exact Hline].
  - intros c line Hc Hline. apply tipadas_In. eauto.
  - intros row Hrow. set (g := grupo (colunas ds) row).
    exists (agg_row (g, trimestres_de g (parcial (colunas ds) (tipadas tipar (S n) ds)))).
    split; [|split].
    + apply (Permutation_in _ (proj1 (C _))). apply estatisticas_In.
      exists g. split; [now apply grupo_tem_trimestre | reflexivity].
    + simpl. symmetry. apply surjective_pairing.
    + simpl. apply total_da_operadora.
  - intros r Hin.
    apply (Permutation_in _ (Permutation_sym (proj1 (C _)))) in Hin.
    apply estatisticas_In in Hin. destruct Hin as [g [Hne Hr]]. subst r. simpl.
    rewrite <- surjective_pairing. apply total_da_operadora.
Qed.

Lemma null_keys_are_kept_witness :
  sort_contract (Plain.ordenar "TotalDespesas" false) /\
  exists r,
    In r [mkAggRow KNaN KNaN (10 # 1) (10 # 1) DesvioNaN 1;
          mkAggRow (KStr "A") KNaN (7 # 1) (7 # 1) DesvioNaN 1] /\
    (a_RazaoSocial r, a_UF r) = (KNaN, KNaN) /\
    TotalDespesas r = (10 # 1)%Q.
Proof.
  split; [exact estavel_contract|].
  destruct (proj1 null_keys_are_kept Plain.plain Plain.ordenar Plain.tipar estavel_contract
                  0%nat sem_uf _ eq_refl) as [_ [_ [H _]]].
  destruct (H (mkLinha KNaN (KStr "ignored") (KNum 2025) (KNum 1) (Int 10))
              (or_introl eq_refl)) as [r [Hin [Hg Ht]]].
  exists r. split; [exact Hin | split; [exact Hg | exact Ht]].
Defined.

(** C6 as amended. [sort_values] is called on the column TotalDespesas
    with [ascending=False]: with what pandas promises of it for every
    column and direction, the output holds the rows of the statistics
    table ordered by TotalDespesas descending.  That table lists the
    groups in ascending (RazaoSocial, UF) order whatever the order of the
    input lines, so the order of rows with equal totals is what the sort
    makes of the key order, not the input order.  For three operators
    with totals 300, 100 and 200 the rows come out in the order 300, 200,
    100. *)
Theorem output_sorted_descending :
  forall (pd : Pandas) (sv : string -> bool -> list AggRow -> list AggRow)
         (tipar : list Bruta -> Bruta -> Linha),
    pandas_sort sv ->
    (forall n ds out,
        executar_agregacao sv tipar n (Some ds) = Some out ->
        StronglySorted desc out /\
        Permutation (tabela tipar n ds) out /\
        StronglySorted (fun a b => cmp2 (grupo_de a) (grupo_de b) = Lt)
                       (tabela tipar n ds)) /\
    option_map (map resumo) (executar_agregacao sv Plain.tipar 2 (Some tres_operadoras))
    = Some [(KStr "A", 300 # 1, 1%nat); (KStr "C", 200 # 1, 1%nat); (KStr "B", 100 # 1, 1%nat)].
Proof.
  intros pd sv tipar C. split.
  - intros n ds out Hrun. destruct n as [|n]; [discriminate|].
    rewrite executar_tabela in Hrun. injection Hrun as <-.
    destruct (C "TotalDespesas" false (tabela tipar (S n) ds)) as [P S].
    split; [exact S | split; [exact P|]].
    rewrite tabela_tipadas. apply estatisticas_em_ordem.
  - rewrite executar_tabela.
    set (A := mkAggRow (KStr "A") (KStr "SP") (300 # 1) (300 # 1) DesvioNaN 1).
    set (B := mkAggRow (KStr "B") (KStr "RJ") (100 # 1) (100 # 1) DesvioNaN 1).
    set (Cc := mkAggRow (KStr "C") (KStr "MG") (200 # 1) (200 # 1) DesvioNaN 1).
    assert (T : tabela Plain.tipar 2 tres_operadoras = [A; B; Cc]) by (vm_compute; reflexivity).
    rewrite T. destruct (C "TotalDespesas" false [A; B; Cc]) as [P S].
    assert (E : sv "TotalDespesas" false [A; B; Cc] = [A; Cc; B]).
    { apply (sorted_perm_unique desc).
      - intros x y Hx Hy Hxy Hyx.
        apply (Permutation_in _ (Permutation_sym P)) in Hx, Hy.
        simpl in Hx, Hy.
        destruct Hx as [Hx|[Hx|[Hx|[]]]], Hy as [Hy|[Hy|[Hy|[]]]]; subst x y;
          try reflexivity; exfalso; unfold desc, Qle in Hxy, Hyx; simpl in Hxy, Hyx; lia.
      - exact S.
      - repeat constructor; unfold desc, Qle; simpl; lia.
      - eapply Permutation_trans; [apply Permutation_sym; exact P|].
        apply perm_skip, perm_swap. }
    rewrite E. reflexivity.
Qed.

Lemma output_sorted_descending_witness :
  pandas_sort Plain.ordenar /\
  option_map (map resumo) (@executar_agregacao Plain.plain Plain.ordenar Plain.tipar 2
                                               (Some tres_operadoras))
  = Some [(KStr "A", 300 # 1, 1%nat); (KStr "C", 200 # 1, 1%nat); (KStr "B", 100 # 1, 1%nat)].
Proof.
  split; [exact ordenar_contract|].
  exact (proj2 (output_sorted_descending Plain.plain Plain.ordenar Plain.tipar
                                         ordenar_contract)).
Defined.

(** C6 as stated does not hold, whatever [sort_values] does with equal
    totals.  Two operators A and B have the same total.  In one file the
    line of A comes first, in the other the line of B; the group-by lists
    the groups in key order, so both runs hand the same table to the
    sort and write the same output, which cannot follow the input order
    of both files.  No function that returns the rows it is given keeps
    rows with equal totals in input order on both. *)
Lemma ties_do_not_follow_input_order :
  ~ (exists sv : string -> bool -> list AggRow -> list AggRow,
        (forall l, Permutation l (sv "TotalDespesas" false l)) /\
        @ordem_com_empates Plain.plain Plain.tipar sv 1 empate /\
        @ordem_com_empates Plain.plain Plain.tipar sv 1 empate_invertido).
Proof.
  intros [sv [P [H1 H2]]].
  set (A := mkAggRow (KStr "A") (KStr "SP") (100 # 1) (100 # 1) DesvioNaN 1).
  set (B := mkAggRow (KStr "B") (KStr "RJ") (100 # 1) (100 # 1) DesvioNaN 1).
  assert (T1 : @tabela Plain.plain Plain.tipar 1 empate = [A; B])
    by (vm_compute; reflexivity).
  assert (T2 : @tabela Plain.plain Plain.tipar 1 empate_invertido = [A; B])
    by (vm_compute; reflexivity).
  specialize (H1 (sv "TotalDespesas" false [A; B])).
  specialize (H2 (sv "TotalDespesas" false [A; B])).
  rewrite executar_tabela, T1 in H1. rewrite executar_tabela, T2 in H2.
  destruct (H1 eq_refl) as [_ K1]. destruct (H2 eq_refl) as [_ K2]. clear H1 H2.
  destruct (Permutation_length_2_inv (P [A; B])) as [E|E]; rewrite E in K1, K2.
  - assert (Hab : antes A B [A; B]) by (exists [], [], []; reflexivity).
    destruct (K2 A B Hab (Qeq_refl _)) as [l1 [r [l2 [Hr [Hg Hl]]]]].
    vm_compute in Hr.
    destruct l1 as [|x l1]; cbn [app] in Hr.
    + injection Hr as Hr _. subst r. vm_compute in Hg. discriminate Hg.
    + injection Hr as Hx _. subst x.
      apply (Hl _ (or_introl eq_refl)). vm_compute. reflexivity.
  - assert (Hba : antes B A [B; A]) by (exists [], [], []; reflexivity).
    destruct (K1 B A Hba (Qeq_refl _)) as [l1 [r [l2 [Hr [Hg Hl]]]]].
    vm_compute in Hr.
    destruct l1 as [|x l1]; cbn [app] in Hr.
    + injection Hr as Hr _. subst r. vm_compute in Hg. discriminate Hg.
    + injection Hr as Hx _. subst x.
      apply (Hl _ (or_introl eq_refl)). vm_compute. reflexivity.
Qed.

End AgregarTheorems.

(* ===================================================================== *)
(** * Further properties: the matcher and the period of an archive         *)
(* ===================================================================== *)

Module ReFacts.
Import Re ReSpec.

Lemma firstn_matched {A : Type} (w rest : list A) :
  firstn (List.length (w ++ rest) - List.length rest) (w ++ rest) = w.
Proof.
  rewrite length_app, Nat.add_sub. rewrite firstn_app, Nat.sub_diag, firstn_all.
  simpl. apply app_nil_r.
Qed.

(** Whatever the matcher returns comes from a match of the pattern on a
    prefix of the text, followed by the continuation on the rest. *)
Lemma rmatch_sound {R : Type} (r : regex) :
  forall (s : list ascii) (caps : captures) (k : list ascii -> captures -> option R) (x : R),
    rmatch r s caps k = Some x ->
    exists w rest caps', s = w ++ rest /\ matches r w rest caps caps' /\
                         k rest caps' = Some x.
Proof.
  induction r as [p|r1 IH1 r2 IH2|r1 IH1 r2 IH2|n r IH|n r IH|i r IH|];
    intros s caps k x H; simpl in H.
  - destruct s as [|a s]; [discriminate|]. destruct (p a) eqn:E; [|discriminate].
    exists [a], s, caps. repeat split; auto. now constructor.
  - apply IH1 in H. destruct H as (w1 & rest1 & c1 & -> & M1 & H).
    apply IH2 in H. destruct H as (w2 & rest & c2 & -> & M2 & H).
    exists (w1 ++ w2), rest, c2. rewrite app_assoc. repeat split; auto.
    econstructor; eauto.
  - destruct (rmatch r1 s caps k) as [y|] eqn:E.
    + inversion H; subst y. apply IH1 in E. destruct E as (w & rest & c' & -> & M1 & E).
      exists w, rest, c'. repeat split; auto. now apply MAltL.
    + apply IH2 in H. destruct H as (w & rest & c' & -> & M1 & H).
      exists w, rest, c'. repeat split; auto. now apply MAltR.
  - revert s caps H. induction n as [|n IHn]; intros s caps H.
    + exists [], s, caps. repeat split; auto. constructor.
    + apply IH in H. destruct H as (w1 & rest1 & c1 & -> & M1 & H).
      apply IHn in H. destruct H as (w2 & rest & c2 & -> & M2 & H).
      exists (w1 ++ w2), rest, c2. rewrite app_assoc. repeat split; auto.
      econstructor; eauto.
  - revert s caps H. induction n as [|n IHn]; intros s caps H.
    + exists [], s, caps. repeat split; auto. constructor.
    + match type of H with
      | match ?m with _ => _ end = _ => destruct m as [y|] eqn:E
      end.
      * inversion H; subst y. apply IH in E. destruct E as (w1 & rest1 & c1 & -> & M1 & E).
        apply IHn in E. destruct E as (w2 & rest & c2 & -> & M2 & E).
        exists (w1 ++ w2), rest, c2. rewrite app_assoc. repeat split; auto.
        econstructor; eauto.
      * exists [], s, caps. repeat split; auto. constructor.
  - apply IH in H. destruct H as (w & rest & c' & -> & M1 & H).
    rewrite firstn_matched in H.
    exists w, rest, ((i, w) :: c'). repeat split; auto. now constructor.
  - destruct s as [|a [|b s]].
    + exists [], [], caps. repeat split; auto. constructor. now left.
    + destruct (Ascii.eqb a newline) eqn:E; [|discriminate].
      apply Ascii.eqb_eq in E. subst a.
      exists [], [newline], caps. repeat split; auto. constructor. now right.
    + discriminate.
Qed.

(** A successful search is a match somewhere in the text. *)
Lemma searchl_sound (r : regex) (s : list ascii) (m : captures) :
  searchl r s = Some m ->
  exists pre w rest, s = pre ++ w ++ rest /\ matches r w rest [] m.
Proof.
  induction s as [|a s IH]; simpl.
  - destruct (rmatch r [] [] (fun _ c => Some c)) as [c|] eqn:E; [|discriminate].
    intros H; inversion H; subst c. apply rmatch_sound in E.
    destruct E as (w & rest & c' & Hs & M & Hk). inversion Hk; subst c'.
    exists [], w, rest. auto.
  - destruct (rmatch r (a :: s) [] (fun _ c => Some c)) as [c|] eqn:E.
    + intros H; inversion H; subst c. apply rmatch_sound in E.
      destruct E as (w & rest & c' & Hs & M & Hk). inversion Hk; subst c'.
      exists [], w, rest. auto.
    + intros H. apply IH in H. destruct H as (pre & w & rest & -> & M).
      exists (a :: pre), w, rest. auto.
Qed.

End ReFacts.

Module PeriodoMore.
Import Re ReSpec ReFacts Periodo.

Ltac inv_matches :=
  repeat match goal with
  | H : matches (Cat _ _) _ _ _ _ |- _ => inversion H; subst; clear H
  | H : matches (Grp _ _) _ _ _ _ |- _ => inversion H; subst; clear H
  | H : matches (Times _ _) _ _ _ _ |- _ => inversion H; subst; clear H
  | H : matches (Upto _ _) _ _ _ _ |- _ => inversion H; subst; clear H
  | H : matches (Alt _ _) _ _ _ _ |- _ => inversion H; subst; clear H
  | H : matches (Cls _) _ _ _ _ |- _ => inversion H; subst; clear H
  | H : matches Eos _ _ _ _ |- _ => inversion H; subst; clear H
  end.

Lemma digit_val_digit (c : ascii) :
  Text.is_digit c = true -> (0 <= Text.digit_val c <= 9)%Z.
Proof.
  unfold Text.is_digit, Text.in_range, Text.digit_val.
  change (Text.code "0") with 48%nat. change (Text.code "9") with 57%nat.
  intros H. apply andb_true_iff in H. destruct H as [H1 H2].
  apply Nat.leb_le in H1. apply Nat.leb_le in H2. lia.
Qed.

Lemma digit_val_q14 (c : ascii) :
  Text.in_range "1" "4" c = true -> (1 <= Text.digit_val c <= 4)%Z.
Proof.
  unfold Text.in_range, Text.digit_val.
  change (Text.code "1") with 49%nat. change (Text.code "4") with 52%nat.
  intros H. apply andb_true_iff in H. destruct H as [H1 H2].
  apply Nat.leb_le in H1. apply Nat.leb_le in H2. lia.
Qed.

Lemma q14_is_digit (c : ascii) :
  Text.in_range "1" "4" c = true -> Text.is_digit c = true.
Proof.
  unfold Text.is_digit, Text.in_range.
  change (Text.code "1") with 49%nat. change (Text.code "4") with 52%nat.
  change (Text.code "0") with 48%nat. change (Text.code "9") with 57%nat.
  intros H. apply andb_true_iff in H. destruct H as [H1 H2].
  apply Nat.leb_le in H1. apply Nat.leb_le in H2.
  apply andb_true_iff. split; apply Nat.leb_le; lia.
Qed.

Ltac digit_bounds :=
  repeat match goal with
  | H : Text.is_digit ?c = true |- _ => apply digit_val_digit in H
  | H : Text.in_range "1" "4" ?c = true |- _ => apply digit_val_q14 in H
  end.

(** The captures of a match of the first pattern: a quarter digit and
    four year digits; the match starts with a digit. *)
Lemma pat_qTyyyy_groups (w rest : list ascii) (m : captures) :
  matches pat_qTyyyy w rest [] m ->
  (1 <= Text.int_of_digits (group 1 m) <= 4)%Z /\
  (0 <= Text.int_of_digits (group 2 m) <= 9999)%Z /\
  exists c w', w = c :: w' /\ Text.is_digit c = true.
Proof.
  unfold pat_qTyyyy, q14, d, lit_i. intros M. inv_matches.
  split; [|split].
  - digit_bounds; unfold Text.int_of_digits; cbn [group Nat.eqb app fold_left firstn skipn]; lia.
  - digit_bounds; unfold Text.int_of_digits; cbn [group Nat.eqb app fold_left firstn skipn]; lia.
  - eexists _, _. split; [reflexivity|]. now apply q14_is_digit.
Qed.

Lemma pat_yyyy_q_groups (w rest : list ascii) (m : captures) :
  matches pat_yyyy_q w rest [] m ->
  (0 <= Text.int_of_digits (group 1 m) <= 9999)%Z /\
  (1 <= Text.int_of_digits (group 2 m) <= 4)%Z /\
  exists c w', w = c :: w' /\ Text.is_digit c = true.
Proof.
  unfold pat_yyyy_q, q14, d. intros M. inv_matches.
  all: (split; [|split];
        [ digit_bounds; unfold Text.int_of_digits; cbn [group Nat.eqb app fold_left firstn skipn]; lia
        | digit_bounds; unfold Text.int_of_digits; cbn [group Nat.eqb app fold_left firstn skipn]; lia
        | eexists _, _; split; [reflexivity|assumption] ]).
Qed.

Lemma pat_yyyymm_groups (w rest : list ascii) (m : captures) :
  matches pat_yyyymm w rest [] m ->
  (0 <= Text.int_of_digits (firstn 4 (group 1 m)) <= 9999)%Z /\
  exists c w', w = c :: w' /\ Text.is_digit c = true.
Proof.
  unfold pat_yyyymm, d. intros M. inv_matches. split.
  - digit_bounds; unfold Text.int_of_digits; cbn [group Nat.eqb app fold_left firstn skipn]; lia.
  - eexists _, _. split; [reflexivity|assumption].
Qed.

Lemma search_sound (r : regex) (name : string) (m : captures) :
  search r name = Some m ->
  exists pre w rest, Text.chars name = pre ++ w ++ rest /\ matches r w rest [] m.
Proof. apply searchl_sound. Qed.

Lemma extract_range (name : string) (y q : Z) :
  _extract_year_quarter_from_name name = Some (y, q) ->
  (1 <= q <= 4)%Z /\ (0 <= y <= 9999)%Z.
Proof.
  unfold _extract_year_quarter_from_name.
  destruct (search pat_qTyyyy name) as [m1|] eqn:E1.
  { intros H. inversion H; subst. apply search_sound in E1.
    destruct E1 as (pre & w & rest & _ & M).
    apply pat_qTyyyy_groups in M. tauto. }
  destruct (search pat_yyyy_q name) as [m2|] eqn:E2.
  { intros H. inversion H; subst. apply search_sound in E2.
    destruct E2 as (pre & w & rest & _ & M).
    apply pat_yyyy_q_groups in M. tauto. }
  destruct (search pat_yyyymm name) as [m3|] eqn:E3; [|discriminate].
  cbv zeta.
  set (mon := Text.int_of_digits (firstn 2 (skipn 4 (group 1 m3)))).
  set (yr := Text.int_of_digits (firstn 4 (group 1 m3))).
  destruct ((1 <=? mon)%Z && (mon <=? 12)%Z) eqn:Hm; [|discriminate].
  intros H. injection H as <- <-. apply search_sound in E3.
  destruct E3 as (pre & w & rest & _ & M).
  apply pat_yyyymm_groups in M. destruct M as [Hy _].
  apply andb_true_iff in Hm. destruct Hm as [H1 H2].
  apply Z.leb_le in H1. apply Z.leb_le in H2.
  split; [|exact Hy].
  Z.to_euclidean_division_equations. lia.
Qed.

(** X1. Whatever the name, a period that is extracted has its quarter
    between 1 and 4 and its year between 0 and 9999. *)
Theorem extracted_period_in_range (name : string) (y q : Z) :
  _extract_year_quarter_from_name name = Some (y, q) ->
  (1 <= q <= 4)%Z /\ (0 <= y <= 9999)%Z.
Proof. apply extract_range. Qed.

Lemma extracted_period_in_range_witness :
  _extract_year_quarter_from_name "1T2025_despesas.zip" = Some (2025, 1)%Z /\
  ((1 <= 1 <= 4)%Z /\ (0 <= 2025 <= 9999)%Z).
Proof.
  split; [reflexivity|].
  apply (extracted_period_in_range "1T2025_despesas.zip"). reflexivity.
Defined.

Lemma no_digit_forall (l : list ascii) (pre w' rest : list ascii) (c : ascii) :
  forallb (fun c => (Text.code c <? 128)%nat && negb (Text.is_digit c)) l = true ->
  l = pre ++ (c :: w') ++ rest -> Text.is_digit c = true -> False.
Proof.
  intros H -> Hc. rewrite forallb_app in H. apply andb_true_iff in H.
  destruct H as [_ H]. simpl in H. rewrite Hc in H.
  rewrite andb_false_r in H. discriminate.
Qed.

(** X2. A name of ASCII characters without any digit has no period:
    the extraction returns nothing and the walker tags the archive
    N/A, N/A. *)
Theorem name_without_digit_has_no_period (name : string) :
  no_digit name = true ->
  _extract_year_quarter_from_name name = None /\
  ano_trimestre name = ("N/A", "N/A").
Proof.
  intros H.
  assert (E : _extract_year_quarter_from_name name = None).
  { unfold _extract_year_quarter_from_name.
    destruct (search pat_qTyyyy name) as [m1|] eqn:E1.
    { exfalso. apply search_sound in E1. destruct E1 as (pre & w & rest & Hs & M).
      apply pat_qTyyyy_groups in M. destruct M as (_ & _ & c & w' & -> & Hc).
      exact (no_digit_forall _ _ _ _ _ H Hs Hc). }
    destruct (search pat_yyyy_q name) as [m2|] eqn:E2.
    { exfalso. apply search_sound in E2. destruct E2 as (pre & w & rest & Hs & M).
      apply pat_yyyy_q_groups in M. destruct M as (_ & _ & c & w' & -> & Hc).
      exact (no_digit_forall _ _ _ _ _ H Hs Hc). }
    destruct (search pat_yyyymm name) as [m3|] eqn:E3; [|reflexivity].
    exfalso. apply search_sound in E3. destruct E3 as (pre & w & rest & Hs & M).
    apply pat_yyyymm_groups in M. destruct M as (_ & c & w' & -> & Hc).
    exact (no_digit_forall _ _ _ _ _ H Hs Hc). }
  split; [exact E|]. unfold ano_trimestre. now rewrite E.
Qed.

Lemma name_without_digit_has_no_period_witness :
  _extract_year_quarter_from_name "relatorio.zip" = None /\
  ano_trimestre "relatorio.zip" = ("N/A", "N/A").
Proof. apply (name_without_digit_has_no_period "relatorio.zip"). reflexivity. Defined.

End PeriodoMore.

(* ===================================================================== *)
(** * Further properties: the classifier and the field mapper             *)
(* ===================================================================== *)

Module ClassifierFacts.
Import Re Processar MapperSpec.

Section WithPandas.
Context {pd : Pandas}.

(** A literal word matches exactly where it is a prefix. *)
Lemma rmatch_word {R : Type} (p : list ascii) :
  p <> [] ->
  forall (s : list ascii) (caps : captures) (k : list ascii -> captures -> option R),
    rmatch (word p) s caps k
    = if Text.prefixb p s then k (skipn (List.length p) s) caps else None.
Proof.
  induction p as [|a p IH]; [congruence|]. intros _ s caps k.
  destruct p as [|b p].
  - simpl. destruct s as [|c s]; [reflexivity|].
    destruct (Ascii.eqb a c); reflexivity.
  - change (word (a :: b :: p)) with (Cat (lit a) (word (b :: p))).
    cbn [rmatch lit]. destruct s as [|c s]; [reflexivity|].
    cbn [Text.prefixb]. destruct (Ascii.eqb a c); [|reflexivity].
    rewrite IH by discriminate. reflexivity.
Qed.

(** The pattern VAL|VLR|VL_ is found exactly in the names that contain
    one of the three words. *)
Lemma search_pat_val (s : list ascii) :
  found (searchl pat_val s)
  = Text.containsl (Text.chars "VAL") s || Text.containsl (Text.chars "VLR") s
    || Text.containsl (Text.chars "VL_") s.
Proof.
  induction s as [|a s IH].
  - reflexivity.
  - cbn [searchl]. unfold pat_val at 1. cbn [rmatch].
    rewrite !rmatch_word by discriminate.
    cbn [Text.containsl].
    destruct (Text.prefixb (Text.chars "VAL") (a :: s)); [reflexivity|].
    destruct (Text.prefixb (Text.chars "VLR") (a :: s)).
    { cbn. now rewrite orb_true_r. }
    destruct (Text.prefixb (Text.chars "VL_") (a :: s)).
    { cbn. now rewrite !orb_true_r. }
    cbn [orb]. exact IH.
Qed.

Lemma is_expense_table_exists (df : DataFrame) :
  _is_expense_table df = existsb is_expense_col (map norm_col (columns df)).
Proof.
  unfold _is_expense_table. cbv zeta.
  induction (map norm_col (columns df)) as [|c cols IH]; [reflexivity|].
  cbn [existsb]. unfold is_expense_col at 1.
  destruct (Text.mem c keywords_cols); [reflexivity|]. cbn [orb].
  change (match search pat_val c with Some _ => true | None => false end)
    with (found (search pat_val c)).
  destruct (found (search pat_val c)); [now destruct (existsb _ cols)|].
  cbn [orb]. exact IH.
Qed.

(** X3. A table is taken for an expense table exactly when one of its
    column names, trimmed and upper-cased, is one of the six keywords
    or contains VAL, VLR or VL_. *)
Theorem expense_table_iff (df : DataFrame) :
  _is_expense_table df = true <->
  exists c, In c (columns df) /\
            (Text.mem (norm_col c) keywords_cols = true \/
             Text.contains "VAL" (norm_col c) = true \/
             Text.contains "VLR" (norm_col c) = true \/
             Text.contains "VL_" (norm_col c) = true).
Proof.
  rewrite is_expense_table_exists, existsb_exists. split.
  - intros [n [Hin H]]. apply in_map_iff in Hin. destruct Hin as [c [<- Hc]].
    exists c. split; [exact Hc|]. unfold is_expense_col in H.
    apply orb_true_iff in H. destruct H as [H|H]; [now left|right].
    unfold search in H. rewrite search_pat_val in H.
    apply orb_true_iff in H. destruct H as [H|H]; [|now right; right].
    apply orb_true_iff in H. destruct H as [H|H]; [now left | now right; left].
  - intros [c [Hc H]]. exists (norm_col c). split; [now apply in_map|].
    unfold is_expense_col. apply orb_true_iff.
    destruct H as [H|H]; [now left|right].
    unfold search. rewrite search_pat_val. unfold Text.contains in H.
    destruct H as [H|[H|H]]; rewrite H; rewrite ?orb_true_r; reflexivity.
Qed.

(** Writing a key of the dictionary and reading one back. *)
Lemma assoc_dict_set (k k' v : string) (d : list (string * string)) :
  assoc k (dict_set k' v d) = if String.eqb k k' then Some v else assoc k d.
Proof.
  induction d as [|[k0 v0] d IH]; simpl.
  - reflexivity.
  - destruct (String.eqb k' k0) eqn:E.
    + apply String.eqb_eq in E. subst k0. simpl.
      destruct (String.eqb k k'); reflexivity.
    + simpl. destruct (String.eqb k k0) eqn:E0.
      * apply String.eqb_eq in E0. subst k0.
        destruct (String.eqb k k') eqn:E1; [|reflexivity].
        apply String.eqb_eq in E1. subst k'. rewrite String.eqb_refl in E. discriminate.
      * exact IH.
Qed.

Lemma find_snoc {A : Type} (f : A -> bool) (l : list A) (a : A) :
  find f (l ++ [a])
  = match find f l with Some x => Some x | None => if f a then Some a else None end.
Proof.
  induction l as [|b l IH]; simpl; [reflexivity|].
  destruct (f b); [reflexivity | exact IH].
Qed.

Lemma assoc_fold (k : string) (cols : list string) (d0 : list (string * string)) :
  assoc k (fold_left (fun d c => dict_set (norm_col c) c d) cols d0)
  = match find (fun c => String.eqb k (norm_col c)) (rev cols) with
    | Some c => Some c
    | None => assoc k d0
    end.
Proof.
  revert d0. induction cols as [|c cols IH]; intros d0; simpl; [reflexivity|].
  rewrite IH, find_snoc, assoc_dict_set.
  destruct (find _ (rev cols)); [reflexivity|].
  destruct (String.eqb k (norm_col c)); reflexivity.
Qed.

(** When several columns have the same normalised name the dictionary
    keeps the last of them. *)
Lemma assoc_upper_cols (k : string) (df : DataFrame) :
  assoc k (upper_cols_of df)
  = find (fun c => String.eqb k (norm_col c)) (rev (columns df)).
Proof.
  unfold upper_cols_of. rewrite assoc_fold. simpl.
  now destruct (find _ (rev (columns df))).
Qed.

Lemma first_candidate_resolves_aux (cands : list string) (df : DataFrame) :
  first_candidate cands (upper_cols_of df) = resolve cands (columns df).
Proof.
  induction cands as [|k cands IH]; simpl; [reflexivity|].
  rewrite assoc_upper_cols.
  destruct (find _ (rev (columns df))); [reflexivity | exact IH].
Qed.

Lemma resolve_In (cands cols : list string) (col : string) :
  resolve cands cols = Some col ->
  In col cols /\ In (norm_col col) cands.
Proof.
  induction cands as [|k cands IH]; simpl; [discriminate|].
  destruct (find _ (rev cols)) as [c|] eqn:E.
  - intros H. inversion H; subst c. apply find_some in E. destruct E as [Hin Hk].
    apply String.eqb_eq in Hk. split; [now apply in_rev | now left].
  - intros H. apply IH in H. tauto.
Qed.

Lemma val_candidate_is_expense (n : string) :
  In n val_candidates -> is_expense_col n = true.
Proof.
  intros H. simpl in H.
  destruct H as [<-|[<-|[<-|[<-|[<-|[]]]]]]; vm_compute; reflexivity.
Qed.

(** X4. The classifier never hides a table from the mapper: every
    table from which the mapper can extract rows is taken for an
    expense table. *)
Theorem extractable_table_is_expense_table
        (df : DataFrame) (ano trimestre : string) (l : list canonical) :
  _normalize_and_extract df ano trimestre = Some l ->
  _is_expense_table df = true.
Proof.
  unfold _normalize_and_extract. cbv zeta.
  destruct (first_candidate reg_candidates (upper_cols_of df)); [|discriminate].
  destruct (first_candidate val_candidates (upper_cols_of df)) as [vc|] eqn:E;
    [|discriminate].
  intros _. rewrite first_candidate_resolves_aux in E.
  apply resolve_In in E. destruct E as [Hin Hc].
  rewrite is_expense_table_exists. apply existsb_exists.
  exists (norm_col vc). split; [now apply in_map|].
  now apply val_candidate_is_expense.
Qed.

(** X5. The column chosen for a list of candidate names: the first
    candidate, in the order of the list, that is the normalised name
    of some column, and for it the last such column of the table. *)
Theorem candidate_column_resolution (cands : list string) (df : DataFrame) :
  first_candidate cands (upper_cols_of df) = resolve cands (columns df) /\
  forall col, first_candidate cands (upper_cols_of df) = Some col ->
              In col (columns df) /\ In (norm_col col) cands.
Proof.
  split; [apply first_candidate_resolves_aux|].
  intros col H. rewrite first_candidate_resolves_aux in H. now apply resolve_In.
Qed.

Lemma keep_some_In {A B : Type} (f : A -> option B) (l : list A) (y : B) :
  In y (keep_some (map f l)) <-> exists x, In x l /\ f x = Some y.
Proof.
  induction l as [|a l IH]; simpl.
  - split; [intros [] | intros [x [[] _]]].
  - destruct (f a) as [b|] eqn:E; simpl; rewrite IH; split.
    + intros [<-|[x [Hx Hf]]]; [exists a; auto | exists x; auto].
    + intros [x [[<-|Hx] Hf]]; [left; congruence | right; exists x; auto].
    + intros [x [Hx Hf]]. exists x; auto.
    + intros [x [[<-|Hx] Hf]]; [congruence | exists x; auto].
Qed.

Lemma keep_some_length {A : Type} (l : list (option A)) :
  (List.length (keep_some l) <= List.length l)%nat.
Proof.
  induction l as [|[a|] l IH]; simpl; lia.
Qed.

(** X6. What the mapper returns is never empty and never longer than
    the table; every returned row carries the year and quarter that
    were passed in, and comes from a row of the table whose cleaned
    value cell converts to the number it holds. *)
Theorem normalized_rows_are_tagged
        (df : DataFrame) (ano trimestre : string) (l : list canonical) :
  _normalize_and_extract df ano trimestre = Some l ->
  l <> [] /\
  (List.length l <= List.length (rows df))%nat /\
  exists reg_col val_col,
    In reg_col (columns df) /\ In val_col (columns df) /\
    forall x, In x l ->
      snd (fst x) = ano /\ snd (fst (fst x)) = trimestre /\
      exists r, In r (rows df) /\
                fst (fst (fst x)) = cell_at df reg_col r /\
                to_numeric (clean_value (cell_at df val_col r)) = Some (snd x).
Proof.
  unfold _normalize_and_extract. cbv zeta.
  destruct (first_candidate reg_candidates (upper_cols_of df)) as [rc|] eqn:Er;
    [|discriminate].
  destruct (first_candidate val_candidates (upper_cols_of df)) as [vc|] eqn:Ev;
    [|discriminate].
  destruct (keep_some (map (extract_row df rc vc ano trimestre) (rows df)))
    as [|x0 l0] eqn:E; [discriminate|].
  intros H. inversion H; subst l. clear H. split; [discriminate|]. split.
  { rewrite <- E. etransitivity; [apply keep_some_length|]. now rewrite length_map. }
  exists rc, vc.
  rewrite first_candidate_resolves_aux in Er, Ev.
  apply resolve_In in Er. apply resolve_In in Ev.
  split; [tauto|]. split; [tauto|].
  intros x Hx. rewrite <- E in Hx. apply keep_some_In in Hx.
  destruct Hx as [r [Hr Hx]]. unfold extract_row in Hx.
  destruct (to_numeric (clean_value (cell_at df vc r))) as [v|] eqn:Ec; [|discriminate].
  inversion Hx; subst x. simpl. repeat split. exists r. auto.
Qed.

End WithPandas.

Lemma extractable_table_is_expense_table_witness :
  @_normalize_and_extract Plain.plain tabela_valor "2025" "1"
  = Some [(Some "123", "1", "2025", 105 # 10)] /\
  _is_expense_table tabela_valor = true.
Proof.
  split; [vm_compute; reflexivity|].
  apply (@extractable_table_is_expense_table Plain.plain tabela_valor "2025" "1"
           [(Some "123", "1", "2025", 105 # 10)]).
  vm_compute. reflexivity.
Defined.

Lemma normalized_rows_are_tagged_witness :
  [(Some "123", "1", "2025", 105 # 10)] <> [] /\
  (List.length [(Some "123", "1", "2025", 105 # 10)]
   <= List.length (rows tabela_valor))%nat.
Proof.
  destruct (@normalized_rows_are_tagged Plain.plain tabela_valor "2025" "1"
              [(Some "123", "1", "2025", 105 # 10)]) as [H1 [H2 _]].
  - vm_compute. reflexivity.
  - split; [exact H1 | exact H2].
Defined.

Lemma chars_text (l : list ascii) : Text.chars (Text.text l) = l.
Proof. apply list_ascii_of_string_of_list_ascii. Qed.

Lemma cleaned_gen (g : ascii -> bool) (f : ascii -> ascii) (l : list ascii) :
  (forall a, (g a = true ->
              numeric_char (f a) = true /\ Ascii.eqb "," (f a) = false) /\
             one_if (g a && Ascii.eqb "." (f a))
             = (one_if (Ascii.eqb "." a) + one_if (Ascii.eqb "," a))%nat) ->
  forallb numeric_char (map f (filter g l)) = true /\
  filter (Ascii.eqb ",") (map f (filter g l)) = [] /\
  List.length (filter (Ascii.eqb ".") (map f (filter g l)))
  = (List.length (filter (Ascii.eqb ".") l) + List.length (filter (Ascii.eqb ",") l))%nat.
Proof.
  intros H. induction l as [|a l [IH1 [IH2 IH3]]]; [repeat split|].
  destruct (H a) as [Ha Hn]. cbn [filter].
  destruct (g a) eqn:G.
  - destruct (Ha eq_refl) as [Hnum Hcom]. cbn [map forallb filter].
    rewrite Hnum, Hcom, IH1, IH2. repeat split.
    cbn [andb] in Hn. unfold one_if in Hn.
    destruct (Ascii.eqb "." (f a)), (Ascii.eqb "." a), (Ascii.eqb "," a);
      cbn [List.length] in *; lia.
  - cbn [andb] in Hn. unfold one_if in Hn.
    destruct (Ascii.eqb "." a), (Ascii.eqb "," a); cbn [List.length] in *;
      try lia; repeat split; assumption.
Qed.

Lemma cleaned_chars (l : list ascii) :
  let g := fun c => Text.is_digit c || Ascii.eqb c "," || Ascii.eqb c "."
                    || Ascii.eqb c "-" in
  let f := fun x : ascii => if Ascii.eqb x "," then "."%char else x in
  forallb numeric_char (map f (filter g l)) = true /\
  filter (Ascii.eqb ",") (map f (filter g l)) = [] /\
  List.length (filter (Ascii.eqb ".") (map f (filter g l)))
  = (List.length (filter (Ascii.eqb ".") l) + List.length (filter (Ascii.eqb ",") l))%nat.
Proof.
  intros g f. apply cleaned_gen. intros a.
  destruct a as [b0 b1 b2 b3 b4 b5 b6 b7].
  destruct b0, b1, b2, b3, b4, b5, b6, b7; vm_compute;
    (split; [intros H; first [discriminate H | split; reflexivity] | reflexivity]).
Qed.

(** X7. A cleaned value holds nothing but digits, dots and minus
    signs: every other character of the cell is removed and every
    comma has become a dot, so the number of dots is the number of
    dots and commas the cell had. *)
Theorem clean_value_alphabet (c : cell) :
  forallb numeric_char (Text.chars (clean_value c)) = true /\
  count_char "," (clean_value c) = 0%nat /\
  count_char "." (clean_value c)
  = (count_char "." (astype_str c) + count_char "," (astype_str c))%nat.
Proof.
  unfold clean_value, count_char, Text.replace_char, keep_numeric_chars.
  rewrite !chars_text.
  destruct (cleaned_chars (Text.chars (astype_str c))) as [H1 [H2 H3]].
  cbv zeta in H1, H2, H3. rewrite H1, H2, H3. repeat split.
Qed.

End ClassifierFacts.

(* ===================================================================== *)
(** * Further properties: the walker                                      *)
(* ===================================================================== *)

Module WalkerMoreFacts.
Import Processar WalkerSpec WalkerMore WalkerFacts OrderFacts.

Lemma insert_zip_front (z : Zip) (l : list Zip) :
  (forall y, In y l -> le_zip z y) -> insert_zip z l = z :: l.
Proof.
  destruct l as [|y l]; [reflexivity|]. intros H. simpl.
  now rewrite (H y (or_introl eq_refl)).
Qed.

(** Filtering commutes with the insertion into a sorted list. *)
Lemma filter_insert_zip (p : Zip -> bool) (z : Zip) (s : list Zip) :
  StronglySorted le_zip s ->
  filter p (insert_zip z s) = if p z then insert_zip z (filter p s) else filter p s.
Proof.
  induction s as [|y s IH]; intros S.
  - simpl. now destruct (p z).
  - inversion S as [|? ? S' Hy]; subst. cbn [insert_zip].
    destruct (String.leb (zip_name z) (zip_name y)) eqn:E.
    + cbn [filter]. destruct (p z); [|reflexivity].
      symmetry. apply insert_zip_front. intros y' Hy'.
      change (if p y then y :: filter p s else filter p s) with (filter p (y :: s)) in Hy'.
      apply filter_In in Hy'. destruct Hy' as [[<-|Hin] _]; [exact E|].
      rewrite Forall_forall in Hy. exact (le_zip_trans _ _ _ E (Hy _ Hin)).
    + cbn [filter]. rewrite (IH S'). destruct (p y), (p z); try reflexivity.
      cbn [insert_zip]. now rewrite E.
Qed.

Lemma sorted_zips_filter (p : Zip -> bool) (l : list Zip) :
  sorted_zips (filter p l) = filter p (sorted_zips l).
Proof.
  induction l as [|z l IH]; [reflexivity|].
  cbn [filter]. change (sorted_zips (z :: l)) with (insert_zip z (sorted_zips l)).
  rewrite filter_insert_zip by apply sorted_zips_sorted.
  destruct (p z); [|exact IH].
  change (sorted_zips (z :: filter p l)) with (insert_zip z (sorted_zips (filter p l))).
  now rewrite IH.
Qed.

Section WithPandas.
Context {pd : Pandas}.

Lemma blocos_zip_ilegivel (z : Zip) : legivel z = false -> blocos_zip z = [].
Proof.
  unfold legivel, blocos_zip. destruct (Periodo.ano_trimestre (zip_name z)).
  destruct (extracted z); [discriminate | reflexivity].
Qed.

Lemma blocos_filter_legivel (zs : list Zip) :
  blocos (filter legivel zs) = blocos zs.
Proof.
  unfold blocos. induction zs as [|z zs IH]; [reflexivity|]. cbn [filter flat_map].
  destruct (legivel z) eqn:E.
  - cbn [flat_map]. now rewrite IH.
  - now rewrite (blocos_zip_ilegivel z E).
Qed.

Lemma csv_final_blocos (zs : list Zip) (prior : option string) :
  zs <> [] ->
  csv_final (processar_arquivos (mkFS zs prior)) = escrever (blocos (sorted_zips zs)).
Proof.
  intros Hz. destruct zs as [|z zs]; [congruence|].
  unfold processar_arquivos. cbn [raw_zips].
  destruct (sorted_zips (z :: zs)) as [|y ys] eqn:E.
  - exfalso. exact (sorted_zips_nonempty _ _ E).
  - cbn [csv_final]. rewrite process_zips_blocks. apply run_writes_blocks.
Qed.

(** X8. Archives that cannot be opened leave no trace: as long as there
    is an archive at all, the consolidated file is built from the
    readable ones alone, and is the file a run over only those would
    leave.  When none is readable the earlier consolidated file is
    deleted and none is written. *)
Theorem unreadable_archives_leave_no_trace (zs : list Zip) (prior : option string) :
  zs <> [] ->
  csv_final (processar_arquivos (mkFS zs prior))
  = escrever (blocos (sorted_zips (filter legivel zs))) /\
  (filter legivel zs <> [] ->
   csv_final (processar_arquivos (mkFS zs prior))
   = csv_final (processar_arquivos (mkFS (filter legivel zs) prior))) /\
  (filter legivel zs = [] ->
   csv_final (processar_arquivos (mkFS zs prior)) = None).
Proof.
  intros Hz.
  assert (E : csv_final (processar_arquivos (mkFS zs prior))
              = escrever (blocos (sorted_zips (filter legivel zs)))).
  { rewrite (csv_final_blocos zs prior Hz), sorted_zips_filter.
    now rewrite blocos_filter_legivel. }
  split; [exact E|]. split.
  - intros Hf. rewrite E. symmetry. now apply csv_final_blocos.
  - intros Hf. rewrite E, Hf. reflexivity.
Qed.

Lemma normalize_tags (df : DataFrame) (ano tri : string) (l : list canonical)
      (x : canonical) :
  _normalize_and_extract df ano tri = Some l -> In x l ->
  snd (fst x) = ano /\ snd (fst (fst x)) = tri.
Proof.
  unfold _normalize_and_extract. cbv zeta.
  destruct (first_candidate reg_candidates (upper_cols_of df)) as [rc|]; [|discriminate].
  destruct (first_candidate val_candidates (upper_cols_of df)) as [vc|]; [|discriminate].
  destruct (keep_some (map (extract_row df rc vc ano tri) (rows df)))
    as [|x0 l0] eqn:E; [discriminate|].
  intros H Hx. inversion H; subst l. clear H. rewrite <- E in Hx.
  apply ClassifierFacts.keep_some_In in Hx. destruct Hx as [r [_ Hx]].
  unfold extract_row in Hx.
  destruct (to_numeric (clean_value (cell_at df vc r))); [|discriminate].
  inversion Hx; subst x. split; reflexivity.
Qed.

Lemma normalize_nonempty (df : DataFrame) (ano tri : string) (l : list canonical) :
  _normalize_and_extract df ano tri = Some l -> l <> [].
Proof.
  unfold _normalize_and_extract. cbv zeta.
  destruct (first_candidate reg_candidates (upper_cols_of df)) as [rc|]; [|discriminate].
  destruct (first_candidate val_candidates (upper_cols_of df)) as [vc|]; [|discriminate].
  destruct (keep_some _); [discriminate|]. intros H. inversion H. discriminate.
Qed.

Lemma frame_of_normalize (ano tri : string) (f : File) (b : list canonical) :
  frame_of ano tri f = Some b ->
  exists df, _normalize_and_extract df ano tri = Some b.
Proof.
  unfold frame_of. destruct (Text.contains "__MACOSX" (relpath f)); [discriminate|].
  destruct (_try_read_table f) as [df|]; [|discriminate].
  destruct (negb (_is_expense_table df)); [discriminate|]. eauto.
Qed.

(** X9. Every block of rows written for an archive is non-empty and
    every one of its rows carries the period read from the archive's
    name: either N/A and N/A, or a year from 0 to 9999 and a quarter
    from 1 to 4, written in decimal. *)
Theorem written_rows_carry_archive_period (z : Zip) (b : list canonical) :
  In b (blocos_zip z) ->
  b <> [] /\
  (forall x, In x b ->
             (snd (fst x), snd (fst (fst x))) = Periodo.ano_trimestre (zip_name z)) /\
  (Periodo.ano_trimestre (zip_name z) = ("N/A", "N/A") \/
   exists y q, Periodo.ano_trimestre (zip_name z)
               = (Text.str_of_int y, Text.str_of_int q) /\
               (0 <= y <= 9999)%Z /\ (1 <= q <= 4)%Z).
Proof.
  intros Hb. unfold blocos_zip in Hb.
  destruct (Periodo.ano_trimestre (zip_name z)) as [ano tri] eqn:Ep.
  destruct (extracted z) as [files|]; [|destruct Hb].
  apply ClassifierFacts.keep_some_In in Hb. destruct Hb as [f [_ Hf]].
  apply frame_of_normalize in Hf. destruct Hf as [df Hn].
  split; [exact (normalize_nonempty _ _ _ _ Hn)|]. split.
  - intros x Hx. destruct (normalize_tags _ _ _ _ _ Hn Hx) as [-> ->]. reflexivity.
  - unfold Periodo.ano_trimestre in Ep.
    destruct (Periodo._extract_year_quarter_from_name (zip_name z)) as [[y q]|] eqn:E.
    + right. exists y, q. split; [now symmetry|].
      destruct (PeriodoMore.extract_range _ _ _ E). tauto.
    + left. now symmetry.
Qed.

End WithPandas.

Lemma unreadable_archives_leave_no_trace_witness :
  csv_final (@processar_arquivos Plain.plain
               (mkFS [zip_corrompido; zip_a] (Some "old")))
  = csv_final (@processar_arquivos Plain.plain (mkFS [zip_a] (Some "old"))) /\
  csv_final (@processar_arquivos Plain.plain (mkFS [zip_corrompido] (Some "old")))
  = None.
Proof.
  split.
  - refine (proj1 (proj2 (@unreadable_archives_leave_no_trace Plain.plain
                            [zip_corrompido; zip_a] (Some "old") _)) _);
      vm_compute; discriminate.
  - refine (proj2 (proj2 (@unreadable_archives_leave_no_trace Plain.plain
                            [zip_corrompido] (Some "old") _)) _);
      [discriminate | reflexivity].
Defined.

Lemma written_rows_carry_archive_period_witness :
  [(Some "123", "1", "2025", 105 # 10)] <> [] /\
  (forall x, In x [(Some "123", "1", "2025", 105 # 10)] ->
             (snd (fst x), snd (fst (fst x))) = Periodo.ano_trimestre "1T2025.zip").
Proof.
  destruct (@written_rows_carry_archive_period Plain.plain zip_a
              [(Some "123", "1", "2025", 105 # 10)]) as [H1 [H2 _]].
  - vm_compute. left. reflexivity.
  - split; [exact H1 | exact H2].
Defined.

End WalkerMoreFacts.

(* ===================================================================== *)
(** * Further properties: the downloader of script 01                     *)
(* ===================================================================== *)

Module DownloadFacts.
Import Download DownloadSpec OrderFacts.

Lemma baixar_preserva (net : Rede) (url destino : string) (raw : Raw)
      (name b : string) :
  assoc name raw = Some b ->
  assoc name (baixar_arquivo net url destino raw) = Some b.
Proof.
  intros H. unfold baixar_arquivo.
  destruct (assoc destino raw) eqn:E; [exact H|].
  assert (N : String.eqb name destino = false).
  { apply String.eqb_neq. intros ->. congruence. }
  destruct (get net url); simpl; rewrite ?N; exact H.
Qed.

Lemma downloads_preservam (net : Rede) (urls : list string) (raw : Raw)
      (name b : string) :
  assoc name raw = Some b ->
  assoc name (fold_left (fun raw url => baixar_arquivo net url (nome url) raw) urls raw)
  = Some b.
Proof.
  revert raw. induction urls as [|u urls IH]; intros raw H; simpl; [exact H|].
  apply IH. now apply baixar_preserva.
Qed.

Lemma main_preserva (net : Rede) (raw : Raw) (name b : string) :
  assoc name raw = Some b -> assoc name (main net raw) = Some b.
Proof.
  intros H. unfold main. destruct (selecionados net); [|exact H].
  now apply downloads_preservam.
Qed.

(** X10. A file that is in data/raw is never replaced or removed by a
    run, whatever the server answers.  In particular the piece of a
    transfer that broke midway stays as it is through every later run:
    its name exists, so the archive is not fetched again. *)
Theorem existing_files_are_never_replaced :
  (forall net raw name b,
      assoc name raw = Some b -> assoc name (main net raw) = Some b) /\
  (forall net net' url destino raw parcial,
      assoc destino raw = None ->
      get net url = Interrompida parcial ->
      assoc destino (baixar_arquivo net url destino raw) = Some parcial /\
      assoc destino (main net' (baixar_arquivo net url destino raw)) = Some parcial).
Proof.
  split; [exact main_preserva|].
  intros net net' url destino raw parcial Hn Hg.
  assert (E : assoc destino (baixar_arquivo net url destino raw) = Some parcial).
  { unfold baixar_arquivo. rewrite Hn, Hg. simpl. now rewrite String.eqb_refl. }
  split; [exact E | now apply main_preserva].
Qed.

Lemma existing_files_are_never_replaced_witness :
  assoc "2T2025.ZIP" (main rede_exemplo []) = Some "PK" /\
  assoc "2T2025.ZIP" (main rede_boa (main rede_exemplo [])) = Some "PK".
Proof.
  split; [vm_compute; reflexivity|].
  apply (proj1 existing_files_are_never_replaced rede_boa (main rede_exemplo [])
               "2T2025.ZIP" "PK").
  vm_compute. reflexivity.
Defined.

Lemma baixar_settles (net : Rede) (url : string) (raw : Raw) :
  settled net (baixar_arquivo net url (nome url) raw) url.
Proof.
  unfold settled, baixar_arquivo.
  destruct (assoc (nome url) raw) eqn:E; [left; congruence|].
  destruct (get net url) eqn:G; [now right| |]; left; simpl;
    rewrite String.eqb_refl; discriminate.
Qed.

Lemma settled_baixar (net : Rede) (u url destino : string) (raw : Raw) :
  settled net raw u -> settled net (baixar_arquivo net url destino raw) u.
Proof.
  intros [H|H]; [left | now right].
  destruct (assoc (nome u) raw) as [b|] eqn:E; [|congruence].
  rewrite (baixar_preserva net url destino raw _ _ E). discriminate.
Qed.

Lemma settled_downloads (net : Rede) (u : string) (urls : list string) (raw : Raw) :
  settled net raw u ->
  settled net (fold_left (fun raw url => baixar_arquivo net url (nome url) raw) urls raw) u.
Proof.
  revert raw. induction urls as [|v urls IH]; intros raw H; simpl; [exact H|].
  apply IH. now apply settled_baixar.
Qed.

Lemma settled_noop (net : Rede) (url : string) (raw : Raw) :
  settled net raw url -> baixar_arquivo net url (nome url) raw = raw.
Proof.
  unfold settled, baixar_arquivo. intros [H|H].
  - destruct (assoc (nome url) raw); [reflexivity | congruence].
  - destruct (assoc (nome url) raw); [reflexivity | now rewrite H].
Qed.

Lemma downloads_settle (net : Rede) (urls : list string) (raw : Raw) (u : string) :
  In u urls ->
  settled net (fold_left (fun raw url => baixar_arquivo net url (nome url) raw) urls raw) u.
Proof.
  revert raw. induction urls as [|v urls IH]; intros raw Hin; [destruct Hin|].
  simpl. destruct Hin as [->|Hin].
  - apply settled_downloads, baixar_settles.
  - now apply IH.
Qed.

Lemma downloads_noop (net : Rede) (urls : list string) (raw : Raw) :
  (forall u, In u urls -> settled net raw u) ->
  fold_left (fun raw url => baixar_arquivo net url (nome url) raw) urls raw = raw.
Proof.
  induction urls as [|v urls IH]; intros H; simpl; [reflexivity|].
  rewrite settled_noop by (apply H; now left).
  apply IH. intros u Hu. apply H. now right.
Qed.

(** X11. Against a server that answers the same way, a second run
    changes nothing: every selected archive either exists by then or
    is refused again. *)
Theorem second_run_changes_nothing (net : Rede) (raw : Raw) :
  main net (main net raw) = main net raw.
Proof.
  unfold main. destruct (selecionados net) as [finais|]; [|reflexivity].
  apply downloads_noop. intros u Hu. now apply downloads_settle.
Qed.

(** ** The selection *)

Lemma insert_desc_perm (x : string) (l : list string) :
  Permutation (x :: l) (insert_desc x l).
Proof.
  induction l as [|y l IH]; simpl; [apply Permutation_refl|].
  destruct (String.leb y x); [apply Permutation_refl|].
  eapply Permutation_trans; [apply perm_swap|]. now apply perm_skip.
Qed.

Lemma sorted_desc_perm (l : list string) : Permutation l (sorted_desc l).
Proof.
  induction l as [|x l IH]; simpl; [apply perm_nil|].
  eapply Permutation_trans; [|apply insert_desc_perm]. now apply perm_skip.
Qed.

Lemma insert_desc_sorted (x : string) (l : list string) :
  StronglySorted ge_str l -> StronglySorted ge_str (insert_desc x l).
Proof.
  induction l as [|y l IH]; simpl; intros S.
  - constructor; constructor.
  - destruct (String.leb y x) eqn:E.
    + constructor; [exact S|]. constructor; [exact E|].
      apply StronglySorted_inv in S. destruct S as [_ F].
      rewrite Forall_forall in *. intros z Hz. unfold ge_str in *.
      eapply string_leb_trans; [now apply F | exact E].
    + apply StronglySorted_inv in S. destruct S as [S F].
      constructor; [now apply IH|].
      rewrite Forall_forall in *. intros z Hz.
      apply (Permutation_in _ (Permutation_sym (insert_desc_perm x l))) in Hz.
      destruct Hz as [Hz|Hz]; [|now apply F]. subst z.
      unfold ge_str. destruct (String.leb_total x y); congruence.
Qed.

Lemma sorted_desc_sorted (l : list string) : StronglySorted ge_str (sorted_desc l).
Proof.
  induction l as [|x l IH]; simpl; [constructor | now apply insert_desc_sorted].
Qed.

Lemma sorted_firstn {A : Type} (R : A -> A -> Prop) (n : nat) (l : list A) :
  StronglySorted R l ->
  StronglySorted R (firstn n l) /\
  forall a b, In a (firstn n l) -> In b (skipn n l) -> R a b.
Proof.
  revert l. induction n as [|n IH]; intros l S.
  - simpl. split; [constructor | intros a b []].
  - destruct l as [|x l]; simpl; [split; [constructor | intros a b []]|].
    apply StronglySorted_inv in S. destruct S as [S F].
    destruct (IH l S) as [S1 H1]. split.
    + constructor; [exact S1|]. rewrite Forall_forall in *.
      intros a Ha. apply F. rewrite <- (firstn_skipn n l). apply in_or_app. now left.
    + intros a b [<-|Ha] Hb; [|now apply H1].
      rewrite Forall_forall in F. apply F.
      rewrite <- (firstn_skipn n l). apply in_or_app. now right.
Qed.

(** X12. The links selected for download are at most three, all of
    them links of the page whose last segment contains ".zip" in any
    letter case; they come in descending order of the link text, and
    no archive link of the page that was left out is greater than a
    selected one. *)
Theorem selection_is_top_three (links : list string) :
  (List.length (arquivos_finais links) <= 3)%nat /\
  StronglySorted ge_str (arquivos_finais links) /\
  (forall u, In u (arquivos_finais links) -> In u links /\ is_zip u = true) /\
  (forall u v, In u (arquivos_finais links) ->
               In v links -> is_zip v = true -> ~ In v (arquivos_finais links) ->
               ge_str u v).
Proof.
  unfold arquivos_finais.
  set (s := sorted_desc (filter is_zip links)).
  assert (P : Permutation (filter is_zip links) s) by apply sorted_desc_perm.
  destruct (sorted_firstn ge_str 3 s (sorted_desc_sorted _)) as [S1 S2].
  split; [apply firstn_le_length|]. split; [exact S1|]. split.
  - intros u Hu. apply filter_In.
    apply (Permutation_in _ (Permutation_sym P)).
    rewrite <- (firstn_skipn 3 s). apply in_or_app. now left.
  - intros u v Hu Hv Hz Hn. apply S2; [exact Hu|].
    assert (Hs : In v s).
    { apply (Permutation_in _ P). apply filter_In. now split. }
    rewrite <- (firstn_skipn 3 s) in Hs. apply in_app_or in Hs. tauto.
Qed.

(** ** Where new files come from *)

Lemma baixar_origem (net : Rede) (url destino : string) (raw : Raw) (name b : string) :
  assoc name (baixar_arquivo net url destino raw) = Some b ->
  assoc name raw = Some b \/
  (assoc name raw = None /\ name = destino /\
   (get net url = Completa b \/ get net url = Interrompida b)).
Proof.
  unfold baixar_arquivo. destruct (assoc destino raw) eqn:E; [now left|].
  destruct (get net url) eqn:G; [now left| |]; simpl;
    (destruct (String.eqb name destino) eqn:N; [|now left]);
    apply String.eqb_eq in N; subst name; intros H; inversion H; subst;
    right; auto.
Qed.

Lemma downloads_origem (net : Rede) (urls : list string) (raw : Raw) (name b : string) :
  assoc name (fold_left (fun raw url => baixar_arquivo net url (nome url) raw) urls raw)
  = Some b ->
  assoc name raw = Some b \/
  (assoc name raw = None /\
   exists url, In url urls /\ nome url = name /\
               (get net url = Completa b \/ get net url = Interrompida b)).
Proof.
  revert raw. induction urls as [|u urls IH]; intros raw H; simpl in H; [now left|].
  apply IH in H. destruct H as [H|[Hn [url [Hin [Hnm Hg]]]]].
  - apply baixar_origem in H. destruct H as [H|[Hn [-> Hg]]]; [now left|].
    right. split; [exact Hn|]. exists u. split; [now left | auto].
  - right. split.
    + destruct (assoc name raw) as [b'|] eqn:E; [|reflexivity].
      rewrite (baixar_preserva net u (nome u) raw _ _ E) in Hn. discriminate.
    + exists url. split; [now right | auto].
Qed.

(** X13. A run only adds files.  Every file in data/raw after a run
    either was there before with the same content, or is named after
    the last segment of a selected link and holds what the server sent
    for that link, whole or cut short. *)
Theorem run_only_adds_selected_files (net : Rede) (raw : Raw) (name b : string) :
  assoc name (main net raw) = Some b ->
  assoc name raw = Some b \/
  (assoc name raw = None /\
   exists finais url,
     selecionados net = Some finais /\ In url finais /\ nome url = name /\
     (get net url = Completa b \/ get net url = Interrompida b)).
Proof.
  unfold main. destruct (selecionados net) as [finais|] eqn:E; [|now left].
  intros H. apply downloads_origem in H.
  destruct H as [H|[Hn [url [Hin [Hnm Hg]]]]]; [now left|].
  right. split; [exact Hn|]. exists finais, url. auto.
Qed.

Lemma run_only_adds_selected_files_witness :
  assoc "4T2025.zip" (main rede_exemplo [("velho.zip", "x")]) = Some "PK-complete" /\
  (assoc "4T2025.zip" [("velho.zip", "x")] = Some "PK-complete" \/
   (assoc "4T2025.zip" [("velho.zip", "x")] = None /\
    exists finais url,
      selecionados rede_exemplo = Some finais /\ In url finais /\
      nome url = "4T2025.zip" /\
      (get rede_exemplo url = Completa "PK-complete" \/
       get rede_exemplo url = Interrompida "PK-complete"))).
Proof.
  split; [vm_compute; reflexivity|].
  apply (run_only_adds_selected_files rede_exemplo [("velho.zip", "x")]
           "4T2025.zip" "PK-complete").
  vm_compute. reflexivity.
Defined.

(** ** The newest year *)

Lemma max_year_spec (ys : list Z) (y : Z) :
  In (max_year y ys) (y :: ys) /\ forall z, In z (y :: ys) -> (z <= max_year y ys)%Z.
Proof.
  unfold max_year. revert y. induction ys as [|x ys IH]; intros y; simpl.
  - split; [now left|]. intros z [<-|[]]. lia.
  - destruct (IH (Z.max y x)) as [H1 H2]. split.
    + destruct H1 as [H1|H1]; [|now right; right].
      rewrite <- H1. destruct (Z.max_spec y x) as [[_ ->]|[_ ->]]; auto.
    + intros z [<-|[<-|Hz]].
      * etransitivity; [apply (Z.le_max_l y x)|]. apply H2. now left.
      * etransitivity; [apply (Z.le_max_r y x)|]. apply H2. now left.
      * apply H2. now right.
Qed.

Lemma years_In (top_links : list string) (z : Z) :
  In z (years top_links) <-> exists l, In l top_links /\ year_of l = Some z.
Proof.
  unfold years, year_of. rewrite in_map_iff. split.
  - intros [s [Hs Hin]]. apply filter_In in Hin. destruct Hin as [Hin Hy].
    apply in_map_iff in Hin. destruct Hin as [l [<- Hl]].
    exists l. split; [exact Hl|]. now rewrite Hy, Hs.
  - intros [l [Hl H]]. destruct (is_year (seg l)) eqn:Hy; [|discriminate].
    inversion H. exists (seg l). split; [reflexivity|].
    apply filter_In. split; [now apply in_map | exact Hy].
Qed.

(** X14. The directory that is read is that of the greatest year
    among the links of the base page whose last segment is four
    digits; when the base page has no such link, or could not be read,
    nothing is selected and data/raw is left as it was. *)
Theorem newest_year_is_read (net : Rede) :
  ((forall l, In l (listar_links_v2 net BASE_URL) -> year_of l = None) ->
   selecionados net = None /\ forall raw, main net raw = raw) /\
  (forall l z, In l (listar_links_v2 net BASE_URL) -> year_of l = Some z ->
     exists y,
       selecionados net = Some (arquivos_finais (listar_links_v2 net (url_year y))) /\
       (z <= y)%Z /\
       (forall l' z', In l' (listar_links_v2 net BASE_URL) -> year_of l' = Some z' ->
                      (z' <= y)%Z) /\
       exists l0, In l0 (listar_links_v2 net BASE_URL) /\ year_of l0 = Some y).
Proof.
  split.
  - intros H.
    assert (E : years (listar_links_v2 net BASE_URL) = []).
    { destruct (years (listar_links_v2 net BASE_URL)) as [|z zs] eqn:E; [reflexivity|].
      assert (Hz : In z (years (listar_links_v2 net BASE_URL))) by (rewrite E; now left).
      apply years_In in Hz. destruct Hz as [l [Hl Hy]].
      rewrite (H l Hl) in Hy. discriminate. }
    assert (S : selecionados net = None) by (unfold selecionados; now rewrite E).
    split; [exact S|]. intros raw. unfold main. now rewrite S.
  - intros l z Hl Hz.
    assert (Hin : In z (years (listar_links_v2 net BASE_URL)))
      by (apply years_In; eauto).
    unfold selecionados.
    destruct (years (listar_links_v2 net BASE_URL)) as [|y ys] eqn:E; [destruct Hin|].
    destruct (max_year_spec ys y) as [M1 M2].
    exists (max_year y ys). split; [reflexivity|]. split; [now apply M2|]. split.
    + intros l' z' Hl' Hz'. apply M2. rewrite <- E. apply years_In. eauto.
    + rewrite <- E in M1. apply years_In in M1. exact M1.
Qed.

Lemma newest_year_is_read_witness :
  selecionados rede_exemplo
  = Some [(BASE_URL ++ "2025/4T2025.zip")%string;
          (BASE_URL ++ "2025/3T2025.zip")%string;
          (BASE_URL ++ "2025/2T2025.ZIP")%string] /\
  exists y,
    selecionados rede_exemplo
    = Some (arquivos_finais (listar_links_v2 rede_exemplo (url_year y))) /\
    (2024 <= y)%Z.
Proof.
  split; [vm_compute; reflexivity|].
  destruct (proj2 (newest_year_is_read rede_exemplo)
                  (BASE_URL ++ "2024/")%string 2024%Z) as [y [H1 [H2 _]]].
  - vm_compute. left. reflexivity.
  - vm_compute. reflexivity.
  - exists y. split; [exact H1 | exact H2].
Defined.

End DownloadFacts.

(* ===================================================================== *)
(** * Further properties: the validator and the enricher                  *)
(* ===================================================================== *)

Module JoinFacts.

(** With distinct keys on the right, a key selects at most one row. *)
Lemma filter_unique {A : Type} (key : A -> string) (s : string) (l : list A) :
  NoDup (map key l) ->
  (List.length (filter (fun x => String.eqb s (key x)) l) <= 1)%nat.
Proof.
  induction l as [|a l IH]; intros N; simpl; [lia|].
  inversion N as [|? ? Hn N']; subst.
  destruct (String.eqb s (key a)) eqn:E; [|now apply IH].
  apply String.eqb_eq in E. subst s.
  assert (F : filter (fun x => String.eqb (key a) (key x)) l = []).
  { destruct (filter _ l) as [|y ys] eqn:Ef; [reflexivity|]. exfalso.
    assert (Hy : In y (filter (fun x => String.eqb (key a) (key x)) l))
      by (rewrite Ef; now left).
    apply filter_In in Hy. destruct Hy as [Hy Hk]. apply String.eqb_eq in Hk.
    apply Hn. rewrite Hk. now apply in_map. }
  rewrite F. simpl. lia.
Qed.

Lemma flat_map_singletons {A B C : Type} (f : A -> list B) (g : B -> C) (h : A -> C)
      (l : list A) :
  (forall a, In a l -> exists b, f a = [b] /\ g b = h a) ->
  map g (flat_map f l) = map h l.
Proof.
  induction l as [|a l IH]; intros H; simpl; [reflexivity|].
  destruct (H a (or_introl eq_refl)) as [b [-> Hb]]. simpl. rewrite Hb. f_equal.
  apply IH. intros a' Ha'. apply H. now right.
Qed.

End JoinFacts.

Module ValidarMoreFacts.
Import Validar ValidarSpec ValidarMore ValidarFacts JoinFacts.

Section WithPandas.
Context {pd : Pandas}.

(** The positive-value filter looks at the consolidated value alone. *)
Lemma limpo_base (l1 : list Linha) :
  map base (filter (fun l => positive (Valor l))
                   (map converter_valor (map marcar_cnpj l1)))
  = filter positiva (map base l1).
Proof.
  induction l1 as [|l l1 IH]; simpl; [reflexivity|].
  unfold positiva at 1.
  destruct (positive (to_numeric_value (ValorDespesas (base l)))); simpl;
    now rewrite IH.
Qed.

(** X15. Without a usable mapping file the validator writes the
    records with a positive value, in their order, each with an empty
    CNPJ and an empty RazaoSocial, and flags every one of them as
    having an invalid CNPJ.  When the file is absent every record
    counts in the missing-name warning, those dropped afterwards
    included. *)
Theorem validation_without_mapping (mf : MappingFile) (df : list Despesa) :
  mf = Ausente \/ mf = Inutilizavel ->
  output_df (executar_validacao mf df) = map sem_mapa (filter positiva df) /\
  map base (df_limpo (executar_validacao mf df)) = filter positiva df /\
  (forall l, In l (df_limpo (executar_validacao mf df)) -> CNPJ_Valido l = false) /\
  avisos_sem_razao (executar_validacao mf df)
  = match mf with Ausente => List.length df | _ => 0%nat end.
Proof.
  intros [-> | ->]; unfold executar_validacao; cbn [output_df df_limpo avisos_sem_razao];
    unfold carregar.
  - split; [|split; [|split]].
    + induction df as [|r df IH]; simpl; [reflexivity|].
      unfold positiva at 1.
      destruct (positive (to_numeric_value (ValorDespesas r))); simpl; now rewrite IH.
    + rewrite limpo_base, map_map. simpl. now rewrite map_id.
    + intros l Hl. apply filter_In in Hl. destruct Hl as [Hl _].
      apply in_map_iff in Hl. destruct Hl as [l1 [<- Hl]].
      apply in_map_iff in Hl. destruct Hl as [l2 [<- Hl]].
      apply in_map_iff in Hl. destruct Hl as [r [<- _]]. reflexivity.
    + induction df as [|r df IH]; simpl; [reflexivity|].
      change (missing_rs (mkLinha r (Some (Txt "")) (Some (Txt "")) false None)) with true.
      simpl. now rewrite IH.
  - split; [|split; [|split]].
    + induction df as [|r df IH]; simpl; [reflexivity|].
      unfold positiva at 1.
      destruct (positive (to_numeric_value (ValorDespesas r))); simpl; now rewrite IH.
    + rewrite limpo_base, map_map. simpl. now rewrite map_id.
    + intros l Hl. apply filter_In in Hl. destruct Hl as [Hl _].
      apply in_map_iff in Hl. destruct Hl as [l1 [<- Hl]].
      apply in_map_iff in Hl. destruct Hl as [l2 [<- Hl]].
      apply in_map_iff in Hl. destruct Hl as [r [<- _]]. reflexivity.
    + induction df as [|r df IH]; simpl; [reflexivity|]. exact IH.
Qed.

Lemma merge_row_unique (m : list Mapeamento) (r : Despesa) :
  NoDup (map chave_mapa m) -> exists l, merge_row m r = [l] /\ base l = r.
Proof.
  intros N. unfold merge_row.
  pose proof (filter_unique chave_mapa (str_value (RegistroANS r)) m N) as H.
  change (fun x => String.eqb (str_value (RegistroANS r)) (chave_mapa x))
    with (eq_key r) in H.
  destruct (filter (eq_key r) m) as [|x [|y ys]]; simpl in H; [| |lia];
    eexists; split; reflexivity.
Qed.

(** X16. When the mapping file has one row per registry number, the
    merge duplicates nothing: the validator keeps exactly the records
    with a positive value, one row each, in their order. *)
Theorem unique_mapping_keeps_one_row_per_record (m : list Mapeamento) (df : list Despesa) :
  NoDup (map chave_mapa m) ->
  map base (df_limpo (executar_validacao (Mapeado m) df)) = filter positiva df /\
  List.length (output_df (executar_validacao (Mapeado m) df))
  = List.length (filter positiva df).
Proof.
  intros N.
  assert (E : map base (df_limpo (executar_validacao (Mapeado m) df))
              = filter positiva df).
  { unfold executar_validacao. cbn [df_limpo]. rewrite limpo_base. f_equal.
    unfold carregar. rewrite <- (map_id df) at 2.
    apply flat_map_singletons. intros r _. now apply merge_row_unique. }
  split; [exact E|].
  unfold executar_validacao in *. cbn [output_df df_limpo] in *.
  rewrite length_map. rewrite <- E. now rewrite length_map.
Qed.

(** X17. A record whose registry number is not in the mapping stays in
    the output when its value is positive, with a null CNPJ and a null
    RazaoSocial, and is flagged as having an invalid CNPJ. *)
Theorem unmatched_record_is_flagged_invalid (m : list Mapeamento) (df : list Despesa)
        (l : Linha) :
  In l (df_limpo (executar_validacao (Mapeado m) df)) ->
  (forall x, In x m -> chave_mapa x <> str_value (RegistroANS (base l))) ->
  CNPJ l = Some NaN /\ RazaoSocial l = Some NaN /\ CNPJ_Valido l = false /\
  In (NaN, NaN, Trimestre (base l), Ano (base l), Valor l)
     (output_df (executar_validacao (Mapeado m) df)).
Proof.
  intros Hl Hno.
  assert (Hout : In (projetar l) (output_df (executar_validacao (Mapeado m) df)))
    by (unfold executar_validacao in *; cbn [output_df df_limpo] in *; now apply in_map).
  unfold executar_validacao in Hl. cbn [df_limpo] in Hl.
  apply filter_In in Hl. destruct Hl as [Hl _].
  apply in_map_iff in Hl. destruct Hl as [l1 [<- Hl]].
  apply in_map_iff in Hl. destruct Hl as [l2 [<- Hl]].
  unfold carregar in Hl. apply in_flat_map in Hl. destruct Hl as [r [Hr Hl]].
  assert (Hb : base l2 = r) by exact (merge_row_base _ _ _ Hl).
  cbn [base converter_valor marcar_cnpj] in Hno.
  assert (F : filter (eq_key r) m = []).
  { destruct (filter (eq_key r) m) as [|x xs] eqn:Ef; [reflexivity|]. exfalso.
    assert (Hx : In x (filter (eq_key r) m)) by (rewrite Ef; now left).
    apply filter_In in Hx. destruct Hx as [Hx Hk]. unfold eq_key in Hk.
    apply String.eqb_eq in Hk. apply (Hno x Hx). rewrite Hb. now symmetry. }
  unfold merge_row in Hl. rewrite F in Hl. destruct Hl as [<-|[]].
  unfold projetar in Hout. cbn in Hout. cbn. repeat split; assumption.
Qed.

End WithPandas.

Lemma validation_without_mapping_witness :
  output_df (@executar_validacao Plain.plain Ausente tres_linhas)
  = [(Txt "", Txt "", Int 1, Int 2025, Some (1 # 100))] /\
  avisos_sem_razao (@executar_validacao Plain.plain Ausente tres_linhas) = 3%nat.
Proof.
  destruct (@validation_without_mapping Plain.plain Ausente tres_linhas
              (or_introl eq_refl)) as [H1 [_ [_ H4]]].
  split; [exact H1 | exact H4].
Defined.

Lemma unique_mapping_keeps_one_row_per_record_witness :
  map base (df_limpo (@executar_validacao Plain.plain mapa_unico tres_linhas))
  = [mkDespesa (Int 3) (Int 1) (Int 2025) (Flt (1 # 100))].
Proof.
  refine (proj1 (@unique_mapping_keeps_one_row_per_record Plain.plain _ tres_linhas _)).
  vm_compute. repeat constructor; simpl; intuition discriminate.
Defined.

Lemma unmatched_record_is_flagged_invalid_witness :
  In (NaN, NaN, Int 1, Int 2025, Some (1 # 100))
     (output_df (@executar_validacao Plain.plain
                   (Mapeado [mkMapeamento (Some "2") (Some "123") (Some "B")])
                   tres_linhas)).
Proof.
  refine (proj2 (proj2 (proj2
    (@unmatched_record_is_flagged_invalid Plain.plain
       [mkMapeamento (Some "2") (Some "123") (Some "B")] tres_linhas
       (mkLinha (mkDespesa (Int 3) (Int 1) (Int 2025) (Flt (1 # 100)))
                (Some NaN) (Some NaN) false (Some (1 # 100))) _ _)))).
  - vm_compute. left. reflexivity.
  - intros x [<-|[]]. vm_compute. discriminate.
Defined.

End ValidarMoreFacts.

Module EnriquecerMoreFacts.
Import Enriquecer EnriquecerSpec EnriquecerMore EnriquecerFacts JoinFacts.

(** ** The mojibake repair *)

Lemma encode_latin1_char (c : ascii) (rest : list ascii) :
  encode_latin1 (latin1_char c ++ rest) = option_map (cons c) (encode_latin1 rest).
Proof.
  destruct c as [b0 b1 b2 b3 b4 b5 b6 b7].
  destruct b0, b1, b2, b3, b4, b5, b6, b7; reflexivity.
Qed.

(** Reading bytes as Latin-1 and encoding the text back as Latin-1
    gives the bytes again. *)
Lemma encode_decode_latin1 (b : list ascii) : encode_latin1 (decode_latin1 b) = Some b.
Proof.
  unfold decode_latin1. induction b as [|c b IH]; [reflexivity|].
  cbn [flat_map]. rewrite encode_latin1_char, IH. reflexivity.
Qed.

Lemma containsl_app_r (p l1 l2 : list ascii) :
  Text.containsl p l2 = true -> Text.containsl p (l1 ++ l2) = true.
Proof.
  intros H. induction l1 as [|a l1 IH]; [exact H|].
  cbn [app Text.containsl]. rewrite IH. apply orb_true_r.
Qed.

Lemma marker_of_lead (c : ascii) (rest : list ascii) :
  lead_c2_c3 c = true ->
  Text.containsl A_tilde (latin1_char c ++ rest)
  || Text.containsl A_circ (latin1_char c ++ rest) = true.
Proof.
  destruct c as [b0 b1 b2 b3 b4 b5 b6 b7].
  destruct b0, b1, b2, b3, b4, b5, b6, b7; intros H;
    try discriminate H; clear H;
    apply orb_true_iff; first [left; reflexivity | right; reflexivity].
Qed.

Lemma marker_present (b : list ascii) :
  existsb lead_c2_c3 b = true ->
  Text.containsl A_tilde (decode_latin1 b) || Text.containsl A_circ (decode_latin1 b)
  = true.
Proof.
  unfold decode_latin1. induction b as [|c b IH]; [discriminate|].
  cbn [existsb flat_map]. intros H. apply orb_true_iff in H. destruct H as [H|H].
  - now apply marker_of_lead.
  - apply IH in H. apply orb_true_iff in H. apply orb_true_iff.
    destruct H as [H|H]; [left | right]; now apply containsl_app_r.
Qed.

(** X18. The repair undoes the misreading it is written for: a valid
    UTF-8 text that holds a character led by the byte C2 or C3 (the
    accented Latin letters) and was read as Latin-1 is given back
    exactly; and encoding as Latin-1 is the inverse of that misreading
    on every byte string. *)
Theorem mojibake_round_trip (b : list ascii) :
  encode_latin1 (decode_latin1 b) = Some b /\
  (valid_utf8 b = true -> existsb lead_c2_c3 b = true ->
   _fix_mojibake_text (Some (Text.text (decode_latin1 b))) = Some (Text.text b)).
Proof.
  split; [apply encode_decode_latin1|]. intros V L.
  unfold _fix_mojibake_text. cbv zeta.
  rewrite ClassifierFacts.chars_text, (marker_present b L), encode_decode_latin1, V.
  reflexivity.
Qed.

Lemma mojibake_round_trip_witness :
  _fix_mojibake_text (Some (Text.text (decode_latin1 sao_utf8)))
  = Some (Text.text sao_utf8).
Proof.
  apply (proj2 (mojibake_round_trip sao_utf8)); reflexivity.
Defined.

Section WithPandas.
Context {pd : Pandas}.

(** ** The join *)

Lemma merge_row_one (cad : list Cadastro) (r : Despesa) :
  NoDup (map c_RegistroANS cad) ->
  exists e, merge_row cad r = [e] /\ canonico_e e = canonico r.
Proof.
  intros N. unfold merge_row.
  pose proof (filter_unique c_RegistroANS (chave r) cad N) as H.
  destruct (filter (fun c => String.eqb (chave r) (c_RegistroANS c)) cad)
    as [|x [|y ys]]; simpl in H; [| |lia]; eexists; split; reflexivity.
Qed.

(** X19. When no two rows of the registry have the same registry
    number, enrichment neither drops nor repeats a record: the output
    has one row per consolidated record, in the same order, with the
    record's number, quarter, year and value. *)
Theorem unique_registry_gives_one_row_per_record
        (df_despesas : list Despesa) (cadastro : DataFrame) (cad : list Cadastro) :
  preparar_cadastro cadastro = Some cad ->
  NoDup (map c_RegistroANS cad) ->
  exists out,
    executar_enriquecimento_total df_despesas cadastro = Some out /\
    map canonico_e out = map canonico df_despesas /\
    List.length out = List.length df_despesas.
Proof.
  intros Hc N. unfold executar_enriquecimento_total. rewrite Hc.
  eexists. split; [reflexivity|].
  assert (E : map canonico_e (flat_map (merge_row cad) df_despesas)
              = map canonico df_despesas).
  { apply flat_map_singletons. intros r _. now apply merge_row_one. }
  split; [exact E|].
  rewrite <- (length_map canonico_e), E. apply length_map.
Qed.


(** ** The registry-number column *)

Lemma find_registro_spec (cols : list string) :
  find_registro cols = find is_registro cols.
Proof.
  induction cols as [|c cols IH]; simpl; [reflexivity|].
  unfold is_registro at 1. cbv zeta.
  destruct (Text.contains "REGIAO" (Text.upper c)); simpl; [exact IH|].
  destruct (Text.contains "REGIST" (Text.upper c)
            || Text.contains "REG" (Text.upper c)
               && negb (Text.contains "CNPJ" (Text.upper c))); [reflexivity | exact IH].
Qed.

Lemma prefixb_app (p q l : list ascii) :
  Text.prefixb (p ++ q) l = true -> Text.prefixb p l = true.
Proof.
  revert l. induction p as [|a p IH]; intros l; [reflexivity|].
  destruct l as [|b l]; simpl; [discriminate|].
  intros H. apply andb_true_iff in H. destruct H as [H1 H2].
  rewrite H1. simpl. now apply IH.
Qed.

Lemma containsl_prefix (p q l : list ascii) :
  Text.containsl (p ++ q) l = true -> Text.containsl p l = true.
Proof.
  induction l as [|a l IH]; cbn [Text.containsl]; intros H.
  - rewrite orb_false_r in *. now apply prefixb_app in H.
  - apply orb_true_iff in H. apply orb_true_iff. destruct H as [H|H].
    + left. now apply prefixb_app in H.
    + right. now apply IH.
Qed.

(** X21. The column taken for the registry number is the first column
    of the registry whose upper-cased name contains REG, does not
    contain REGIAO, and contains REGIST or does not contain CNPJ; no
    earlier column has these properties, and none is found exactly
    when no column has them. *)
Theorem registry_column_choice (cols : list string) :
  (forall c, find_registro cols = Some c ->
     exists before after,
       cols = before ++ c :: after /\
       (forall x, In x before -> is_registro x = false) /\
       Text.contains "REG" (Text.upper c) = true /\
       Text.contains "REGIAO" (Text.upper c) = false /\
       (Text.contains "REGIST" (Text.upper c) = true \/
        Text.contains "CNPJ" (Text.upper c) = false)) /\
  (find_registro cols = None <-> forall x, In x cols -> is_registro x = false).
Proof.
  rewrite find_registro_spec. split.
  - induction cols as [|x cols IH]; simpl; [discriminate|]. intros c H.
    destruct (is_registro x) eqn:E.
    + inversion H; subst x. exists [], cols. split; [reflexivity|].
      split; [intros y []|].
      unfold is_registro in E. cbv zeta in E.
      apply andb_true_iff in E. destruct E as [E1 E2].
      apply negb_true_iff in E1. apply orb_true_iff in E2.
      split; [|split; [exact E1|]].
      * destruct E2 as [E2|E2].
        -- exact (containsl_prefix (Text.chars "REG") (Text.chars "IST") _ E2).
        -- apply andb_true_iff in E2. tauto.
      * destruct E2 as [E2|E2]; [now left|].
        apply andb_true_iff in E2. destruct E2 as [_ E2].
        apply negb_true_iff in E2. now right.
    + destruct (IH c H) as [before [after [-> [Hb Hc]]]].
      exists (x :: before), after. split; [reflexivity|]. split; [|exact Hc].
      intros y [<-|Hy]; [exact E | now apply Hb].
  - split.
    + intros H x Hx. destruct (is_registro x) eqn:E; [|reflexivity].
      exfalso. revert H. induction cols as [|y cols IH]; [destruct Hx|]. simpl.
      destruct Hx as [->|Hx]; [now rewrite E|].
      destruct (is_registro y); [discriminate | now apply IH].
    + intros H. induction cols as [|y cols IH]; [reflexivity|]. simpl.
      rewrite (H y (or_introl eq_refl)). apply IH. intros x Hx. apply H. now right.
Qed.

End WithPandas.

Lemma unique_registry_gives_one_row_per_record_witness :
  exists out,
    @executar_enriquecimento_total Plain.plain despesas_exemplo cadastro_exemplo
    = Some out /\
    List.length out = List.length despesas_exemplo.
Proof.
  destruct (@unique_registry_gives_one_row_per_record Plain.plain
              despesas_exemplo cadastro_exemplo
              [mkCadastro "123456" (Some "11222333000181") (Some "OPERADORA A")
                          (Some "Medicina de Grupo") (Some "SP")])
    as [out [H1 [_ H3]]].
  - vm_compute. reflexivity.
  - simpl. repeat constructor. intros [].
  - exists out. split; [exact H1 | exact H3].
Defined.

End EnriquecerMoreFacts.

(* ===================================================================== *)
(** * Further properties: the aggregation of script 05                    *)
(* ===================================================================== *)

Module AgregarMoreFacts.
Import Agregar AgregarSpec AgregarMore OrderSpec OrderFacts GroupFacts SumFacts
       AgregarFacts.

Lemma soma_perm (l l' : list Q) : Permutation l l' -> soma l = soma l'.
Proof.
  induction 1 as [|x l l' _ IH|x y l|l l' l'' _ IH1 _ IH2].
  - reflexivity.
  - now rewrite !soma_cons, IH.
  - rewrite !soma_cons, <- !Qplus_assoc_eq, (Qplus_comm_eq y x). reflexivity.
  - now rewrite IH1.
Qed.

Lemma sorted_NoDup {K V : Type} (cmp : K -> K -> comparison) (laws : cmp_laws cmp)
      (l : list (K * V)) :
  sorted_keys cmp l -> NoDup (map fst l).
Proof.
  induction 1 as [|x l S IH F]; simpl; constructor; [|exact IH].
  intros Hin. apply in_map_iff in Hin. destruct Hin as [y [Hy Hin]].
  rewrite Forall_forall in F. specialize (F y Hin).
  apply (cmp_lt_neq _ laws) in F. congruence.
Qed.

Lemma filter_all {A : Type} (l : list A) : filter (fun _ => true) l = l.
Proof. induction l as [|a l IH]; simpl; [reflexivity | now rewrite IH]. Qed.

(** The second group-by moves no amount either. *)
Lemma hsum_upsert (k : Key2) (v : list Q) (acc : list (Key2 * list Q)) :
  soma (map (fun x => soma (snd x)) (upsert cmp2 (@app Q) k v acc))
  = (soma (map (fun x => soma (snd x)) acc) + soma v)%Q.
Proof.
  induction acc as [|[k0 v0] rest IH]; simpl.
  - rewrite soma_cons. unfold soma at 2. simpl.
    now rewrite Qplus_0_r_eq, Qplus_0_l_eq.
  - destruct (cmp2 k k0); simpl.
    + rewrite !soma_cons, soma_app.
      rewrite (Qplus_assoc_eq (soma v0)), (Qplus_comm_eq (soma v)), <- Qplus_assoc_eq.
      reflexivity.
    + rewrite !soma_cons. apply Qplus_comm_eq.
    + rewrite !soma_cons, IH. apply eq_sym, Qplus_assoc_eq.
Qed.

Lemma hsum_fold (rows acc : list (Key2 * list Q)) :
  soma (map (fun x => soma (snd x))
            (fold_left (fun a kv => upsert cmp2 (@app Q) (fst kv) (snd kv) a) rows acc))
  = (soma (map (fun x => soma (snd x)) acc) + soma (map (fun x => soma (snd x)) rows))%Q.
Proof.
  revert acc. induction rows as [|[k v] rows IH]; intros acc; simpl.
  - unfold soma at 3. simpl. now rewrite Qplus_0_r_eq.
  - rewrite IH, hsum_upsert, soma_cons. simpl. apply Qplus_assoc_eq.
Qed.

Lemma soma_zeros (l : list Q) : (forall x, In x l -> x = 0%Q) -> soma l = 0%Q.
Proof.
  induction l as [|x l IH]; intros H; [reflexivity|].
  rewrite soma_cons, (H x (or_introl eq_refl)), Qplus_0_l_eq.
  apply IH. intros y Hy. apply H. now right.
Qed.

Lemma soma_nonneg (l : list Q) : (forall x, In x l -> (0 <= x)%Q) -> (0 <= soma l)%Q.
Proof.
  induction l as [|x l IH]; intros H.
  - unfold soma. simpl. apply Qle_refl.
  - rewrite soma_cons.
    assert (Hx : (0 <= x)%Q) by (apply H; now left).
    assert (Hs : (0 <= soma l)%Q) by (apply IH; intros y Hy; apply H; now right).
    pose proof (Qplus_le_compat _ _ _ _ Hx Hs) as P.
    now rewrite Qplus_0_l in P.
Qed.

Lemma square_nonneg (a : Q) : (0 <= a * a)%Q.
Proof. destruct a as [n d]. unfold Qle, Qmult. simpl. nia. Qed.

Lemma sorted_filter {K V : Type} (cmp : K -> K -> comparison) (p : K * V -> bool)
      (l : list (K * V)) :
  sorted_keys cmp l -> sorted_keys cmp (filter p l).
Proof.
  unfold sorted_keys. induction 1 as [|x l S IH Fx]; simpl; [constructor|].
  destruct (p x); [|exact IH].
  constructor; [exact IH|]. rewrite Forall_forall in *.
  intros y Hy. apply filter_In in Hy. now apply Fx.
Qed.

(** Within one group, distinct keys are distinct periods. *)
Lemma NoDup_periods (F : list (Key4 * Q)) (g : Key2) :
  NoDup (map fst F) -> (forall x, In x F -> fst (fst x) = g) ->
  NoDup (map (fun kv : Key4 * Q => snd (fst kv)) F).
Proof.
  induction F as [|x F IH]; simpl; intros N Hg; [constructor|].
  inversion N as [|? ? Hn N']; subst. constructor.
  - intros Hin. apply in_map_iff in Hin. destruct Hin as [y [Hy Hin]].
    apply Hn. apply in_map_iff. exists y. split; [|exact Hin].
    pose proof (Hg x (or_introl eq_refl)) as Hx.
    pose proof (Hg y (or_intror Hin)) as Hy'.
    destruct x as [[gx px] vx], y as [[gy py] vy]. simpl in *. congruence.
  - apply IH; [exact N'|]. intros y Hy. apply Hg. now right.
Qed.

Section WithPandas.
Context {pd : Pandas}.
Variable sv : string -> bool -> list AggRow -> list AggRow.
Variable tipar : list Bruta -> Bruta -> Linha.

Lemma executar_inv (n : nat) (ds : Dataset) (out : list AggRow) :
  executar_agregacao sv tipar n (Some ds) = Some out ->
  (1 <= n)%nat /\
  out = sv "TotalDespesas" false
           (estatisticas (parcial (colunas ds) (tipadas tipar n ds))).
Proof.
  destruct n as [|n]; [discriminate|].
  rewrite (executar_tabela sv tipar n ds), tabela_tipadas.
  intros H. split; [lia | congruence].
Qed.

Lemma soma_de_soma (l : list Q) : soma_de l = soma l.
Proof.
  induction l as [|x l IH]; [reflexivity|].
  cbn [soma_de fold_right]. fold (soma_de l). now rewrite IH, soma_cons.
Qed.

Lemma soma_estatisticas (quarters : list (Key4 * Q)) :
  soma (map TotalDespesas (estatisticas quarters)) = soma (map snd quarters).
Proof.
  unfold estatisticas. rewrite map_map. cbn [agg_row TotalDespesas].
  unfold groupby. rewrite hsum_fold. simpl.
  rewrite map_map. cbn [snd]. unfold soma at 1. simpl. rewrite Qplus_0_l_eq.
  f_equal. apply map_ext. intros [k v]. unfold soma. simpl. apply Qplus_0_l_eq.
Qed.

Lemma soma_parcial (cols : list string) (rows : list Linha) :
  soma (map snd (parcial cols rows)) = soma (map (valor_contado cols) rows).
Proof.
  unfold parcial.
  pose proof (tot_groupby cmp4 isna4 cmp4_laws (fun _ => true)
                          (map (preparar cols) rows)) as H.
  cbv beta in H. rewrite !filter_all in H. rewrite H. now rewrite map_map.
Qed.

Lemma vals_perm {K V : Type} (cmp : K -> K -> comparison) (k : K)
      (l l' : list (K * V)) :
  Permutation l l' -> Permutation (vals cmp k l) (vals cmp k l').
Proof.
  intros P. unfold vals. apply Permutation_map.
  induction P as [|x l l' _ IH|x y l|l l' l'' _ IH1 _ IH2]; simpl.
  - constructor.
  - destruct (eqk cmp k (fst x)); [now constructor | exact IH].
  - destruct (eqk cmp k (fst x)), (eqk cmp k (fst y));
      try apply Permutation_refl. apply perm_swap.
  - eapply Permutation_trans; eassumption.
Qed.

(** The per-quarter sums do not depend on the order of the rows. *)
Lemma parcial_perm (cols : list string) (rows rows' : list Linha) :
  Permutation rows rows' -> parcial cols rows = parcial cols rows'.
Proof.
  intros P. apply (sorted_lookup_ext cmp4 cmp4_laws); try apply parcial_sorted.
  intros k. rewrite !lookup_parcial. unfold soma_do_grupo.
  pose proof (vals_perm cmp4 k _ _ (Permutation_map (preparar cols) P)) as Pv.
  change (soma (map snd (filter (fun kv => match cmp4 k (fst kv) with
                                           | Eq => true | _ => false end)
                                (map (preparar cols) rows))))
    with (soma (vals cmp4 k (map (preparar cols) rows))).
  change (soma (map snd (filter (fun kv => match cmp4 k (fst kv) with
                                           | Eq => true | _ => false end)
                                (map (preparar cols) rows'))))
    with (soma (vals cmp4 k (map (preparar cols) rows'))).
  rewrite (soma_perm _ _ Pv).
  destruct (vals cmp4 k (map (preparar cols) rows)) as [|v vs] eqn:E1;
    destruct (vals cmp4 k (map (preparar cols) rows')) as [|v' vs'] eqn:E2;
    try reflexivity.
  - apply Permutation_nil in Pv. discriminate.
  - apply Permutation_sym, Permutation_nil in Pv. discriminate.
Qed.

Hypothesis C : sort_contract (sv "TotalDespesas" false).

Lemma out_In (n : nat) (ds : Dataset) (out : list AggRow) (r : AggRow) :
  executar_agregacao sv tipar n (Some ds) = Some out -> In r out ->
  exists g, trimestres_de g (parcial (colunas ds) (tipadas tipar n ds)) <> [] /\
            r = agg_row (g, trimestres_de g (parcial (colunas ds) (tipadas tipar n ds))).
Proof.
  intros H Hr. apply executar_inv in H. destruct H as [_ H]. subst out.
  apply (Permutation_in _ (Permutation_sym (proj1 (C _)))) in Hr.
  now apply estatisticas_In in Hr.
Qed.

(** X22. In every output row the number of quarters is at least one
    and the mean is the total divided by that number: the mean times
    the number of quarters is the total. *)
Theorem mean_times_quarters_is_total
        (n : nat) (ds : Dataset) (out : list AggRow) (r : AggRow) :
  executar_agregacao sv tipar n (Some ds) = Some out -> In r out ->
  (1 <= NumTrimestres r)%nat /\
  (MediaPorTrimestre r * inject_Z (Z.of_nat (NumTrimestres r)) == TotalDespesas r)%Q.
Proof.
  intros H Hr. destruct (out_In _ _ _ _ H Hr) as [g [Hne ->]].
  cbn [agg_row NumTrimestres MediaPorTrimestre TotalDespesas fst snd].
  destruct (trimestres_de g (parcial (colunas ds) (tipadas tipar n ds))) as [|q qs];
    [congruence|].
  split; [simpl; lia|]. unfold media.
  rewrite Qmult_comm. apply Qmult_div_r.
  unfold Qeq. cbn [List.length]. simpl. lia.
Qed.

(** X23. No (RazaoSocial, UF) pair appears in two rows of the output. *)
Theorem output_has_one_row_per_group (n : nat) (ds : Dataset) (out : list AggRow) :
  executar_agregacao sv tipar n (Some ds) = Some out ->
  NoDup (map grupo_de out).
Proof.
  intros H. apply executar_inv in H. destruct H as [_ H]. subst out.
  eapply Permutation_NoDup; [apply Permutation_map; exact (proj1 (C _))|].
  unfold estatisticas. rewrite map_map.
  rewrite (map_ext (fun x : Key2 * list Q => grupo_de (agg_row x)) fst).
  - apply (sorted_NoDup cmp2 cmp2_laws). apply (groupby_sorted _ _ _ cmp2_laws).
  - intros [[a b] v]. reflexivity.
Qed.

(** X24. The totals of the output rows add up to the sum of the
    expense values of all the rows of the input, one row read for each
    line of the file, a missing or non-numeric value counting as zero:
    no amount is lost or counted twice. *)
Theorem grand_total_is_conserved (n : nat) (ds : Dataset) (out : list AggRow) :
  executar_agregacao sv tipar n (Some ds) = Some out ->
  soma (map TotalDespesas out)
  = soma (map (valor_contado (colunas ds)) (tipadas tipar n ds)) /\
  List.length (tipadas tipar n ds) = List.length (linhas ds).
Proof.
  intros H. apply executar_inv in H. destruct H as [Hn H]. subst out.
  split; [|now apply tipadas_length].
  rewrite <- (soma_perm _ _ (Permutation_map TotalDespesas (proj1 (C _)))).
  rewrite soma_estatisticas. apply soma_parcial.
Qed.

Lemma periodos_distintos
      (n : nat) (ds : Dataset) (out : list AggRow) (r : AggRow) :
  executar_agregacao sv tipar n (Some ds) = Some out -> In r out ->
  exists ps : list Key2,
    NoDup ps /\
    (forall p, In p ps <->
               exists row, In row (tipadas tipar n ds) /\
                           grupo (colunas ds) row = grupo_de r /\
                           periodo (colunas ds) row = p) /\
    NumTrimestres r = List.length ps.
Proof.
  intros H Hr. destruct (out_In _ _ _ _ H Hr) as [g [Hne ->]].
  set (P := parcial (colunas ds) (tipadas tipar n ds)) in *.
  set (F := filter (fun kv : Key4 * Q => eqk cmp2 g (fst (fst kv))) P).
  exists (map (fun kv : Key4 * Q => snd (fst kv)) F).
  assert (HF : forall x, In x F <-> In x P /\ fst (fst x) = g).
  { intros x. unfold F. rewrite filter_In, eqk2_true. intuition congruence. }
  split; [|split].
  - apply (NoDup_periods F g).
    + apply (sorted_NoDup cmp4 cmp4_laws). unfold F. apply sorted_filter.
      apply parcial_sorted.
    + intros x Hx. now apply HF in Hx.
  - intros p. rewrite in_map_iff. split.
    + intros [x [Hp Hx]]. apply HF in Hx. destruct Hx as [Hx Hg].
      destruct (parcial_key _ _ _ Hx) as [row [Hrow Hk]].
      exists row. split; [exact Hrow|]. unfold grupo, periodo. rewrite Hk.
      cbn [grupo_de agg_row a_RazaoSocial a_UF fst snd].
      split; [|exact Hp]. rewrite Hg. now destruct g.
    + intros [row [Hrow [Hg Hp]]].
      destruct (parcial_has_key (colunas ds) (tipadas tipar n ds) row Hrow) as [v Hv].
      exists (fst (preparar (colunas ds) row), v). split; [exact Hp|].
      apply HF. split; [exact Hv|]. cbn [fst]. unfold grupo in Hg. rewrite Hg.
      cbn [grupo_de agg_row a_RazaoSocial a_UF fst snd]. now destruct g.
  - cbn [agg_row NumTrimestres snd]. unfold trimestres_de. fold F.
    now rewrite !length_map.
Qed.

(** X29. A column that the input file lacks is filled with nulls:
    without the column UF every output row has a null UF, without
    RazaoSocial a null name, and without ValorDespesas every total is
    zero. *)
Theorem missing_columns_become_null
        (n : nat) (ds : Dataset) (out : list AggRow) (r : AggRow) :
  executar_agregacao sv tipar n (Some ds) = Some out -> In r out ->
  (Text.mem "UF" (colunas ds) = false -> a_UF r = KNaN) /\
  (Text.mem "RazaoSocial" (colunas ds) = false -> a_RazaoSocial r = KNaN) /\
  (Text.mem "ValorDespesas" (colunas ds) = false -> TotalDespesas r = 0%Q).
Proof.
  intros H Hr. destruct (out_In _ _ _ _ H Hr) as [g [Hne ->]].
  cbn [agg_row a_UF a_RazaoSocial TotalDespesas fst snd].
  assert (Hg : exists row, In row (tipadas tipar n ds) /\
                           key2 (garantir_colunas (colunas ds) row) = g).
  { unfold trimestres_de in Hne.
    match type of Hne with map snd ?f <> [] => remember f as F eqn:EF end.
    destruct F as [|x xs]; [exfalso; apply Hne; reflexivity|].
    assert (Hx : In x (x :: xs)) by now left.
    rewrite EF in Hx.
    apply filter_In in Hx. destruct Hx as [Hx Hk]. apply eqk2_true in Hk.
    destruct (parcial_key _ _ _ Hx) as [row [Hrow Hf]].
    exists row. split; [exact Hrow|].
    apply (f_equal fst) in Hf. transitivity (fst (fst x)); [exact Hf | now symmetry]. }
  destruct Hg as [row [Hrow Hg]]. split; [|split].
  - intros M. rewrite <- Hg. unfold key2, garantir_colunas. cbn. now rewrite M.
  - intros M. rewrite <- Hg. unfold key2, garantir_colunas. cbn. now rewrite M.
  - intros M. rewrite total_da_operadora. unfold soma_da_operadora.
    apply soma_zeros. intros x Hx. apply in_map_iff in Hx.
    destruct Hx as [kv [<- Hkv]]. apply filter_In in Hkv. destruct Hkv as [Hkv _].
    apply in_map_iff in Hkv. destruct Hkv as [row' [<- _]].
    unfold preparar, valor, garantir_colunas. cbn. now rewrite M.
Qed.

(** X30. The standard deviation of an output row is null exactly when
    the row has a single quarter; otherwise it is the root of the sample
    variance of the per-quarter totals of the group, at least two of
    them: the sum of their squared distances to their mean, divided by
    their number less one, which is not negative.  The mean of the row
    is the arithmetic mean of the same totals. *)
Theorem deviation_needs_two_quarters
        (n : nat) (ds : Dataset) (out : list AggRow) (r : AggRow) :
  executar_agregacao sv tipar n (Some ds) = Some out -> In r out ->
  let qs := trimestres_de (grupo_de r) (parcial (colunas ds) (tipadas tipar n ds)) in
  NumTrimestres r = List.length qs /\
  TotalDespesas r = soma_de qs /\
  MediaPorTrimestre r = media_aritmetica qs /\
  (DesvioPadraoPorTrimestre r = DesvioNaN <-> NumTrimestres r = 1%nat) /\
  (forall v, DesvioPadraoPorTrimestre r = DesvioRaiz v ->
             (2 <= NumTrimestres r)%nat /\ (0 <= v)%Q /\
             (v == variancia_amostral qs)%Q).
Proof.
  intros H Hr. destruct (out_In _ _ _ _ H Hr) as [g [Hne ->]].
  rewrite grupo_de_agg_row. cbn [fst]. cbv zeta.
  cbn [agg_row DesvioPadraoPorTrimestre NumTrimestres MediaPorTrimestre TotalDespesas
               fst snd].
  set (qs := trimestres_de g (parcial (colunas ds) (tipadas tipar n ds))) in *.
  assert (M : media qs = media_aritmetica qs)
    by (unfold media, media_aritmetica; now rewrite soma_de_soma).
  split; [reflexivity|]. split; [now rewrite soma_de_soma|]. split; [exact M|].
  destruct qs as [|a [|b l]] eqn:E; [congruence| |].
  - split; [split; reflexivity|]. intros v Hv. discriminate.
  - rewrite <- E in *. split; [rewrite E; split; [discriminate | simpl; lia]|].
    intros v Hv. split; [rewrite E; simpl; lia|].
    assert (V : v = (soma (map (fun x => (x - media qs) * (x - media qs)) qs)
                     / inject_Z (Z.of_nat (List.length qs - 1)))%Q).
    { rewrite E in Hv |- *. cbn [desvio_padrao] in Hv. now inversion Hv. }
    clear Hv. subst v. split.
    + apply Qle_shift_div_l.
      * unfold Qlt. rewrite E. cbn [List.length]. simpl. lia.
      * rewrite Qmult_0_l. apply soma_nonneg. intros x Hx.
        apply in_map_iff in Hx. destruct Hx as [y [<- _]]. apply square_nonneg.
    + unfold variancia_amostral. rewrite soma_de_soma, <- M.
      assert (D : (inject_Z (Z.of_nat (List.length qs - 1))
                   == inject_Z (Z.of_nat (List.length qs)) - 1)%Q).
      { rewrite E. cbn [List.length]. unfold Qeq, Qminus, Qplus, Qopp, inject_Z.
        cbn [Qnum Qden]. lia. }
      rewrite D. reflexivity.
Qed.

End WithPandas.

(** X26. NumTrimestres counts the distinct (Ano, Trimestre) keys of the
    rows of the group as the chunks type them.  A quarter that one chunk
    reads as text and another as a number counts twice: in the file with
    the quarters 1, x and 1 read in chunks of two, operator A has
    NumTrimestres 2, and 1 when the file is read at once. *)
Theorem quarters_are_distinct_periods :
  (forall (pd : Pandas) (sv : string -> bool -> list AggRow -> list AggRow)
          (tipar : list Bruta -> Bruta -> Linha),
      sort_contract (sv "TotalDespesas" false) ->
      forall n ds out r,
        executar_agregacao sv tipar n (Some ds) = Some out -> In r out ->
        exists ps : list Key2,
          NoDup ps /\
          (forall p, In p ps <->
                     exists row, In row (tipadas tipar n ds) /\
                                 grupo (colunas ds) row = grupo_de r /\
                                 periodo (colunas ds) row = p) /\
          NumTrimestres r = List.length ps) /\
  option_map (map resumo)
             (@executar_agregacao Plain.plain Plain.ordenar Plain.tipar 2 (Some misto))
  = Some [(KStr "A", 30 # 1, 2%nat); (KStr "B", 5 # 1, 1%nat)] /\
  option_map (map resumo)
             (@executar_agregacao Plain.plain Plain.ordenar Plain.tipar 3 (Some misto))
  = Some [(KStr "A", 30 # 1, 1%nat); (KStr "B", 5 # 1, 1%nat)].
Proof.
  split; [|split; vm_compute; reflexivity].
  intros pd sv tipar C n ds out r. now apply periodos_distintos.
Qed.

(** X25. The output depends on the rows as the chunks type them and not
    on their order: two runs over files with the same header whose typed
    rows are a permutation of one another give the same output, for any
    sort, the sums being exact. *)
Theorem row_order_does_not_matter
        (pd : Pandas) (sv : string -> bool -> list AggRow -> list AggRow)
        (tipar : list Bruta -> Bruta -> Linha)
        (cols : list string) (rows rows' : list Bruta) (n m : nat) :
  Permutation (tipadas tipar (S n) (mkDataset cols rows))
              (tipadas tipar (S m) (mkDataset cols rows')) ->
  executar_agregacao sv tipar (S n) (Some (mkDataset cols rows))
  = executar_agregacao sv tipar (S m) (Some (mkDataset cols rows')).
Proof.
  intros P. rewrite !executar_tabela, !tabela_tipadas. cbn [colunas].
  now rewrite (parcial_perm cols _ _ P).
Qed.

Lemma row_order_does_not_matter_witness :
  Permutation (tipadas Plain.tipar 2 dividido) (tipadas Plain.tipar 3 dividido_permutado) /\
  @executar_agregacao Plain.plain Plain.ordenar Plain.tipar 2 (Some dividido)
  = @executar_agregacao Plain.plain Plain.ordenar Plain.tipar 3 (Some dividido_permutado).
Proof.
  assert (P : Permutation (tipadas Plain.tipar 2 dividido)
                          (tipadas Plain.tipar 3 dividido_permutado)).
  { replace (tipadas Plain.tipar 3 dividido_permutado)
      with (rev (tipadas Plain.tipar 2 dividido)) by (vm_compute; reflexivity).
    apply Permutation_rev. }
  split; [exact P|].
  exact (row_order_does_not_matter Plain.plain Plain.ordenar Plain.tipar todas
           (linhas dividido) (linhas dividido_permutado) 1%nat 2%nat P).
Defined.

Lemma mean_times_quarters_is_total_witness :
  sort_contract (Plain.ordenar "TotalDespesas" false) /\
  exists out,
    @executar_agregacao Plain.plain Plain.ordenar Plain.tipar 2 (Some dividido) = Some out /\
    forall r, In r out ->
      (1 <= NumTrimestres r)%nat /\
      (MediaPorTrimestre r * inject_Z (Z.of_nat (NumTrimestres r)) == TotalDespesas r)%Q.
Proof.
  split; [exact estavel_contract|].
  eexists. split; [vm_compute; reflexivity|]. intros r Hr.
  eapply (@mean_times_quarters_is_total Plain.plain Plain.ordenar Plain.tipar
            estavel_contract 2%nat dividido); [vm_compute; reflexivity | exact Hr].
Defined.

Lemma output_has_one_row_per_group_witness :
  sort_contract (Plain.ordenar "TotalDespesas" false) /\
  exists out,
    @executar_agregacao Plain.plain Plain.ordenar Plain.tipar 2 (Some dividido) = Some out /\
    NoDup (map grupo_de out).
Proof.
  split; [exact estavel_contract|].
  eexists. split; [vm_compute; reflexivity|].
  eapply (@output_has_one_row_per_group Plain.plain Plain.ordenar Plain.tipar
            estavel_contract 2%nat dividido). vm_compute. reflexivity.
Defined.

Lemma grand_total_is_conserved_witness :
  sort_contract (Plain.ordenar "TotalDespesas" false) /\
  exists out,
    @executar_agregacao Plain.plain Plain.ordenar Plain.tipar 2 (Some dividido) = Some out /\
    soma (map TotalDespesas out)
    = soma (map (@valor_contado Plain.plain (colunas dividido))
                (tipadas Plain.tipar 2 dividido)).
Proof.
  split; [exact estavel_contract|].
  eexists. split; [vm_compute; reflexivity|].
  eapply (proj1 (@grand_total_is_conserved Plain.plain Plain.ordenar Plain.tipar
                   estavel_contract 2%nat dividido _ _)).
  Unshelve. vm_compute. reflexivity.
Defined.

Lemma quarters_are_distinct_periods_witness :
  sort_contract (Plain.ordenar "TotalDespesas" false) /\
  exists out r,
    @executar_agregacao Plain.plain Plain.ordenar Plain.tipar 2 (Some dividido) = Some out /\
    In r out /\ a_RazaoSocial r = KStr "A" /\
    exists ps : list Key2, NoDup ps /\ NumTrimestres r = List.length ps.
Proof.
  split; [exact estavel_contract|].
  eexists. eexists. split; [vm_compute; reflexivity|].
  split; [left; reflexivity|]. split; [reflexivity|].
  edestruct (proj1 quarters_are_distinct_periods Plain.plain Plain.ordenar Plain.tipar
                   estavel_contract 2%nat dividido) as [ps [N [_ L]]].
  - vm_compute. reflexivity.
  - left. reflexivity.
  - exists ps. split; [exact N | exact L].
Defined.

Lemma missing_columns_become_null_witness :
  sort_contract (Plain.ordenar "TotalDespesas" false) /\
  exists out,
    @executar_agregacao Plain.plain Plain.ordenar Plain.tipar 1 (Some sem_uf) = Some out /\
    forall r, In r out -> a_UF r = KNaN.
Proof.
  split; [exact estavel_contract|].
  eexists. split; [vm_compute; reflexivity|]. intros r Hr.
  refine (proj1 (@missing_columns_become_null Plain.plain Plain.ordenar Plain.tipar
                   estavel_contract 1%nat sem_uf _ r _ Hr) _);
    [vm_compute; reflexivity | reflexivity].
Defined.

Lemma deviation_needs_two_quarters_witness :
  sort_contract (Plain.ordenar "TotalDespesas" false) /\
  exists out,
    @executar_agregacao Plain.plain Plain.ordenar Plain.tipar 2 (Some dividido) = Some out /\
    forall r, In r out ->
      (DesvioPadraoPorTrimestre r = DesvioNaN <-> NumTrimestres r = 1%nat).
Proof.
  split; [exact estavel_contract|].
  eexists. split; [vm_compute; reflexivity|]. intros r Hr.
  refine (proj1 (proj2 (proj2 (proj2
            (@deviation_needs_two_quarters Plain.plain Plain.ordenar Plain.tipar
               estavel_contract 2%nat dividido _ r _ Hr))))).
  vm_compute. reflexivity.
Defined.

End AgregarMoreFacts.

(* ===================================================================== *)
(** * Further properties: the five scripts run in sequence                *)
(* ===================================================================== *)

Module PipelineFacts.
Import Pipeline PipelineSpec.

Section WithPandas.
Context {pd : Pandas}.
Variable sort : string -> bool -> list Agregar.AggRow -> list Agregar.AggRow.
Variable tipar : list Agregar.Bruta -> Agregar.Bruta -> Agregar.Linha.

(** Script 04 reads the consolidated file, not what script 03 wrote,
    and writes the file script 03 wrote. *)
Lemma script_04_after_03 (w : Mundo) (d : Disco) :
  script_04 w (script_03 w d) = script_04 w d.
Proof.
  unfold script_03, script_04.
  destruct (consolidado d) as [txt|] eqn:E; [|now rewrite E].
  destruct (ler_consolidado w txt) as [df|] eqn:L; cbn [consolidado]; rewrite ?E, ?L;
    reflexivity.
Qed.

Lemma main_sem_03 (w : Mundo) (d : Disco) :
  main sort tipar w d
  = match script_04 w (script_02 w (script_01 w d)) with
    | None => Levantou (script_03 w (script_02 w (script_01 w d)))
    | Some d4 => Terminou (empacotar w (script_05 sort tipar w d4))
    end.
Proof. unfold main. cbv zeta. now rewrite script_04_after_03. Qed.

Lemma script_04_content (w : Mundo) (d d4 : Disco) :
  script_04 w d = Some d4 ->
  exists txt df cad out,
    consolidado d = Some txt /\ ler_consolidado w txt = Some df /\
    cadastro w = Some cad /\
    Enriquecer.executar_enriquecimento_total df cad = Some out /\
    validados d4 = Some (csv_enriquecidos w out).
Proof.
  unfold script_04. destruct (consolidado d) as [txt|]; [|discriminate].
  destruct (ler_consolidado w txt) as [df|] eqn:L; [|discriminate].
  destruct (cadastro w) as [cad|] eqn:Cd; [|discriminate].
  destruct (Enriquecer.executar_enriquecimento_total df cad) as [out|] eqn:X;
    [|discriminate].
  intros H. inversion H; subst d4. exists txt, df, cad, out. auto.
Qed.

Lemma validados_depois (w : Mundo) (d : Disco) :
  validados (empacotar w (script_05 sort tipar w d)) = validados d.
Proof.
  unfold script_05, empacotar.
  destruct (validados d) as [txt|] eqn:E.
  - destruct (Agregar.executar_agregacao sort tipar chunksize_padrao (ler_validados w txt));
      cbn [agregadas]; [cbn [validados]; first [reflexivity | exact E]|].
    destruct (agregadas d); cbn [validados]; first [reflexivity | exact E].
  - destruct (agregadas d); cbn [validados]; first [reflexivity | exact E].
Qed.

(** X27. In a run that ends normally, what script 03 wrote is
    overwritten by script 04 before script 05 reads it: the run ends
    as it would without script 03, whatever the mapping file holds,
    and the file that is aggregated is the enrichment of all the
    consolidated records, those with a zero or negative value
    included. *)
Theorem validation_output_is_overwritten (w : Mundo) (d d' : Disco) :
  main sort tipar w d = Terminou d' ->
  (forall m, main sort tipar (com_mapeamento w m) d = Terminou d') /\
  (exists d4, script_04 w (script_02 w (script_01 w d)) = Some d4 /\
              d' = empacotar w (script_05 sort tipar w d4)) /\
  exists txt df cad out,
    consolidado (script_02 w (script_01 w d)) = Some txt /\
    ler_consolidado w txt = Some df /\
    cadastro w = Some cad /\
    Enriquecer.executar_enriquecimento_total df cad = Some out /\
    validados d' = Some (csv_enriquecidos w out) /\
    (List.length df <= List.length out)%nat /\
    forall r, In r df ->
              exists e, In e out /\
                        Enriquecer.e_ValorDespesas e = ValorDespesas r.
Proof.
  rewrite main_sem_03.
  destruct (script_04 w (script_02 w (script_01 w d))) as [d4|] eqn:E; [|discriminate].
  intros H. inversion H; subst d'. clear H. split; [|split].
  - intros m. rewrite main_sem_03.
    change (script_04 (com_mapeamento w m) (script_02 (com_mapeamento w m)
                                              (script_01 (com_mapeamento w m) d)))
      with (script_04 w (script_02 w (script_01 w d))).
    rewrite E. reflexivity.
  - exists d4. split; reflexivity.
  - destruct (script_04_content _ _ _ E) as [txt [df [cad [out [T [L [Cd [X V]]]]]]]].
    exists txt, df, cad, out. rewrite validados_depois.
    split; [exact T|]. split; [exact L|]. split; [exact Cd|].
    split; [exact X|]. split; [exact V|].
    unfold Enriquecer.executar_enriquecimento_total in X.
    destruct (Enriquecer.preparar_cadastro cad) as [c|]; [|discriminate].
    inversion X; subst out. split.
    + apply EnriquecerFacts.flat_map_length_ge.
      intros r. apply EnriquecerFacts.merge_row_length.
    + intros r Hr.
      pose proof (EnriquecerFacts.merge_row_length c r) as Hl.
      destruct (Enriquecer.merge_row c r) as [|e es] eqn:M; [simpl in Hl; lia|].
      exists e. split.
      * apply in_flat_map. exists r. split; [exact Hr|]. rewrite M. now left.
      * assert (He : In e (Enriquecer.merge_row c r)) by (rewrite M; now left).
        apply EnriquecerFacts.merge_row_canonico in He.
        unfold EnriquecerSpec.canonico_e, EnriquecerSpec.canonico in He. congruence.
Qed.

(** X28. When script 02 leaves no consolidated file, script 03 does
    nothing and script 04 raises: the run stops there, script 05 is
    not run, and the validated file, the aggregated file and the final
    archive stay as they were before the run. *)
Theorem missing_consolidated_file_aborts (w : Mundo) (d : Disco) :
  consolidado (script_02 w (script_01 w d)) = None ->
  main sort tipar w d = Levantou (script_02 w (script_01 w d)) /\
  validados (script_02 w (script_01 w d)) = validados d /\
  agregadas (script_02 w (script_01 w d)) = agregadas d /\
  pacote (script_02 w (script_01 w d)) = pacote d.
Proof.
  intros H. split; [|repeat split].
  unfold main. cbv zeta.
  assert (E3 : script_03 w (script_02 w (script_01 w d)) = script_02 w (script_01 w d))
    by (unfold script_03 at 1; now rewrite H).
  rewrite E3. unfold script_04. now rewrite H.
Qed.

End WithPandas.

Lemma validation_output_is_overwritten_witness :
  exists d',
    @main Plain.plain Plain.ordenar Plain.tipar mundo_exemplo disco_exemplo = Terminou d' /\
    @main Plain.plain Plain.ordenar Plain.tipar
          (com_mapeamento mundo_exemplo ValidarSpec.mapa_123) disco_exemplo
    = Terminou d' /\
    validados d' = Some "enriquecidos".
Proof.
  eexists. split; [vm_compute; reflexivity|]. split; [|reflexivity].
  refine (proj1 (@validation_output_is_overwritten Plain.plain Plain.ordenar Plain.tipar
                   mundo_exemplo disco_exemplo _ _) ValidarSpec.mapa_123).
  vm_compute. reflexivity.
Defined.

Lemma missing_consolidated_file_aborts_witness :
  @main Plain.plain Plain.ordenar Plain.tipar mundo_exemplo disco_vazio
  = Levantou disco_vazio.
Proof.
  refine (proj1 (@missing_consolidated_file_aborts Plain.plain Plain.ordenar Plain.tipar
                   mundo_exemplo disco_vazio _)).
  reflexivity.
Defined.

End PipelineFacts.
